(** * Timetable generator: slot model, grid store, placement passes, driver

    A shallow embedding of [Time_table/timetable_generator.py] and of the
    request handler of [Time_table/app.py].

    Conventions of the embedding.
    - A Python [str] is a Rocq [string]; whitespace and letter case are those
      of Python on ASCII text.
    - A [dict] that is only read by key is a [gmap]; the module-level
      [FREE_DAY_SETTINGS], which is also iterated in insertion order, is an
      association list.
    - The six day names and the two shift names are enumerations: they are
      the keys the program itself creates every table with.
    - A loop whose body [return]s is a search for the first candidate that
      passes all the [continue] guards, followed by the writes of that
      iteration.
    - [random.sample] is CPython's pool algorithm over an abstract source of
      [randbelow] results. *)

From Stdlib Require Import ZArith Ascii String List Bool Lia Permutation DecimalString.
From stdpp Require Import base option list gmap strings.

Import ListNotations.
Local Open Scope string_scope.
#[local] Arguments String.append !_ _ : simpl nomatch.
Local Open Scope list_scope.

(* ===================================================================== *)
(** ** Python string primitives *)
(* ===================================================================== *)

Module PyStr.

Definition code (c : ascii) : nat := nat_of_ascii c.

(** [str.isspace] on one ASCII character: TAB..CR, FS..US and the blank. *)
Definition is_space (c : ascii) : bool :=
  let n := code c in
  ((9 <=? n)%nat && (n <=? 13)%nat) || ((28 <=? n)%nat && (n <=? 32)%nat).

(** [\d] on ASCII text. *)
Definition is_digit (c : ascii) : bool :=
  let n := code c in (48 <=? n)%nat && (n <=? 57)%nat.

Definition digit_value (c : ascii) : nat := code c - 48.

Fixpoint rev_onto (s acc : string) : string :=
  match s with
  | EmptyString => acc
  | String c s' => rev_onto s' (String c acc)
  end.

Definition rev (s : string) : string := rev_onto s EmptyString.

Fixpoint lstrip (s : string) : string :=
  match s with
  | EmptyString => EmptyString
  | String c s' => if is_space c then lstrip s' else s
  end.

Definition rstrip (s : string) : string := rev (lstrip (rev s)).

(** [s.strip()] *)
Definition strip (s : string) : string := rstrip (lstrip s).

(** The maximal run of non-blank characters at the head of [s]. *)
Fixpoint take_token (s : string) : string :=
  match s with
  | EmptyString => EmptyString
  | String c s' => if is_space c then EmptyString else String c (take_token s')
  end.

(** [s.split()[0]]: [None] stands for the [IndexError] of an empty list. *)
Definition first_token (s : string) : option string :=
  match take_token (lstrip s) with
  | EmptyString => None
  | t => Some t
  end.

(** [s.split(sep)] for a one-character separator. *)
Fixpoint split_on (sep : ascii) (s : string) : list string :=
  match s with
  | EmptyString => [EmptyString]
  | String c s' =>
      if Ascii.eqb c sep then EmptyString :: split_on sep s'
      else match split_on sep s' with
           | h :: t => String c h :: t
           | [] => [String c EmptyString]
           end
  end.

(** [needle in hay] *)
Fixpoint contains (needle hay : string) : bool :=
  String.prefix needle hay
  || match hay with
     | EmptyString => false
     | String _ hay' => contains needle hay'
     end.

Definition lower_char (c : ascii) : ascii :=
  let n := code c in
  if (65 <=? n)%nat && (n <=? 90)%nat then ascii_of_nat (n + 32) else c.

Definition upper_char (c : ascii) : ascii :=
  let n := code c in
  if (97 <=? n)%nat && (n <=? 122)%nat then ascii_of_nat (n - 32) else c.

Fixpoint map_chars (f : ascii -> ascii) (s : string) : string :=
  match s with
  | EmptyString => EmptyString
  | String c s' => String (f c) (map_chars f s')
  end.

Definition lower : string -> string := map_chars lower_char.
Definition upper : string -> string := map_chars upper_char.

Fixpoint remove_if (p : ascii -> bool) (s : string) : string :=
  match s with
  | EmptyString => EmptyString
  | String c s' => if p c then remove_if p s' else String c (remove_if p s')
  end.

(** [s.replace(" ", "")] *)
Definition remove_blanks : string -> string :=
  remove_if (fun c => Ascii.eqb c " "%char).

Fixpoint all_chars (p : ascii -> bool) (s : string) : bool :=
  match s with
  | EmptyString => true
  | String c s' => p c && all_chars p s'
  end.

(** [int(s)] on a string of decimal digits, most significant first. *)
Fixpoint int_acc (acc : nat) (s : string) : nat :=
  match s with
  | EmptyString => acc
  | String c s' => int_acc (10 * acc + digit_value c) s'
  end.

Definition int (s : string) : nat := int_acc 0 s.

End PyStr.

(* ===================================================================== *)
(** ** Configuration *)
(* ===================================================================== *)

Inductive day := Mon | Tue | Wed | Thu | Fri | Sat.

Definition DAYS : list day := [Mon; Tue; Wed; Thu; Fri; Sat].

#[global] Instance day_eq_dec : EqDecision day.
Proof. solve_decision. Defined.

Definition day_name (d : day) : string :=
  match d with
  | Mon => "Mon" | Tue => "Tue" | Wed => "Wed"
  | Thu => "Thu" | Fri => "Fri" | Sat => "Sat"
  end.

(** The keys of [SHIFT_SLOTS]. *)
Inductive shift := Shift_8_3 | Shift_10_5.

#[global] Instance shift_eq_dec : EqDecision shift.
Proof. solve_decision. Defined.

Definition shift_name (sh : shift) : string :=
  match sh with Shift_8_3 => "8-3" | Shift_10_5 => "10-5" end.

Definition SHIFT_SLOTS (sh : shift) : list string :=
  match sh with
  | Shift_8_3 =>
      [ "8-8:45"; "8:45-9:45";
        "9:45-10:00 Short Break";
        "10:00-11:00"; "11:00-12:00";
        "12:00-12:45 Lunch Break";
        "12:45-1:45"; "1:45-2:45" ]
  | Shift_10_5 =>
      [ "10:00-11:00"; "11:00-12:00";
        "12:00-12:45 Lunch Break";
        "12:45-1:45"; "1:45-2:45";
        "2:45-3:00 Short Break";
        "3-4"; "4-5" ]
  end.

(** Iteration order of the dictionary [SHIFT_SLOTS]. *)
Definition SHIFTS : list shift := [Shift_8_3; Shift_10_5].

Definition FREE_DAY_LABEL : string := "COMPETITIVE EXAM/SUNCLUBS/SPORT".

(* ===================================================================== *)
(** ** Slot canonicalisation *)
(* ===================================================================== *)

(** The exceptions the parser can raise. *)
Inductive exn :=
| ValueError (msg : string)
| IndexError.

Definition result (A : Type) : Type := exn + A.

(** The maximal prefix of decimal digits and what follows it. *)
Fixpoint span_digits (s : string) : string * string :=
  match s with
  | EmptyString => (EmptyString, EmptyString)
  | String c s' =>
      if PyStr.is_digit c
      then let '(d, r) := span_digits s' in (String c d, r)
      else (EmptyString, s)
  end.

Definition one_or_two (s : string) : bool :=
  match String.length s with
  | 1 | 2 => true
  | _ => false
  end.

(** [_RE_TIME_PART.match]: the groups of [^(\d{1,2})(?::(\d{1,2}))?$]. *)
Definition match_time_part (s : string) : option (string * option string) :=
  let '(h, r) := span_digits s in
  if one_or_two h then
    match r with
    | EmptyString => Some (h, None)
    | String c r' =>
        if Ascii.eqb c ":"%char then
          let '(m, r'') := span_digits r' in
          if one_or_two m then
            match r'' with
            | EmptyString => Some (h, Some m)
            | _ => None
            end
          else None
        else None
    end
  else None.

Definition parse_time_token (tok : string) : result nat :=
  match match_time_part (PyStr.strip tok) with
  | None => inl (ValueError "Cannot parse time token")
  | Some (g1, g2) =>
      let hh := PyStr.int g1 in
      let mm := match g2 with Some m => PyStr.int m | None => 0 end in
      let hh := if (hh <? 8)%nat then hh + 12 else hh in
      inr (hh * 60 + mm)
  end.

Definition slot_label_to_canonical (slot_label : string) : result (nat * nat) :=
  match PyStr.first_token slot_label with
  | None => inl IndexError
  | Some main =>
      match PyStr.split_on "-"%char main with
      | [p0; p1] =>
          let a := PyStr.strip p0 in
          let b := PyStr.strip p1 in
          match parse_time_token a with
          | inl e => inl e
          | inr start =>
              match parse_time_token b with
              | inl e => inl e
              | inr end_ => inr (start, end_)
              end
          end
      | _ => inl (ValueError "Unexpected slot format")
      end
  end.

(** One entry of [CANONICAL_MAP[sh]]: the parse, or [None] when it raised. *)
Definition canon_entry (sl : string) : option (nat * nat) :=
  match slot_label_to_canonical sl with
  | inr c => Some c
  | inl _ => None
  end.

Definition CANONICAL_MAP (sh : shift) : gmap string (option (nat * nat)) :=
  list_to_map (map (fun sl => (sl, canon_entry sl)) (SHIFT_SLOTS sh)).

(** [CANONICAL_MAP[sh].get(label)], the stored [None] and the absent key
    being the same answer. *)
Definition canonical (sh : shift) (label : string) : option (nat * nat) :=
  mjoin (CANONICAL_MAP sh !! label).

Definition slots_equivalent (shift_a : shift) (label_a : string)
    (shift_b : shift) (label_b : string) : bool :=
  match canonical shift_a label_a, canonical shift_b label_b with
  | Some ca, Some cb => (fst ca =? fst cb)%nat && (snd ca =? snd cb)%nat
  | _, _ => false
  end.

Definition pair_slots_equivalent (shift_a : shift) (a1 a2 : string)
    (shift_b : shift) (b1 b2 : string) : bool :=
  slots_equivalent shift_a a1 shift_b b1 && slots_equivalent shift_a a2 shift_b b2.


(* ===================================================================== *)
(** ** Printing a canonical pair *)
(* ===================================================================== *)

(** [str(n)] for a natural number. *)
Definition decimal (n : nat) : string := NilEmpty.string_of_uint (Nat.to_uint n).

(** [f"{n:02d}"] *)
Definition fmt_02d (n : nat) : string :=
  let s := decimal n in
  if (String.length s <? 2)%nat then "0" +:+ s else s.

(** The inner [fmt] of [canonical_to_string]. *)
Definition fmt (m : nat) : string := fmt_02d (m / 60) +:+ ":" +:+ fmt_02d (m mod 60).

Definition canonical_to_string (pair : nat * nat) : string :=
  let '(s, e) := pair in fmt s +:+ "-" +:+ fmt e.

(* ===================================================================== *)
(** ** Grid store *)
(* ===================================================================== *)

(** A table is [{day: {slot: cell}}] with exactly the six [DAYS] as its
    outer keys; a row can gain slot keys by assignment. *)
Definition table : Type := day -> gmap string string.

(** [tbl[day].get(slot, "")] *)
Definition get_cell (tbl : table) (d : day) (slot : string) : string :=
  default "" (tbl d !! slot).

(** [tbl[day][slot] = v] *)
Definition set_cell (tbl : table) (d : day) (slot v : string) : table :=
  fun d' => if decide (d' = d) then <[slot := v]> (tbl d') else tbl d'.

(** ["Break" in s or "Lunch" in s] *)
Definition is_inert (s : string) : bool :=
  PyStr.contains "Break" s || PyStr.contains "Lunch" s.

Definition empty_row (sh : shift) : gmap string string :=
  foldl (fun r s => <[s := if is_inert s then s else ""]> r) ∅ (SHIFT_SLOTS sh).

Definition empty_table_for_shift (sh : shift) : table := fun _ => empty_row sh.

Fixpoint adjacent (l : list string) : list (string * string) :=
  match l with
  | a :: (b :: _) as l' => (a, b) :: adjacent l'
  | _ => []
  end.

Definition consecutive_pairs_for_shift (sh : shift) : list (string * string) :=
  List.filter
    (fun p =>
       negb (is_inert (fst p) || is_inert (snd p))
       && negb (bool_decide (canonical sh (fst p) = None)
                || bool_decide (canonical sh (snd p) = None)))
    (adjacent (SHIFT_SLOTS sh)).

Definition free_slot (tbl : table) (d : day) (slot : string) : bool :=
  let val := get_cell tbl d slot in
  let v := PyStr.strip val in
  if String.eqb v "" then true
  else
    let up := PyStr.upper v in
    if PyStr.contains (PyStr.upper FREE_DAY_LABEL) up
       || PyStr.contains "COMPETITIVE" up || PyStr.contains "SUNCLUBS" up
       || PyStr.contains "SPORT" up || PyStr.contains "HOLIDAY" up
    then false
    else if PyStr.contains "BREAK" up || PyStr.contains "LUNCH" up
            || String.eqb v "MERGE"
    then false
    else false.

Definition free_pair (tbl : table) (d : day) (s1 s2 : string) : bool :=
  free_slot tbl d s1 && free_slot tbl d s2.

(** [tbl[day].values()] *)
Definition row_values (tbl : table) (d : day) : list string :=
  snd <$> map_to_list (tbl d).

Definition day_has_subject (tbl : table) (d : day) (subject : string) : bool :=
  let target := PyStr.lower (PyStr.strip subject) in
  if String.eqb target "" then false
  else existsb (fun v => PyStr.contains target (PyStr.lower v)) (row_values tbl d).

Definition day_has_division (tbl : table) (d : day) (sem div : string) : bool :=
  let needle_sem := PyStr.lower ("sem" ++ sem) in
  let needle_div := PyStr.lower ("div" ++ div) in
  existsb
    (fun v =>
       let low := PyStr.remove_blanks (PyStr.lower v) in
       PyStr.contains needle_sem low && PyStr.contains needle_div low)
    (row_values tbl d).

(* ===================================================================== *)
(** ** Shift compatibility rules *)
(* ===================================================================== *)

Definition is_slot_allowed_for_10_5_on_8_3 (slot_label : string) : bool :=
  match List.find (fun sh => bool_decide (is_Some (CANONICAL_MAP sh !! slot_label))) SHIFTS with
  | Some sh =>
      match canonical sh slot_label with
      | Some (start, _) => (600 <=? start)%nat
      | None => false
      end
  | None => false
  end.

Definition division_slot_allowed_for_faculty (fac_shift div_shift : shift)
    (slot_label : string) : bool :=
  if bool_decide (fac_shift = Shift_10_5) && bool_decide (div_shift = Shift_8_3)
  then is_slot_allowed_for_10_5_on_8_3 slot_label
  else true.

Definition division_pair_allowed_for_faculty (fac_shift div_shift : shift)
    (pair : string * string) : bool :=
  if bool_decide (fac_shift = Shift_10_5) && bool_decide (div_shift = Shift_8_3)
  then is_slot_allowed_for_10_5_on_8_3 (fst pair)
       && is_slot_allowed_for_10_5_on_8_3 (snd pair)
  else true.

(** [re.sub(r'\s+', '', s.strip()).upper()] *)
Definition normalize_token (s : string) : string :=
  PyStr.upper (PyStr.remove_if PyStr.is_space (PyStr.strip s)).

(* ===================================================================== *)
(** ** Free-day settings and division tables *)
(* ===================================================================== *)

(** [FREE_DAY_SETTINGS]: [(sem, div) -> days], in insertion order. *)
Definition free_days : Type := list ((string * string) * list day).

Definition fds_get (fds : free_days) (key : string * string) : list day :=
  match List.find (fun e => bool_decide (fst e = key)) fds with
  | Some e => snd e
  | None => []
  end.

(** [FREE_DAY_SETTINGS[key] = days]: an existing key keeps its place. *)
Fixpoint fds_set (fds : free_days) (key : string * string) (days : list day) : free_days :=
  match fds with
  | [] => [(key, days)]
  | e :: fds' =>
      if bool_decide (fst e = key) then (key, days) :: fds'
      else e :: fds_set fds' key days
  end.

Definition holiday_text (sem div : string) : string :=
  FREE_DAY_LABEL ++ " (Sem" ++ sem ++ " Div" ++ div ++ ")".

Abbreviation div_tables := (gmap (string * string) (shift * table)).

Definition ensure_div_table (fds : free_days) (dtables : div_tables)
    (sem div : string) (div_shift : shift) : div_tables * (table * shift) :=
  let key := (sem, div) in
  match dtables !! key with
  | Some payload => (dtables, (snd payload, fst payload))
  | None =>
      let tbl := empty_table_for_shift div_shift in
      let holidays := fds_get fds (sem, normalize_token div) in
      let tbl :=
        foldl
          (fun tbl hday =>
             foldl
               (fun tbl slot =>
                  if is_inert slot then tbl
                  else set_cell tbl hday slot (holiday_text sem div))
               tbl (SHIFT_SLOTS div_shift))
          tbl holidays in
      (<[key := (div_shift, tbl)]> dtables, (tbl, div_shift))
  end.

Definition is_division_holiday (fds : free_days) (sem div : string) (d : day) : bool :=
  bool_decide (d ∈ fds_get fds (sem, normalize_token div)).


(* ===================================================================== *)
(** ** Batch labels *)
(* ===================================================================== *)

(** [re.split(pattern, s)] for a pattern [[...]+] over one character class:
    the pieces between the maximal runs of separators, an empty piece
    standing before a leading run and after a trailing one. *)
Fixpoint re_split_runs (sep : ascii -> bool) (in_run : bool) (s : string) : list string :=
  match s with
  | EmptyString => [EmptyString]
  | String c s' =>
      if sep c then
        if in_run then re_split_runs sep true s'
        else EmptyString :: re_split_runs sep true s'
      else
        match re_split_runs sep false s' with
        | h :: t => String c h :: t
        | [] => [String c EmptyString]
        end
  end.

(** The class [[ ,]]. *)
Definition blank_or_comma (c : ascii) : bool :=
  Ascii.eqb c " "%char || Ascii.eqb c ","%char.

Definition parse_batches_input (raw : string) : list string * bool :=
  let raw := PyStr.strip raw in
  if String.eqb raw "" then (["B1"], false)
  else if PyStr.contains "/" raw && negb (PyStr.contains "," raw)
  then ([PyStr.remove_blanks raw], true)
  else
    let parts :=
      map normalize_token
        (List.filter (fun x => negb (String.eqb (PyStr.strip x) ""))
           (re_split_runs blank_or_comma false raw)) in
    match parts with
    | [] => (["B1"], false)
    | _ => (parts, false)
    end.

(* ===================================================================== *)
(** ** The free-day prompt *)
(* ===================================================================== *)

(** The digits of an [int] literal: decimal digits, with single
    underscores between them. *)
Fixpoint int_body (after_digit : bool) (s : string) : bool :=
  match s with
  | EmptyString => after_digit
  | String c r =>
      if PyStr.is_digit c then int_body true r
      else if Ascii.eqb c "_"%char then after_digit && int_body false r
      else false
  end.

(** [int(s)] in base 10 on ASCII text: white space around the literal, an
    optional sign, then the digits; [None] is the [ValueError]. *)
Definition py_int (s : string) : option Z :=
  let t := PyStr.strip s in
  let '(neg, body) :=
    match t with
    | String c r =>
        if Ascii.eqb c "-"%char then (true, r)
        else if Ascii.eqb c "+"%char then (false, r)
        else (false, t)
    | EmptyString => (false, t)
    end in
  if int_body false body then
    let n := Z.of_nat (PyStr.int (PyStr.remove_if (fun c => Ascii.eqb c "_"%char) body)) in
    Some (if neg then (- n)%Z else n)
  else None.

(** [DAYS_MAP] *)
Definition DAYS_MAP (k : string) : option day :=
  if String.eqb k "1" then Some Mon
  else if String.eqb k "2" then Some Tue
  else if String.eqb k "3" then Some Wed
  else if String.eqb k "4" then Some Thu
  else if String.eqb k "5" then Some Fri
  else if String.eqb k "6" then Some Sat
  else None.

(** The first loop of the prompt, over the lines typed: it asks again
    until a number between 0 and 6 is given.  [None] is the [EOFError] of
    [input] when the lines run out. *)
Fixpoint read_holiday_count (inputs : list string) : option (nat * list string) :=
  match inputs with
  | [] => None
  | line :: rest =>
      match py_int (PyStr.strip line) with
      | Some n =>
          if ((0 <=? n)%Z && (n <=? 6)%Z)%bool then Some (Z.to_nat n, rest)
          else read_holiday_count rest
      | None => read_holiday_count rest
      end
  end.

(** The second loop: [n] more days are asked for, each line being asked
    again until it names a day that was not chosen yet. *)
Fixpoint read_holidays (n : nat) (holidays_list : list day) (inputs : list string)
  : option (list day * list string) :=
  match n with
  | 0 => Some (holidays_list, inputs)
  | S n' =>
      match inputs with
      | [] => None
      | line :: rest =>
          match DAYS_MAP (PyStr.strip line) with
          | Some d =>
              if bool_decide (d ∈ holidays_list) then read_holidays n holidays_list rest
              else read_holidays n' (holidays_list ++ [d]) rest
          | None => read_holidays n holidays_list rest
          end
      end
  end.

Definition ask_and_record_free_days_for_division (sem div : string)
    (fds : free_days) (inputs : list string) : option (free_days * list string) :=
  match read_holiday_count inputs with
  | None => None
  | Some (num_holidays, rest) =>
      match read_holidays num_holidays [] rest with
      | None => None
      | Some (holidays_list, rest') =>
          Some (fds_set fds (sem, normalize_token div) holidays_list, rest')
      end
  end.

(* ===================================================================== *)
(** ** The pseudo-random source *)
(* ===================================================================== *)

(** The generator behind [random]: the sequence of values its successive
    [randbelow] calls are reduced from, and how many were consumed. *)
Record rng := { tape : nat -> nat; pos : nat }.

Definition randbelow (n : nat) (r : rng) : nat * rng :=
  (tape r (pos r) mod n, {| tape := tape r; pos := S (pos r) |}).

(** The selection loop of [random.sample] on a small population:
    [j = randbelow(n - i); result[i] = pool[j]; pool[j] = pool[n - i - 1]],
    with [m = n - i]. *)
Fixpoint sample_loop {A} (todo m : nat) (pool : list A) (r : rng) : list A * rng :=
  match todo with
  | 0 => ([], r)
  | S todo' =>
      let '(j, r1) := randbelow m r in
      match pool !! j, pool !! (m - 1) with
      | Some x, Some y =>
          let '(rest, r2) := sample_loop todo' (m - 1) (<[j := y]> pool) r1 in
          (x :: rest, r2)
      | _, _ => ([], r1)
      end
  end.

(** [random.sample(DAYS, len(DAYS))] *)
Definition random_sample_days (r : rng) : list day * rng :=
  sample_loop (length DAYS) (length DAYS) DAYS r.

(* ===================================================================== *)
(** ** Placement records *)
(* ===================================================================== *)

Inductive kind := Theory | Lab.

#[global] Instance kind_eq_dec : EqDecision kind.
Proof. solve_decision. Defined.

(** Which loop of which function made a placement. *)
Inductive pass := Lock | LockFallback | Force | ForceRelax.

#[global] Instance pass_eq_dec : EqDecision pass.
Proof. solve_decision. Defined.

(** The obligation instance a placement call works on. *)
Record task := {
  t_kind : kind;
  t_faculty : string;
  t_fshift : shift;
  t_sem : string;
  t_div : string;
  t_dshift : shift;
  t_subject : string;
  t_batch : string
}.

(** The cells one successful call assigns. *)
Inductive cells :=
| TheoryCells (fday : day) (fslot : string) (dday : day) (dslot : string)
| LabCells (fday : day) (fs1 fs2 : string) (dday : day) (ds1 ds2 : string).

(** One entry per outcome record the placement functions send to the
    logger: [SUCCESS] / [SUCCESS-FLEX] / [FORCE] / [FORCE-RELAX] with the
    cells assigned, [TRY-FAIL], and [FAILED FORCE].  The informational
    [HOLIDAY-SKIP] lines are left out. *)
Inductive event :=
| Success (ps : pass) (who : task) (c : cells)
| TryFail (who : task)
| FailedForce (who : task).

Record outcome := {
  placed : bool;
  out_ftbl : table;
  out_dtbl : table;
  out_event : event
}.

Definition theory_text_f (subject sem div : string) : string :=
  subject ++ " (Sem" ++ sem ++ " Div" ++ div ++ ")".

Definition theory_text_d (subject fname : string) : string :=
  subject ++ " (" ++ fname ++ ")".

Definition lab_text_f (subject sem div batch_label : string) : string :=
  subject ++ " Lab (Sem" ++ sem ++ " Div" ++ div ++ ") [" ++ batch_label ++ "]".

Definition lab_text_d (subject fname batch_label : string) : string :=
  subject ++ " Lab (" ++ fname ++ ") [" ++ batch_label ++ "]".

(** The assignments of the iteration that returns [True]. *)
Definition write_cells (who : task) (c : cells) (ftbl dtbl : table) : table * table :=
  match c with
  | TheoryCells fday fslot dday dslot =>
      (set_cell ftbl fday fslot (theory_text_f (t_subject who) (t_sem who) (t_div who)),
       set_cell dtbl dday dslot (theory_text_d (t_subject who) (t_faculty who)))
  | LabCells fday fs1 fs2 dday ds1 ds2 =>
      (set_cell
         (set_cell ftbl fday fs1
            (lab_text_f (t_subject who) (t_sem who) (t_div who) (t_batch who)))
         fday fs2 "MERGE",
       set_cell
         (set_cell dtbl dday ds1
            (lab_text_d (t_subject who) (t_faculty who) (t_batch who)))
         dday ds2 "MERGE")
  end.

Definition success (ps : pass) (who : task) (c : cells) (ftbl dtbl : table) : outcome :=
  let '(f', d') := write_cells who c ftbl dtbl in
  {| placed := true; out_ftbl := f'; out_dtbl := d'; out_event := Success ps who c |}.

Definition failure (ev : event) (ftbl dtbl : table) : outcome :=
  {| placed := false; out_ftbl := ftbl; out_dtbl := dtbl; out_event := ev |}.

(** A [for] loop left by [return] at the first element whose body yields
    a value. *)
Fixpoint find_first {A B} (body : A -> option B) (l : list A) : option B :=
  match l with
  | [] => None
  | a :: l' =>
      match body a with
      | Some b => Some b
      | None => find_first body l'
      end
  end.

(** The same loop when the body also advances the generator. *)
Fixpoint find_first_st {A B S} (body : A -> S -> option B * S) (l : list A) (s : S)
  : option B * S :=
  match l with
  | [] => (None, s)
  | a :: l' =>
      match body a s with
      | (Some b, s') => (Some b, s')
      | (None, s') => find_first_st body l' s'
      end
  end.

(* ===================================================================== *)
(** ** Lock pass *)
(* ===================================================================== *)

(** The two inner loops of [lock_theory] on one day. *)
Definition lock_theory_slots (ftbl dtbl : table) (fshift dshift : shift) (d : day)
  : option cells :=
  find_first
    (fun fslot =>
       if is_inert fslot then None
       else if negb (free_slot ftbl d fslot) then None
       else
         find_first
           (fun dslot =>
              if is_inert dslot then None
              else if negb (free_slot dtbl d dslot) then None
              else if negb (slots_equivalent fshift fslot dshift dslot) then None
              else if negb (division_slot_allowed_for_faculty fshift dshift dslot) then None
              else Some (TheoryCells d fslot d dslot))
           (SHIFT_SLOTS dshift))
    (SHIFT_SLOTS fshift).

Definition theory_task (fshift dshift : shift) (fname sem div subject : string) : task :=
  {| t_kind := Theory; t_faculty := fname; t_fshift := fshift; t_sem := sem;
     t_div := div; t_dshift := dshift; t_subject := subject; t_batch := "" |}.

Definition lab_task (fshift dshift : shift) (fname sem div subject batch_label : string) : task :=
  {| t_kind := Lab; t_faculty := fname; t_fshift := fshift; t_sem := sem;
     t_div := div; t_dshift := dshift; t_subject := subject; t_batch := batch_label |}.

Definition lock_theory (fds : free_days) (ftbl dtbl : table) (fshift dshift : shift)
    (fname sem div subject : string) (avoid_dup : bool) (r : rng) : outcome * rng :=
  let who := theory_task fshift dshift fname sem div subject in
  let '(days, r) := random_sample_days r in
  match
    find_first
      (fun d =>
         if avoid_dup && day_has_division dtbl d sem div then None
         else if avoid_dup && day_has_subject dtbl d subject then None
         else if is_division_holiday fds sem div d then None
         else lock_theory_slots ftbl dtbl fshift dshift d)
      days
  with
  | Some c => (success Lock who c ftbl dtbl, r)
  | None =>
      let '(days, r) := random_sample_days r in
      match find_first (lock_theory_slots ftbl dtbl fshift dshift) days with
      | Some c => (success LockFallback who c ftbl dtbl, r)
      | None => (failure (TryFail who) ftbl dtbl, r)
      end
  end.

(** The loop over the division pairs, for a chosen faculty pair. *)
Definition lab_dpairs (dtbl : table) (fshift dshift : shift)
    (fday : day) (fs1 fs2 : string) (dday : day) : option cells :=
  find_first
    (fun dp =>
       let '(ds1, ds2) := dp in
       if negb (free_pair dtbl dday ds1 ds2) then None
       else if negb (pair_slots_equivalent fshift fs1 fs2 dshift ds1 ds2) then None
       else if negb (division_pair_allowed_for_faculty fshift dshift (ds1, ds2))
       then None
       else Some (LabCells fday fs1 fs2 dday ds1 ds2))
    (consecutive_pairs_for_shift dshift).

(** The two inner loops of [lock_lab] on one day. *)
Definition lock_lab_pairs (ftbl dtbl : table) (fshift dshift : shift) (d : day)
  : option cells :=
  find_first
    (fun fp =>
       let '(fs1, fs2) := fp in
       if negb (free_pair ftbl d fs1 fs2) then None
       else lab_dpairs dtbl fshift dshift d fs1 fs2 d)
    (consecutive_pairs_for_shift fshift).

Definition lock_lab (fds : free_days) (ftbl dtbl : table) (fshift dshift : shift)
    (fname sem div subject batch_label : string) (avoid_dup : bool) (r : rng)
  : outcome * rng :=
  let who := lab_task fshift dshift fname sem div subject batch_label in
  let '(days, r) := random_sample_days r in
  match
    find_first
      (fun d =>
         if avoid_dup && day_has_division dtbl d sem div then None
         else if avoid_dup && day_has_subject dtbl d subject then None
         else if is_division_holiday fds sem div d then None
         else lock_lab_pairs ftbl dtbl fshift dshift d)
      days
  with
  | Some c => (success Lock who c ftbl dtbl, r)
  | None =>
      let '(fdays, r) := random_sample_days r in
      match
        find_first_st
          (fun fday =>
             find_first_st
               (fun fp r =>
                  let '(fs1, fs2) := fp in
                  if negb (free_pair ftbl fday fs1 fs2) then (None, r)
                  else
                    let '(ddays, r) := random_sample_days r in
                    (find_first
                       (fun dday =>
                          if avoid_dup && day_has_division dtbl dday sem div then None
                          else lab_dpairs dtbl fshift dshift fday fs1 fs2 dday)
                       ddays, r))
               (consecutive_pairs_for_shift fshift))
          fdays r
      with
      | (Some c, r) => (success LockFallback who c ftbl dtbl, r)
      | (None, r) => (failure (TryFail who) ftbl dtbl, r)
      end
  end.

(* ===================================================================== *)
(** ** Force pass *)
(* ===================================================================== *)

(** [[s for s in SHIFT_SLOTS[sh] if "Break" not in s and "Lunch" not in s]] *)
Definition teaching_slots (sh : shift) : list string :=
  List.filter (fun s => negb (PyStr.contains "Break" s) && negb (PyStr.contains "Lunch" s))
    (SHIFT_SLOTS sh).

Definition force_place_theory (fds : free_days) (ftbl dtbl : table) (fshift dshift : shift)
    (fname sem div subject : string) : outcome :=
  let who := theory_task fshift dshift fname sem div subject in
  let fslots := teaching_slots fshift in
  let dslots := teaching_slots dshift in
  match
    find_first
      (fun d =>
         if is_division_holiday fds sem div d then None
         else
           find_first
             (fun fs =>
                if negb (free_slot ftbl d fs) then None
                else
                  find_first
                    (fun ds =>
                       if negb (free_slot dtbl d ds) then None
                       else if negb (slots_equivalent fshift fs dshift ds) then None
                       else if negb (division_slot_allowed_for_faculty fshift dshift ds)
                       then None
                       else Some (TheoryCells d fs d ds))
                    dslots)
             fslots)
      DAYS
  with
  | Some c => success Force who c ftbl dtbl
  | None =>
      match
        find_first
          (fun dday =>
             find_first
               (fun ds =>
                  if negb (free_slot dtbl dday ds) then None
                  else
                    find_first
                      (fun fday =>
                         find_first
                           (fun fs =>
                              if negb (free_slot ftbl fday fs) then None
                              else if negb (slots_equivalent fshift fs dshift ds) then None
                              else if negb (division_slot_allowed_for_faculty fshift dshift ds)
                              then None
                              else Some (TheoryCells fday fs dday ds))
                           fslots)
                      DAYS)
               dslots)
          DAYS
      with
      | Some c => success ForceRelax who c ftbl dtbl
      | None => failure (FailedForce who) ftbl dtbl
      end
  end.

Definition force_place_lab (fds : free_days) (ftbl dtbl : table) (fshift dshift : shift)
    (fname sem div subject batch_label : string) : outcome :=
  let who := lab_task fshift dshift fname sem div subject batch_label in
  let fpairs := consecutive_pairs_for_shift fshift in
  let dpairs := consecutive_pairs_for_shift dshift in
  match
    find_first
      (fun d =>
         if is_division_holiday fds sem div d then None
         else
           find_first
             (fun fp =>
                let '(fs1, fs2) := fp in
                if negb (free_pair ftbl d fs1 fs2) then None
                else lab_dpairs dtbl fshift dshift d fs1 fs2 d)
             fpairs)
      DAYS
  with
  | Some c => success Force who c ftbl dtbl
  | None =>
      match
        find_first
          (fun dday =>
             find_first
               (fun dp =>
                  let '(ds1, ds2) := dp in
                  if negb (free_pair dtbl dday ds1 ds2) then None
                  else
                    find_first
                      (fun fday =>
                         find_first
                           (fun fp =>
                              let '(fs1, fs2) := fp in
                              if negb (free_pair ftbl fday fs1 fs2) then None
                              else if negb (pair_slots_equivalent fshift fs1 fs2 dshift ds1 ds2)
                              then None
                              else Some (LabCells fday fs1 fs2 dday ds1 ds2))
                           fpairs)
                      DAYS)
               dpairs)
          DAYS
      with
      | Some c => success ForceRelax who c ftbl dtbl
      | None => failure (FailedForce who) ftbl dtbl
      end
  end.


(* ===================================================================== *)
(** ** Scheduler driver *)
(* ===================================================================== *)

Record subject_entry := {
  Type_ : kind;
  Semester : string;
  Division : string;
  Div_Shift : shift;
  Subject : string;
  Num_Labs : nat;
  Batches : list string;
  Batches_Grouped : bool;
  Theory_Classes : nat;
  Holidays : list day
}.

Record faculty := {
  Name : string;
  Shift : shift;
  Subjects : list subject_entry
}.

(** The mutable state of one run: the two table stores, the generator
    and the log. *)
Record world := {
  ftables : gmap string table;
  dtables : gmap (string * string) (shift * table);
  gen : rng;
  log : list event
}.

Definition blank_table : table := fun _ => ∅.

(** [ftables[fname]] *)
Definition ftbl_of (w : world) (fname : string) : table :=
  default blank_table (ftables w !! fname).

(** [dtables[(sem, div)]["table"]] *)
Definition dtbl_of (w : world) (key : string * string) : table :=
  match dtables w !! key with
  | Some payload => snd payload
  | None => blank_table
  end.

Definition set_dtables (w : world) (d : gmap (string * string) (shift * table)) : world :=
  {| ftables := ftables w; dtables := d; gen := gen w; log := log w |}.

(** [dtbl, _ = ensure_div_table(dtables, sem, div, dshift)] *)
Definition ensure (fds : free_days) (sem div : string) (dshift : shift) (w : world) : world :=
  set_dtables w (fst (ensure_div_table fds (dtables w) sem div dshift)).

(** The two tables a call worked on are the objects held in the stores:
    its assignments are seen there, and its log record is emitted. *)
Definition commit (who : task) (o : outcome) (r : rng) (w : world) : world :=
  {| ftables := <[t_faculty who := out_ftbl o]> (ftables w);
     dtables := alter (fun payload => (fst payload, out_dtbl o))
                  (t_sem who, t_div who) (dtables w);
     gen := r;
     log := log w ++ [out_event o] |}.

(** One lock call of the driver, and the [pending.append] on failure. *)
Definition lock_step (fds : free_days) (who : task) (st : world * list task)
  : world * list task :=
  let '(w, pending) := st in
  let ftbl := ftbl_of w (t_faculty who) in
  let dtbl := dtbl_of w (t_sem who, t_div who) in
  let '(o, r) :=
    match t_kind who with
    | Lab =>
        lock_lab fds ftbl dtbl (t_fshift who) (t_dshift who) (t_faculty who)
          (t_sem who) (t_div who) (t_subject who) (t_batch who) true (gen w)
    | Theory =>
        lock_theory fds ftbl dtbl (t_fshift who) (t_dshift who) (t_faculty who)
          (t_sem who) (t_div who) (t_subject who) true (gen w)
    end in
  (commit who o r w, if placed o then pending else pending ++ [who]).

(** One iteration of the loop over [pending]. *)
Definition force_step (fds : free_days) (w : world) (who : task) : world :=
  let w := ensure fds (t_sem who) (t_div who) (t_dshift who) w in
  let ftbl := ftbl_of w (t_faculty who) in
  let dtbl := dtbl_of w (t_sem who, t_div who) in
  let o :=
    match t_kind who with
    | Theory =>
        force_place_theory fds ftbl dtbl (t_fshift who) (t_dshift who) (t_faculty who)
          (t_sem who) (t_div who) (t_subject who)
    | Lab =>
        force_place_lab fds ftbl dtbl (t_fshift who) (t_dshift who) (t_faculty who)
          (t_sem who) (t_div who) (t_subject who) (t_batch who)
    end in
  commit who o (gen w) w.

(** A loop whose body may raise. *)
Fixpoint for_each {A S} (body : A -> S -> option S) (l : list A) (s : S) : option S :=
  match l with
  | [] => Some s
  | a :: l' =>
      match body a s with
      | Some s' => for_each body l' s'
      | None => None
      end
  end.

Definition is_kind (k : kind) (s : subject_entry) : bool := bool_decide (Type_ s = k).

(** The body of the loop over the lab entries; [None] is the [IndexError]
    of [entry["Batches"][0]] on an empty list. *)
Definition lab_entry (fds : free_days) (f : faculty) (entry : subject_entry)
    (st : world * list task) : option (world * list task) :=
  let st := (ensure fds (Semester entry) (Division entry) (Div_Shift entry) (fst st), snd st) in
  match
    (if negb (Batches_Grouped entry) then Some (Batches entry)
     else match Batches entry with
          | b :: _ => Some [b]
          | [] => None
          end)
  with
  | None => None
  | Some batches =>
      Some
        (foldl
           (fun st batch =>
              Nat.iter (Num_Labs entry)
                (lock_step fds
                   (lab_task (Shift f) (Div_Shift entry) (Name f) (Semester entry)
                      (Division entry) (Subject entry) batch))
                st)
           st batches)
  end.

(** The body of the loop over the theory entries. *)
Definition theory_entry (fds : free_days) (f : faculty) (entry : subject_entry)
    (st : world * list task) : world * list task :=
  let st := (ensure fds (Semester entry) (Division entry) (Div_Shift entry) (fst st), snd st) in
  Nat.iter (Theory_Classes entry)
    (lock_step fds
       (theory_task (Shift f) (Div_Shift entry) (Name f) (Semester entry)
          (Division entry) (Subject entry)))
    st.

(** The lock passes of one faculty: the table of the faculty is created on
    first use, then the lab entries and the theory entries are tried. *)
Definition lock_phase (fds : free_days) (f : faculty) (w : world)
  : option (world * list task) :=
  let w :=
    match ftables w !! Name f with
    | Some _ => w
    | None =>
        {| ftables := <[Name f := empty_table_for_shift (Shift f)]> (ftables w);
           dtables := dtables w; gen := gen w; log := log w |}
    end in
  match for_each (lab_entry fds f) (List.filter (is_kind Lab) (Subjects f)) (w, []) with
  | None => None
  | Some st =>
      Some (foldl (fun st entry => theory_entry fds f entry st) st
              (List.filter (is_kind Theory) (Subjects f)))
  end.

Definition assign_subjects_for_faculty (fds : free_days) (f : faculty) (w : world)
  : option world :=
  match lock_phase fds f w with
  | None => None
  | Some (w, pending) => Some (foldl (force_step fds) w pending)
  end.

(* ===================================================================== *)
(** ** Free-day pre-marking *)
(* ===================================================================== *)

(** [div_shift_map.get(key, "8-3")]: the [Div_Shift] of the first entry
    that names the key. *)
Definition div_shift_map (faculties : list faculty) (key : string * string) : shift :=
  match
    List.find (fun s => bool_decide ((Semester s, Division s) = key))
      (concat (map Subjects faculties))
  with
  | Some s => Div_Shift s
  | None => Shift_8_3
  end.

(** [for slot in list(dtbl[day].keys()): dtbl[day][slot] = v] *)
Definition fill_day (tbl : table) (d : day) (v : string) : table :=
  foldl (fun tbl slot => set_cell tbl d slot v) tbl (fst <$> map_to_list (tbl d)).

(** The body of the loop over [FREE_DAY_SETTINGS.items()]. *)
Definition mark_free_days (fds : free_days) (faculties : list faculty)
    (dt : div_tables) (item : (string * string) * list day) : div_tables :=
  let '((sem, div), days) := item in
  let div_shift := div_shift_map faculties (sem, div) in
  let '(dt, (dtbl, sh)) := ensure_div_table fds dt sem div div_shift in
  let dtbl := foldl (fun tbl d => fill_day tbl d (holiday_text sem div)) dtbl days in
  <[(sem, div) := (sh, dtbl)]> dt.

Definition apply_free_day_markings_from_inputs (fds : free_days)
    (dt : div_tables) (faculties : list faculty) : div_tables :=
  foldl (mark_free_days fds faculties) dt fds.

(* ===================================================================== *)
(** ** The two entry points *)
(* ===================================================================== *)

(** What [random.seed(a)] followed by [randbelow] calls produces. *)
Definition generator : Type := Z -> nat -> nat.

Definition random_seed (g : generator) (a : Z) : rng := {| tape := g a; pos := 0 |}.

(** The loop over the faculties. *)
Definition assign_all (fds : free_days) (faculties : list faculty) (w : world)
  : option world :=
  for_each (assign_subjects_for_faculty fds) faculties w.

(** [main], from [random.seed(7)] to the end of the scheduling loop.  The
    interactive collector is an input: it leaves the faculty list and the
    recorded [FREE_DAY_SETTINGS]. *)
Definition main (g : generator) (fds : free_days) (faculties : list faculty) : option world :=
  let r := random_seed g 7 in
  let dt := apply_free_day_markings_from_inputs fds ∅ faculties in
  assign_all fds faculties {| ftables := ∅; dtables := dt; gen := r; log := [] |}.

(** The module-level state the request handler of [app.py] works on. *)
Record app_state := {
  FREE_DAY_SETTINGS : free_days;
  app_ftables : gmap string table;
  app_dtables : div_tables;
  app_random : rng
}.

(** The loop that fills [FREE_DAY_SETTINGS] from the request. *)
Definition collect_free_days (faculties : list faculty) : free_days :=
  foldl
    (fun fds subj =>
       if negb (String.eqb (Semester subj) "") && negb (String.eqb (Division subj) "")
          && negb (bool_decide (Holidays subj = []))
       then fds_set fds (Semester subj, normalize_token (Division subj)) (Holidays subj)
       else fds)
    [] (concat (map Subjects faculties)).

(** The loop that creates the tables before scheduling. *)
Definition init_tables (fds : free_days) (faculties : list faculty)
  : gmap string table * div_tables :=
  foldl
    (fun acc f =>
       let ft :=
         match fst acc !! Name f with
         | Some _ => fst acc
         | None => <[Name f := empty_table_for_shift (Shift f)]> (fst acc)
         end in
       (ft,
        foldl
          (fun dt subj =>
             fst (ensure_div_table fds dt (Semester subj) (Division subj) (Div_Shift subj)))
          (snd acc) (Subjects f)))
    (∅, ∅) faculties.

(** [generate], from the reset of the stores to the end of the scheduling
    loop: the next module state and the log of the run.  [None] is the
    exception that the handler turns into the 500 answer. *)
Definition generate (g : generator) (faculties : list faculty) (st : app_state)
  : option (app_state * list event) :=
  let r := random_seed g 7 in
  match faculties with
  | [] =>
      Some ({| FREE_DAY_SETTINGS := FREE_DAY_SETTINGS st;
               app_ftables := ∅; app_dtables := ∅; app_random := r |}, [])
  | _ =>
      let fds := collect_free_days faculties in
      let '(ft, dt) := init_tables fds faculties in
      let dt := apply_free_day_markings_from_inputs fds dt faculties in
      match assign_all fds faculties {| ftables := ft; dtables := dt; gen := r; log := [] |} with
      | Some w =>
          Some ({| FREE_DAY_SETTINGS := fds; app_ftables := ftables w;
                   app_dtables := dtables w; app_random := gen w |}, log w)
      | None => None
      end
  end.

(* ===================================================================== *)
(** ** The summary under a faculty timetable *)
(* ===================================================================== *)

(** One row of the bottom summary: [FacShort], [Faculty Full Name],
    [Semester], [Subject], [Theory Classes], [Labs], [Total Sessions]. *)
Record summary_row := {
  row_short : string;
  row_full : string;
  row_sem : string;
  row_subject : string;
  row_theory : nat;
  row_labs : nat;
  row_total : nat
}.

(** [subj_index]: [(sem, subj) -> {"Theory": t, "Labs": l}], in insertion
    order. *)
Definition subj_index : Type := list ((string * string) * (nat * nat)).

(** The body of the first loop for one entry: the key is created with two
    zeros when it is new, then one of its counters is increased. *)
Fixpoint bump (key : string * string) (dt dl : nat) (idx : subj_index) : subj_index :=
  match idx with
  | [] => [(key, (0 + dt, 0 + dl))]
  | (k, (t, l)) :: rest =>
      if decide (k = key) then (k, (t + dt, l + dl)) :: rest
      else (k, (t, l)) :: bump key dt dl rest
  end.

(** [blocks] of a lab entry. *)
Definition lab_blocks (s : subject_entry) : nat :=
  if Batches_Grouped s then Num_Labs s
  else Num_Labs s * Nat.max 1 (length (Batches s)).

Definition count_entry (idx : subj_index) (s : subject_entry) : subj_index :=
  match Type_ s with
  | Theory => bump (Semester s, Subject s) (Theory_Classes s) 0 idx
  | Lab => bump (Semester s, Subject s) 0 (lab_blocks s) idx
  end.

(** [build_faculty_summary_rows(faculty_obj)]; [full_name] is the
    [Full_Name] of the faculty when it has one. *)
Definition build_faculty_summary_rows (f : faculty) (full_name : option string)
  : list summary_row :=
  map
    (fun item =>
       let '((sem, subj), (theory, labs)) := item in
       {| row_short := Name f; row_full := default (Name f) full_name;
          row_sem := sem; row_subject := subj;
          row_theory := theory; row_labs := labs; row_total := theory + labs |})
    (foldl count_entry [] (Subjects f)).

(* ===================================================================== *)
(** * Properties *)
(* ===================================================================== *)

(** ** Blank strings and [strip] *)

Module PyStrFacts.
Import PyStr.

Definition blank (s : string) : bool := all_chars is_space s.

Lemma all_chars_rev_onto p s acc :
  all_chars p (rev_onto s acc) = all_chars p s && all_chars p acc.
Proof.
  revert acc; induction s as [|c s IH]; intros acc; simpl; [reflexivity|].
  rewrite IH; simpl. destruct (p c), (all_chars p s), (all_chars p acc); reflexivity.
Qed.

Lemma rev_onto_empty s acc : rev_onto s acc = EmptyString -> s = EmptyString /\ acc = EmptyString.
Proof.
  revert acc; induction s as [|c s IH]; intros acc H; simpl in H; [auto|].
  apply IH in H as [_ H]; discriminate.
Qed.

Lemma append_assoc (a b c : string) : ((a ++ b) ++ c = a ++ (b ++ c))%string.
Proof. induction a as [|x a IH]; simpl; congruence. Qed.

Lemma append_empty_r (a : string) : (a ++ EmptyString)%string = a.
Proof. induction a as [|x a IH]; simpl; congruence. Qed.

Lemma rev_onto_app s acc : rev_onto s acc = (rev s ++ acc)%string.
Proof.
  unfold rev. revert acc; induction s as [|c s IH]; intros acc; simpl; [reflexivity|].
  rewrite IH, (IH (String c EmptyString)).
  rewrite append_assoc. reflexivity.
Qed.

Lemma rev_cons c s : rev (String c s) = (rev s ++ String c EmptyString)%string.
Proof. unfold rev at 1; simpl. apply rev_onto_app. Qed.

Lemma rev_app a b : rev (a ++ b)%string = (rev b ++ rev a)%string.
Proof.
  induction a as [|c a IH]; simpl.
  - rewrite append_empty_r. reflexivity.
  - rewrite !rev_cons, IH, append_assoc. reflexivity.
Qed.

Lemma rev_involutive s : rev (rev s) = s.
Proof.
  induction s as [|c s IH]; [reflexivity|].
  rewrite rev_cons, rev_app, IH. reflexivity.
Qed.

Lemma lstrip_blank s : lstrip s = EmptyString <-> blank s = true.
Proof.
  unfold blank; induction s as [|c s IH]; simpl; [tauto|].
  destruct (is_space c); simpl; [exact IH|]. split; discriminate.
Qed.

Lemma lstrip_head s c t : lstrip s = String c t -> is_space c = false.
Proof.
  induction s as [|x s IH]; simpl; [discriminate|].
  destruct (is_space x) eqn:E; [exact IH|]. intros [= -> _]; exact E.
Qed.

(** [s.strip() == ""] exactly when [s] holds nothing but white space. *)
Lemma strip_blank s : strip s = EmptyString <-> blank s = true.
Proof.
  split.
  - unfold strip, rstrip, rev. intros H.
    apply rev_onto_empty in H as [H _].
    apply lstrip_blank in H. unfold blank in H.
    rewrite all_chars_rev_onto in H. apply andb_true_iff in H as [H _].
    destruct (lstrip s) as [|c t] eqn:E; [apply lstrip_blank; exact E|].
    apply lstrip_head in E. simpl in H. rewrite E in H. discriminate.
  - intros H. apply lstrip_blank in H. unfold strip. rewrite H. reflexivity.
Qed.

Lemma all_chars_app p a b :
  all_chars p (a ++ b)%string = all_chars p a && all_chars p b.
Proof.
  induction a as [|c a IH]; simpl; [reflexivity|].
  rewrite IH. destruct (p c); reflexivity.
Qed.

Definition spaceless (s : string) : bool := all_chars (fun c => negb (is_space c)) s.

Lemma lstrip_spaceless s : spaceless s = true -> lstrip s = s.
Proof.
  destruct s as [|c s]; simpl; [reflexivity|].
  intros H. apply andb_true_iff in H as [H _].
  destruct (is_space c); [discriminate|reflexivity].
Qed.

Lemma strip_spaceless s : spaceless s = true -> strip s = s.
Proof.
  intros H. unfold strip, rstrip. rewrite (lstrip_spaceless s H).
  rewrite lstrip_spaceless; [apply rev_involutive|].
  unfold spaceless, rev. rewrite all_chars_rev_onto.
  unfold spaceless in H. rewrite H. reflexivity.
Qed.

End PyStrFacts.

(** ** Slot-label parsing *)

(** The endpoint syntax [H(:M)?] of the specification: an hour field of one
    or two decimal digits, optionally followed by a colon and a minute field
    of one or two decimal digits. *)
Inductive hm_digits : string -> Prop :=
| hm_one c : PyStr.is_digit c = true -> hm_digits (String c EmptyString)
| hm_two c1 c2 :
    PyStr.is_digit c1 = true -> PyStr.is_digit c2 = true ->
    hm_digits (String c1 (String c2 EmptyString)).

Inductive endpoint : string -> nat -> nat -> Prop :=
| endpoint_h h : hm_digits h -> endpoint h (PyStr.int h) 0
| endpoint_hm h m :
    hm_digits h -> hm_digits m ->
    endpoint (h +:+ ":" +:+ m) (PyStr.int h) (PyStr.int m).

(** Minutes of an endpoint, an hour below 8 read as an afternoon hour. *)
Definition to_minutes (h m : nat) : nat := (if (h <? 8)%nat then h + 12 else h) * 60 + m.

(** The label form the parser accepts: the first word of the label, as
    [slot_label.split()[0]] cuts it (white space before it skipped, any
    white-space character ending it), is [a-b] with both [a] and [b]
    endpoints. *)
Definition label_form (label : string) (h1 m1 h2 m2 : nat) : Prop :=
  exists a b, PyStr.first_token label = Some (a +:+ "-" +:+ b)
              /\ endpoint a h1 m1 /\ endpoint b h2 m2.

(** The label form as the specification words it: the text before the
    first space of the label is [a-b] with both [a] and [b] endpoints. *)
Fixpoint text_before_first_space (s : string) : string :=
  match s with
  | EmptyString => EmptyString
  | String c s' =>
      if Ascii.eqb c " "%char then EmptyString
      else String c (text_before_first_space s')
  end.

Definition worded_label_form (label : string) (h1 m1 h2 m2 : nat) : Prop :=
  exists a b, text_before_first_space label = a +:+ "-" +:+ b
              /\ endpoint a h1 m1 /\ endpoint b h2 m2.

(** The claim of the specification, as it is worded: a label of the worded
    form parses to its pair of minutes, and every other label makes the
    parser fail. *)
Definition parsing_as_worded : Prop :=
  forall label,
    (forall h1 m1 h2 m2,
        worded_label_form label h1 m1 h2 m2 ->
        slot_label_to_canonical label = inr (to_minutes h1 m1, to_minutes h2 m2))
    /\ ((forall h1 m1 h2 m2, ~ worded_label_form label h1 m1 h2 m2) ->
        exists e : exn, slot_label_to_canonical label = inl e).

(** Text of ASCII characters, the text the string primitives are modelled
    on. *)
Definition ascii_text (s : string) : Prop :=
  PyStr.all_chars (fun c => (PyStr.code c <? 128)%nat) s = true.

Module ParseFacts.
Import PyStr PyStrFacts.

Definition time_char (c : ascii) : bool := is_digit c || Ascii.eqb c ":"%char.

Lemma all_chars_impl (p q : ascii -> bool) s :
  (forall c, p c = true -> q c = true) -> all_chars p s = true -> all_chars q s = true.
Proof.
  intros Hpq; induction s as [|c s IH]; simpl; [auto|].
  intros H; apply andb_true_iff in H as [Hc Hs].
  rewrite (Hpq _ Hc), (IH Hs). reflexivity.
Qed.

Lemma time_char_not_space c : time_char c = true -> negb (is_space c) = true.
Proof. destruct c as [[] [] [] [] [] [] [] []]; vm_compute; congruence. Qed.

Lemma time_char_not_dash c : time_char c = true -> negb (Ascii.eqb c "-"%char) = true.
Proof. destruct c as [[] [] [] [] [] [] [] []]; vm_compute; congruence. Qed.

Lemma digit_not_colon c : is_digit c = true -> Ascii.eqb c ":"%char = false.
Proof. destruct c as [[] [] [] [] [] [] [] []]; vm_compute; congruence. Qed.

Lemma hm_digits_chars h : hm_digits h -> all_chars is_digit h = true.
Proof. intros [c H|c1 c2 H1 H2]; simpl; rewrite ?H, ?H1, ?H2; reflexivity. Qed.

Lemma hm_digits_one_or_two h : hm_digits h -> one_or_two h = true.
Proof. intros [c H|c1 c2 H1 H2]; reflexivity. Qed.

Lemma endpoint_chars a h m : endpoint a h m -> all_chars time_char a = true.
Proof.
  assert (D : forall s, all_chars is_digit s = true -> all_chars time_char s = true).
  { intros s. apply all_chars_impl. intros c Hc. unfold time_char. rewrite Hc. reflexivity. }
  intros [x Hx|x y Hx Hy].
  - apply D, hm_digits_chars, Hx.
  - rewrite !all_chars_app. rewrite (D _ (hm_digits_chars _ Hx)), (D _ (hm_digits_chars _ Hy)).
    reflexivity.
Qed.

(** [span_digits] on a run of digits followed by the empty string or by
    a character that is not a digit. *)
Lemma span_digits_run h r :
  all_chars is_digit h = true ->
  match r with EmptyString => True | String c _ => is_digit c = false end ->
  span_digits (h +:+ r) = (h, r).
Proof.
  intros Hh Hr; induction h as [|c h IH]; simpl.
  - destruct r as [|c r]; simpl; [reflexivity|]. rewrite Hr. reflexivity.
  - simpl in Hh. apply andb_true_iff in Hh as [Hc Hh].
    rewrite Hc, (IH Hh). reflexivity.
Qed.

Lemma span_digits_all h :
  all_chars is_digit h = true -> span_digits h = (h, EmptyString).
Proof.
  intros Hh. pose proof (span_digits_run h EmptyString Hh I) as H.
  rewrite append_empty_r in H. exact H.
Qed.

Lemma span_digits_inv s h r :
  span_digits s = (h, r) ->
  s = (h ++ r)%string /\ all_chars is_digit h = true.
Proof.
  revert h r; induction s as [|c s IH]; simpl; intros h r H.
  - injection H as <- <-. auto.
  - destruct (is_digit c) eqn:Hc.
    + destruct (span_digits s) as [d r0]. injection H as <- <-.
      destruct (IH d r0 eq_refl) as [-> Hd]. simpl. rewrite Hc, Hd. auto.
    + injection H as <- <-. auto.
Qed.

Lemma one_or_two_digits h :
  one_or_two h = true -> all_chars is_digit h = true -> hm_digits h.
Proof.
  destruct h as [|c1 [|c2 [|c3 h]]]; simpl; try discriminate; intros _ H.
  - apply andb_true_iff in H as [H _]. constructor; exact H.
  - apply andb_true_iff in H as [H1 H]. apply andb_true_iff in H as [H2 _].
    constructor; assumption.
Qed.

Lemma match_time_part_endpoint a h m :
  endpoint a h m ->
  exists g1 g2, match_time_part a = Some (g1, g2)
                /\ h = int g1 /\ m = match g2 with Some x => int x | None => 0 end.
Proof.
  intros [x Hx|x y Hx Hy]; unfold match_time_part.
  - rewrite span_digits_all by (auto using hm_digits_chars).
    rewrite (hm_digits_one_or_two _ Hx). eexists _, None. eauto.
  - rewrite span_digits_run; [|auto using hm_digits_chars|reflexivity].
    rewrite (hm_digits_one_or_two _ Hx). simpl.
    rewrite span_digits_all by (auto using hm_digits_chars).
    rewrite (hm_digits_one_or_two _ Hy). eexists _, (Some _). eauto.
Qed.

Lemma match_time_part_inv s g1 g2 :
  match_time_part s = Some (g1, g2) ->
  endpoint s (int g1) (match g2 with Some x => int x | None => 0 end).
Proof.
  unfold match_time_part. destruct (span_digits s) as [h r] eqn:E.
  apply span_digits_inv in E as [-> Hh].
  destruct (one_or_two h) eqn:L; [|discriminate].
  pose proof (one_or_two_digits _ L Hh) as Dh.
  destruct r as [|c r].
  - intros [= <- <-]. rewrite append_empty_r. constructor; exact Dh.
  - destruct (Ascii.eqb_spec c ":"%char) as [->|]; [|discriminate].
    destruct (span_digits r) as [m r'] eqn:E'.
    apply span_digits_inv in E' as [-> Hm].
    destruct (one_or_two m) eqn:L'; [|discriminate].
    destruct r'; [|discriminate]. intros [= <- <-].
    rewrite append_empty_r. apply endpoint_hm; [exact Dh|].
    apply one_or_two_digits; assumption.
Qed.

Lemma spaceless_of_time_chars s : all_chars time_char s = true -> spaceless s = true.
Proof. apply all_chars_impl, time_char_not_space. Qed.

Lemma parse_endpoint a h m :
  endpoint a h m -> parse_time_token (strip a) = inr (to_minutes h m).
Proof.
  intros H. pose proof (spaceless_of_time_chars _ (endpoint_chars _ _ _ H)) as Hs.
  unfold parse_time_token. rewrite !(strip_spaceless _ Hs).
  destruct (match_time_part_endpoint _ _ _ H) as (g1 & g2 & -> & -> & ->).
  reflexivity.
Qed.

Lemma parse_time_token_inv s n :
  spaceless s = true -> parse_time_token s = inr n ->
  exists h m, endpoint s h m /\ n = to_minutes h m.
Proof.
  intros Hs. unfold parse_time_token. rewrite (strip_spaceless _ Hs).
  destruct (match_time_part s) as [[g1 g2]|] eqn:E; [|discriminate].
  intros [= <-]. apply match_time_part_inv in E. eauto.
Qed.

(** [split] on a separator that occurs exactly once. *)
Definition sepless (sep : ascii) (s : string) : bool :=
  all_chars (fun c => negb (Ascii.eqb c sep)) s.

Lemma split_on_sepless sep s : sepless sep s = true -> split_on sep s = [s].
Proof.
  induction s as [|c s IH]; simpl; [reflexivity|].
  intros H. apply andb_true_iff in H as [Hc Hs].
  destruct (Ascii.eqb c sep); [discriminate|]. rewrite (IH Hs). reflexivity.
Qed.

Lemma split_on_once sep a b :
  sepless sep a = true -> sepless sep b = true ->
  split_on sep (a +:+ String sep b) = [a; b].
Proof.
  intros Ha Hb; induction a as [|c a IH]; simpl.
  - rewrite Ascii.eqb_refl, (split_on_sepless _ _ Hb). reflexivity.
  - simpl in Ha. apply andb_true_iff in Ha as [Hc Ha].
    destruct (Ascii.eqb c sep); [discriminate|]. rewrite (IH Ha). reflexivity.
Qed.

Lemma split_on_nonempty sep s : split_on sep s <> [].
Proof.
  induction s as [|c s IH]; simpl; [discriminate|].
  destruct (Ascii.eqb c sep); [discriminate|].
  destruct (split_on sep s); [contradiction|discriminate].
Qed.

Lemma split_on_one sep s p : split_on sep s = [p] -> s = p.
Proof.
  revert p; induction s as [|c s IH]; simpl; intros p.
  - intros [= <-]. reflexivity.
  - destruct (Ascii.eqb c sep).
    + intros [= _ H]. exfalso. exact (split_on_nonempty _ _ H).
    + destruct (split_on sep s) as [|y [|z l]] eqn:E; try discriminate.
      * exfalso. exact (split_on_nonempty _ _ E).
      * intros [= <-]. f_equal. apply IH. reflexivity.
Qed.

Lemma split_on_two sep s p0 p1 :
  split_on sep s = [p0; p1] -> s = (p0 +:+ String sep p1).
Proof.
  revert p0; induction s as [|c s IH]; simpl; intros p0; [discriminate|].
  destruct (Ascii.eqb_spec c sep) as [->|Hne].
  - intros [= <- H]. simpl. f_equal. apply (split_on_one _ _ _ H).
  - destruct (split_on sep s) as [|y l] eqn:E; [discriminate|].
    intros [= <- ->]. simpl. f_equal. apply IH. reflexivity.
Qed.

Lemma take_token_spaceless s : spaceless (take_token s) = true.
Proof.
  unfold spaceless. induction s as [|c s IH]; simpl; [reflexivity|].
  destruct (is_space c) eqn:E; simpl; [reflexivity|]. rewrite E, IH. reflexivity.
Qed.

Lemma first_token_spaceless s t : first_token s = Some t -> spaceless t = true.
Proof.
  unfold first_token. pose proof (take_token_spaceless (lstrip s)) as H.
  destruct (take_token (lstrip s)); [discriminate|]. intros [= <-]. exact H.
Qed.

Lemma parse_sound label h1 m1 h2 m2 :
  label_form label h1 m1 h2 m2 ->
  slot_label_to_canonical label = inr (to_minutes h1 m1, to_minutes h2 m2).
Proof.
  intros (a & b & Hmain & Ha & Hb).
  unfold slot_label_to_canonical. rewrite Hmain.
  change (a +:+ "-" +:+ b) with (a +:+ String "-"%char b).
  rewrite split_on_once.
  - rewrite (parse_endpoint _ _ _ Ha), (parse_endpoint _ _ _ Hb). reflexivity.
  - eapply all_chars_impl; [apply time_char_not_dash|]. eapply endpoint_chars, Ha.
  - eapply all_chars_impl; [apply time_char_not_dash|]. eapply endpoint_chars, Hb.
Qed.

Lemma parse_complete label s e :
  slot_label_to_canonical label = inr (s, e) ->
  exists h1 m1 h2 m2, label_form label h1 m1 h2 m2
                      /\ s = to_minutes h1 m1 /\ e = to_minutes h2 m2.
Proof.
  unfold slot_label_to_canonical.
  destruct (first_token label) as [main|] eqn:Hmain; [|discriminate].
  pose proof (first_token_spaceless _ _ Hmain) as Hs.
  destruct (split_on "-" main) as [|p0 [|p1 [|p2 l]]] eqn:Hsplit; try discriminate.
  apply split_on_two in Hsplit. subst main.
  unfold spaceless in Hs. rewrite all_chars_app in Hs.
  apply andb_true_iff in Hs as [Hs0 Hs1]. simpl in Hs1.
  rewrite (strip_spaceless p0 Hs0), (strip_spaceless p1 Hs1).
  destruct (parse_time_token p0) as [|n0] eqn:E0; [discriminate|].
  destruct (parse_time_token p1) as [|n1] eqn:E1; [discriminate|].
  intros [= <- <-].
  apply parse_time_token_inv in E0 as (h1 & m1 & Ha & ->); [|exact Hs0].
  apply parse_time_token_inv in E1 as (h2 & m2 & Hb & ->); [|exact Hs1].
  exists h1, m1, h2, m2. split; [|auto]. exists p0, p1. auto.
Qed.

Lemma first_token_none label : first_token label = None <-> blank label = true.
Proof.
  unfold first_token. rewrite <- lstrip_blank.
  destruct (lstrip label) as [|c s] eqn:E; simpl; [tauto|].
  apply lstrip_head in E. rewrite E. split; discriminate.
Qed.

End ParseFacts.

Lemma parse_error label e :
  slot_label_to_canonical label = inl e ->
  (PyStr.first_token label = None /\ e = IndexError)
  \/ (exists word msg, PyStr.first_token label = Some word /\ e = ValueError msg).
Proof.
  unfold slot_label_to_canonical.
  destruct (PyStr.first_token label) as [word|]; [|intros [= <-]; left; auto].
  intros H. right. exists word.
  assert (Htok : forall tok e', parse_time_token tok = inl e' -> exists msg, e' = ValueError msg).
  { intros tok e'. unfold parse_time_token.
    destruct (match_time_part (PyStr.strip tok)) as [[g1 g2]|]; [discriminate|].
    intros [= <-]. eauto. }
  destruct (PyStr.split_on "-"%char word) as [|p0 [|p1 [|p2 parts]]];
    try (injection H as <-; eauto; fail).
  destruct (parse_time_token (PyStr.strip p0)) as [e0|start] eqn:E0.
  - injection H as <-. destruct (Htok _ _ E0) as [msg ->]. eauto.
  - destruct (parse_time_token (PyStr.strip p1)) as [e1|end_] eqn:E1; [|discriminate].
    injection H as <-. destruct (Htok _ _ E1) as [msg ->]. eauto.
Qed.

(** C8, counterexample: in [" 8-9"] the text before the first space is
    empty, so the label is not of the worded form; the parser skips the
    leading blank and returns the pair of 8:00 and 9:00. *)
Lemma leading_space_label_counterexample : ~ parsing_as_worded.
Proof.
  intros H. destruct (H " 8-9") as [_ Hfail].
  destruct Hfail as [e He].
  - intros h1 m1 h2 m2 (a & b & Hmain & _). simpl in Hmain.
    destruct a; discriminate.
  - vm_compute in He. discriminate.
Qed.

(** C8 (amended). Slot-label parsing, on ASCII text: when the first word of
    a label -- [slot_label.split()[0]], found after any leading white space
    and ended by any white-space character -- is [a-b] with both endpoints
    of the form [H(:M)?], the parser returns the pair of minute counts of
    [a] and [b], an hour below 8 being increased by 12.  A label of any
    other form makes the parser raise instead of returning a pair:
    [IndexError] when the label has no word (it is empty or white space
    only), [ValueError] otherwise. *)
Theorem slot_label_parsing (label : string) :
  ascii_text label ->
  (forall h1 m1 h2 m2,
      label_form label h1 m1 h2 m2 ->
      slot_label_to_canonical label = inr (to_minutes h1 m1, to_minutes h2 m2))
  /\ ((forall h1 m1 h2 m2, ~ label_form label h1 m1 h2 m2) ->
      (PyStrFacts.blank label = true /\ slot_label_to_canonical label = inl IndexError)
      \/ (PyStrFacts.blank label = false
          /\ exists msg, slot_label_to_canonical label = inl (ValueError msg))).
Proof.
  intros _. split.
  - intros h1 m1 h2 m2. apply ParseFacts.parse_sound.
  - intros Hno. destruct (slot_label_to_canonical label) as [e|[s e]] eqn:E.
    + destruct (parse_error _ _ E) as [[Hnone ->]|(word & msg & Hword & ->)].
      * left. split; [|reflexivity]. apply ParseFacts.first_token_none, Hnone.
      * right. split; [|eauto].
        destruct (PyStrFacts.blank label) eqn:Hb; [|reflexivity].
        apply ParseFacts.first_token_none in Hb. congruence.
    + apply ParseFacts.parse_complete in E as (h1 & m1 & h2 & m2 & Hf & _).
      destruct (Hno _ _ _ _ Hf).
Qed.

Lemma slot_label_parsing_witness :
  slot_label_to_canonical "12:45-1:45 x" = inr (765, 825)
  /\ slot_label_to_canonical " 8-9" = inr (480, 540)
  /\ slot_label_to_canonical "   " = inl IndexError
  /\ exists msg, slot_label_to_canonical "12:45" = inl (ValueError msg).
Proof.
  split; [|split; [|split]].
  - apply (proj1 (slot_label_parsing "12:45-1:45 x" eq_refl) 12 45 1 45).
    exists "12:45", "1:45". split; [reflexivity|]. split.
    + apply (endpoint_hm "12" "45"); apply hm_two; reflexivity.
    + apply (endpoint_hm "1" "45"); [apply hm_one|apply hm_two]; reflexivity.
  - apply (proj1 (slot_label_parsing " 8-9" eq_refl) 8 0 9 0).
    exists "8", "9". split; [reflexivity|].
    split; apply endpoint_h, hm_one; reflexivity.
  - destruct (proj2 (slot_label_parsing "   " eq_refl)) as [[_ H]|[H _]].
    + intros h1 m1 h2 m2 (a & b & Hmain & _). discriminate Hmain.
    + exact H.
    + discriminate H.
  - destruct (proj2 (slot_label_parsing "12:45" eq_refl)) as [[H _]|[_ H]].
    + intros h1 m1 h2 m2 (a & b & Hmain & _). vm_compute in Hmain.
      injection Hmain as Hmain. symmetry in Hmain.
      do 5 (destruct a as [|? a]; simpl in Hmain; [discriminate|];
            injection Hmain as _ Hmain).
      destruct a; discriminate.
    + discriminate H.
    + exact H.
Defined.

(** ** Free cells *)

(** The texts the program stores in a cell. *)
Inductive cell_text : string -> Prop :=
| text_inert sh s : s ∈ SHIFT_SLOTS sh -> is_inert s = true -> cell_text s
| text_holiday sem div : cell_text (holiday_text sem div)
| text_merge : cell_text "MERGE"
| text_theory_f subject sem div : cell_text (theory_text_f subject sem div)
| text_theory_d subject fname : cell_text (theory_text_d subject fname)
| text_lab_f subject sem div batch : cell_text (lab_text_f subject sem div batch)
| text_lab_d subject fname batch : cell_text (lab_text_d subject fname batch).

Lemma free_slot_strip tbl d slot :
  free_slot tbl d slot = true <-> PyStr.strip (get_cell tbl d slot) = "".
Proof.
  unfold free_slot.
  destruct (String.eqb_spec (PyStr.strip (get_cell tbl d slot)) "") as [E|E].
  - tauto.
  - split; [|contradiction].
    repeat match goal with |- context [if ?b then _ else _] => destruct b end;
      discriminate.
Qed.

Lemma free_slot_blank tbl d slot :
  free_slot tbl d slot = PyStrFacts.blank (get_cell tbl d slot).
Proof.
  apply eq_true_iff_eq. rewrite free_slot_strip. apply PyStrFacts.strip_blank.
Qed.

Lemma cell_text_not_blank v : cell_text v -> PyStrFacts.blank v = false.
Proof.
  unfold PyStrFacts.blank.
  intros [sh s Hin Hs|sem div| |subject sem div|subject fname
         |subject sem div batch|subject fname batch].
  - destruct sh; simpl in Hin; set_unfold;
      repeat (destruct Hin as [->|Hin]; [first [reflexivity|discriminate]|]);
      destruct Hin.
  - reflexivity.
  - reflexivity.
  - unfold theory_text_f. rewrite PyStrFacts.all_chars_app.
    apply andb_false_iff; right; reflexivity.
  - unfold theory_text_d. rewrite PyStrFacts.all_chars_app.
    apply andb_false_iff; right; reflexivity.
  - unfold lab_text_f. rewrite PyStrFacts.all_chars_app.
    apply andb_false_iff; right; reflexivity.
  - unfold lab_text_d. rewrite PyStrFacts.all_chars_app.
    apply andb_false_iff; right; reflexivity.
Qed.

(** ** What one placement call does *)

Definition faculty_cells (c : cells) : list (day * string) :=
  match c with
  | TheoryCells fday fslot _ _ => [(fday, fslot)]
  | LabCells fday fs1 fs2 _ _ _ => [(fday, fs1); (fday, fs2)]
  end.

Definition division_cells (c : cells) : list (day * string) :=
  match c with
  | TheoryCells _ _ dday dslot => [(dday, dslot)]
  | LabCells _ _ _ dday ds1 ds2 => [(dday, ds1); (dday, ds2)]
  end.

Definition faculty_day (c : cells) : day :=
  match c with TheoryCells fday _ _ _ | LabCells fday _ _ _ _ _ => fday end.

Definition division_day (c : cells) : day :=
  match c with TheoryCells _ _ dday _ | LabCells _ _ _ dday _ _ => dday end.

Definition cells_kind (c : cells) : kind :=
  match c with TheoryCells _ _ _ _ => Theory | LabCells _ _ _ _ _ _ => Lab end.

(** Faculty slot and division slot, position by position. *)
Definition slot_pairs (c : cells) : list (string * string) :=
  match c with
  | TheoryCells _ fslot _ dslot => [(fslot, dslot)]
  | LabCells _ fs1 fs2 _ ds1 ds2 => [(fs1, ds1); (fs2, ds2)]
  end.

(** Both slots are known to their shift and denote the same interval. *)
Definition same_interval (fshift dshift : shift) (p : string * string) : Prop :=
  exists start end_ : nat,
    canonical fshift (fst p) = Some (start, end_)
    /\ canonical dshift (snd p) = Some (start, end_).

Record sound_cells (fds : free_days) (who : task) (ftbl dtbl : table)
    (ps : pass) (c : cells) : Prop := {
  sc_kind : cells_kind c = t_kind who;
  sc_ffree : Forall (fun p => free_slot ftbl (fst p) (snd p) = true) (faculty_cells c);
  sc_dfree : Forall (fun p => free_slot dtbl (fst p) (snd p) = true) (division_cells c);
  sc_equiv : Forall (same_interval (t_fshift who) (t_dshift who)) (slot_pairs c);
  sc_distinct : NoDup (faculty_cells c) /\ NoDup (division_cells c);
  sc_primary :
    ps = Lock \/ ps = Force ->
    faculty_day c = division_day c
    /\ is_division_holiday fds (t_sem who) (t_div who) (division_day c) = false
}.

(** The result of a call: the writes of one sound iteration, or nothing. *)
Inductive call_spec (fds : free_days) (who : task) (ftbl dtbl : table)
    (locking : bool) : outcome -> Prop :=
| call_success ps c :
    (if locking then ps = Lock \/ ps = LockFallback else ps = Force \/ ps = ForceRelax) ->
    sound_cells fds who ftbl dtbl ps c ->
    call_spec fds who ftbl dtbl locking (success ps who c ftbl dtbl)
| call_failure :
    call_spec fds who ftbl dtbl locking
      (failure (if locking then TryFail who else FailedForce who) ftbl dtbl).

Section Search.
Context {A B S : Type}.

Lemma find_first_Some (body : A -> option B) l b :
  find_first body l = Some b -> exists a, In a l /\ body a = Some b.
Proof.
  induction l as [|a l IH]; simpl; [discriminate|].
  destruct (body a) eqn:E.
  - intros [= <-]. eauto.
  - intros H. destruct (IH H) as (a' & ? & ?). eauto.
Qed.

Lemma find_first_None (body : A -> option B) l :
  (forall a, In a l -> body a = None) -> find_first body l = None.
Proof.
  induction l as [|a l IH]; simpl; intros H; [reflexivity|].
  rewrite (H a) by auto. apply IH. auto.
Qed.

Lemma find_first_head (body : A -> option B) a l b :
  body a = Some b -> find_first body (a :: l) = Some b.
Proof. simpl. intros ->. reflexivity. Qed.

Lemma find_first_st_Some (body : A -> S -> option B * S) l s b s' :
  find_first_st body l s = (Some b, s') ->
  exists a s1, In a l /\ body a s1 = (Some b, s').
Proof.
  revert s; induction l as [|a l IH]; simpl; intros s; [discriminate|].
  destruct (body a s) as [[b0|] s0] eqn:E.
  - intros [= <- <-]. eauto.
  - intros H. destruct (IH _ H) as (a' & s1 & ? & ?). eauto.
Qed.
End Search.

Lemma slots_equivalent_interval fshift fs dshift ds :
  slots_equivalent fshift fs dshift ds = true -> same_interval fshift dshift (fs, ds).
Proof.
  unfold slots_equivalent, same_interval; simpl.
  destruct (canonical fshift fs) as [[s1 e1]|]; [|discriminate].
  destruct (canonical dshift ds) as [[s2 e2]|]; [|discriminate]. simpl.
  intros H. apply andb_true_iff in H as [H1 H2].
  apply Nat.eqb_eq in H1, H2. subst. eauto.
Qed.

(** The two slots of a consecutive pair are two different slots. *)
Lemma consecutive_pairs_distinct sh a b :
  In (a, b) (consecutive_pairs_for_shift sh) -> a <> b.
Proof.
  intros H. destruct sh; vm_compute in H;
    repeat (destruct H as [H|H]; [injection H as <- <-; discriminate|]);
    destruct H.
Qed.

Lemma NoDup_two_slots (d : day) (s1 s2 : string) : s1 <> s2 -> NoDup [(d, s1); (d, s2)].
Proof.
  intros Hne. apply NoDup_cons. split.
  - intros H. apply list_elem_of_singleton in H. congruence.
  - apply NoDup_singleton.
Qed.

Lemma theory_cells_sound fds who ftbl dtbl ps fday fs dday ds :
  t_kind who = Theory ->
  free_slot ftbl fday fs = true -> free_slot dtbl dday ds = true ->
  slots_equivalent (t_fshift who) fs (t_dshift who) ds = true ->
  (ps = Lock \/ ps = Force ->
   fday = dday /\ is_division_holiday fds (t_sem who) (t_div who) dday = false) ->
  sound_cells fds who ftbl dtbl ps (TheoryCells fday fs dday ds).
Proof.
  intros Hk Hf Hd He Hp. split; simpl; auto using NoDup_singleton.
  repeat constructor. apply slots_equivalent_interval, He.
Qed.

Lemma lab_cells_sound fds who ftbl dtbl ps fday fs1 fs2 dday ds1 ds2 :
  t_kind who = Lab ->
  free_pair ftbl fday fs1 fs2 = true -> free_pair dtbl dday ds1 ds2 = true ->
  pair_slots_equivalent (t_fshift who) fs1 fs2 (t_dshift who) ds1 ds2 = true ->
  In (fs1, fs2) (consecutive_pairs_for_shift (t_fshift who)) ->
  In (ds1, ds2) (consecutive_pairs_for_shift (t_dshift who)) ->
  (ps = Lock \/ ps = Force ->
   fday = dday /\ is_division_holiday fds (t_sem who) (t_div who) dday = false) ->
  sound_cells fds who ftbl dtbl ps (LabCells fday fs1 fs2 dday ds1 ds2).
Proof.
  unfold free_pair, pair_slots_equivalent. intros Hk Hf Hd He Hfp Hdp Hp.
  apply andb_true_iff in Hf as [? ?], Hd as [? ?], He as [? ?].
  apply consecutive_pairs_distinct in Hfp, Hdp.
  split; simpl; auto using NoDup_two_slots.
  repeat constructor; apply slots_equivalent_interval; assumption.
Qed.

(** Goes from a search that returned to the guards its iteration passed. *)
Ltac search_inv :=
  repeat match goal with
    | H : find_first _ _ = Some _ |- _ =>
        apply find_first_Some in H; destruct H as (? & ? & H)
    | H : find_first_st _ _ _ = (Some _, _) |- _ =>
        apply find_first_st_Some in H; destruct H as (? & ? & ? & H)
    | H : (let '(_, _) := ?p in _) = _ |- _ => destruct p
    | H : (if negb ?b then _ else _) = _ |- _ =>
        destruct b eqn:?; cbn [negb] in H; [|discriminate]
    | H : (if ?b then _ else _) = _ |- _ =>
        destruct b eqn:?; cbn [negb] in H; [discriminate|]
    | H : Some _ = Some _ |- _ => injection H as H; subst
    | H : (_, _) = (_, _) |- _ => injection H as H ?; subst
    end.

Lemma lock_theory_slots_sound fds who ftbl dtbl ps d c :
  t_kind who = Theory ->
  lock_theory_slots ftbl dtbl (t_fshift who) (t_dshift who) d = Some c ->
  (ps = Lock \/ ps = Force -> is_division_holiday fds (t_sem who) (t_div who) d = false) ->
  sound_cells fds who ftbl dtbl ps c.
Proof.
  unfold lock_theory_slots. intros Hk H Hp. search_inv.
  apply theory_cells_sound; auto.
Qed.

Lemma lab_dpairs_sound fds who ftbl dtbl ps fday fs1 fs2 dday c :
  t_kind who = Lab ->
  free_pair ftbl fday fs1 fs2 = true ->
  In (fs1, fs2) (consecutive_pairs_for_shift (t_fshift who)) ->
  lab_dpairs dtbl (t_fshift who) (t_dshift who) fday fs1 fs2 dday = Some c ->
  (ps = Lock \/ ps = Force ->
   fday = dday /\ is_division_holiday fds (t_sem who) (t_div who) dday = false) ->
  sound_cells fds who ftbl dtbl ps c.
Proof.
  unfold lab_dpairs. intros Hk Hf Hfp H Hp. search_inv.
  apply lab_cells_sound; auto.
Qed.

Lemma lock_theory_spec fds ftbl dtbl fshift dshift fname sem div subject avoid_dup r :
  call_spec fds (theory_task fshift dshift fname sem div subject) ftbl dtbl true
    (fst (lock_theory fds ftbl dtbl fshift dshift fname sem div subject avoid_dup r)).
Proof.
  unfold lock_theory. set (who := theory_task _ _ _ _ _ _).
  destruct (random_sample_days r) as [days r1].
  destruct (find_first _ days) as [c|] eqn:H1.
  - simpl. apply call_success; [auto|].
    search_inv. eapply (lock_theory_slots_sound fds who); eauto.
  - destruct (random_sample_days r1) as [days2 r2].
    destruct (find_first _ days2) as [c|] eqn:H2; simpl.
    + apply call_success; [auto|].
      search_inv. eapply (lock_theory_slots_sound fds who); eauto.
      intros [|]; discriminate.
    + apply call_failure.
Qed.

Lemma lock_lab_spec fds ftbl dtbl fshift dshift fname sem div subject batch avoid_dup r :
  call_spec fds (lab_task fshift dshift fname sem div subject batch) ftbl dtbl true
    (fst (lock_lab fds ftbl dtbl fshift dshift fname sem div subject batch avoid_dup r)).
Proof.
  unfold lock_lab. set (who := lab_task _ _ _ _ _ _ _).
  destruct (random_sample_days r) as [days r1].
  destruct (find_first _ days) as [c|] eqn:H1.
  - simpl. apply call_success; [auto|].
    unfold lock_lab_pairs in H1. search_inv.
    eapply (lab_dpairs_sound fds who); eauto.
  - destruct (random_sample_days r1) as [days2 r2].
    destruct (find_first_st _ days2 r2) as [[c|] r3] eqn:H2; simpl.
    + apply call_success; [auto|].
      search_inv.
      all: eapply (lab_dpairs_sound fds who); eauto; intros [|]; discriminate.
    + apply call_failure.
Qed.

Lemma force_place_theory_spec fds ftbl dtbl fshift dshift fname sem div subject :
  call_spec fds (theory_task fshift dshift fname sem div subject) ftbl dtbl false
    (force_place_theory fds ftbl dtbl fshift dshift fname sem div subject).
Proof.
  unfold force_place_theory. set (who := theory_task _ _ _ _ _ _).
  destruct (find_first _ DAYS) as [c|] eqn:H1.
  - apply call_success; [auto|]. search_inv.
    apply (theory_cells_sound fds who); auto.
  - destruct (find_first _ DAYS) as [c|] eqn:H2 in |- *.
    + apply call_success; [auto|]. search_inv.
      apply (theory_cells_sound fds who); auto. intros [|]; discriminate.
    + apply call_failure.
Qed.

Lemma force_place_lab_spec fds ftbl dtbl fshift dshift fname sem div subject batch :
  call_spec fds (lab_task fshift dshift fname sem div subject batch) ftbl dtbl false
    (force_place_lab fds ftbl dtbl fshift dshift fname sem div subject batch).
Proof.
  unfold force_place_lab. set (who := lab_task _ _ _ _ _ _ _).
  destruct (find_first _ DAYS) as [c|] eqn:H1.
  - apply call_success; [auto|]. search_inv.
    eapply (lab_dpairs_sound fds who); eauto.
  - destruct (find_first _ DAYS) as [c|] eqn:H2 in |- *.
    + apply call_success; [auto|]. search_inv.
      apply (lab_cells_sound fds who); auto. intros [|]; discriminate.
    + apply call_failure.
Qed.

Lemma success_fields ps who c ftbl dtbl :
  placed (success ps who c ftbl dtbl) = true
  /\ out_event (success ps who c ftbl dtbl) = Success ps who c
  /\ (out_ftbl (success ps who c ftbl dtbl), out_dtbl (success ps who c ftbl dtbl))
     = write_cells who c ftbl dtbl.
Proof. unfold success. destruct (write_cells who c ftbl dtbl). auto. Qed.

(** A call that reports failure hands back the tables it was given. *)
Definition untouched_on_failure (ftbl dtbl : table) (o : outcome) : Prop :=
  placed o = false -> out_ftbl o = ftbl /\ out_dtbl o = dtbl.

Lemma call_spec_untouched fds who ftbl dtbl locking o :
  call_spec fds who ftbl dtbl locking o -> untouched_on_failure ftbl dtbl o.
Proof.
  intros [ps c _ _|] H.
  - rewrite (proj1 (success_fields ps who c ftbl dtbl)) in H. discriminate.
  - auto.
Qed.

(** A call that reports success logs the cells it assigned, and each
    faculty slot denotes the same interval as its division slot. *)
Definition placed_on_equal_intervals (who : task) (ftbl dtbl : table) (o : outcome) : Prop :=
  placed o = true ->
  exists ps c,
    out_event o = Success ps who c
    /\ (out_ftbl o, out_dtbl o) = write_cells who c ftbl dtbl
    /\ Forall (same_interval (t_fshift who) (t_dshift who)) (slot_pairs c).

Lemma call_spec_intervals fds who ftbl dtbl locking o :
  call_spec fds who ftbl dtbl locking o -> placed_on_equal_intervals who ftbl dtbl o.
Proof.
  intros [ps c _ Hc|] H.
  - destruct (success_fields ps who c ftbl dtbl) as (_ & He & Hw).
    exists ps, c. split; [exact He|]. split; [exact Hw|]. apply Hc.
  - discriminate.
Qed.

(** C10. Placement atomicity on failure: when [lock_theory], [lock_lab],
    [force_place_theory] or [force_place_lab] returns [False], the faculty
    table and the division table are the ones it was called with. *)
Theorem placement_atomic_on_failure
    (fds : free_days) (ftbl dtbl : table) (fshift dshift : shift)
    (fname sem div subject batch_label : string) (avoid_dup : bool) (r : rng) :
  untouched_on_failure ftbl dtbl
    (fst (lock_theory fds ftbl dtbl fshift dshift fname sem div subject avoid_dup r))
  /\ untouched_on_failure ftbl dtbl
       (fst (lock_lab fds ftbl dtbl fshift dshift fname sem div subject batch_label
               avoid_dup r))
  /\ untouched_on_failure ftbl dtbl
       (force_place_theory fds ftbl dtbl fshift dshift fname sem div subject)
  /\ untouched_on_failure ftbl dtbl
       (force_place_lab fds ftbl dtbl fshift dshift fname sem div subject batch_label).
Proof.
  split; [|split; [|split]].
  - eapply call_spec_untouched, lock_theory_spec.
  - eapply call_spec_untouched, lock_lab_spec.
  - eapply call_spec_untouched, force_place_theory_spec.
  - eapply call_spec_untouched, force_place_lab_spec.
Qed.

(** C6. Slot equivalence of paired placements: whichever loop of
    [lock_theory], [lock_lab], [force_place_theory] or [force_place_lab]
    places, the faculty slot and the division slot it assigns have the same
    canonical (start, end) pair, for a lab at both positions of the pair. *)
Theorem paired_placements_equivalent
    (fds : free_days) (ftbl dtbl : table) (fshift dshift : shift)
    (fname sem div subject batch_label : string) (avoid_dup : bool) (r : rng) :
  placed_on_equal_intervals (theory_task fshift dshift fname sem div subject) ftbl dtbl
    (fst (lock_theory fds ftbl dtbl fshift dshift fname sem div subject avoid_dup r))
  /\ placed_on_equal_intervals
       (lab_task fshift dshift fname sem div subject batch_label) ftbl dtbl
       (fst (lock_lab fds ftbl dtbl fshift dshift fname sem div subject batch_label
               avoid_dup r))
  /\ placed_on_equal_intervals (theory_task fshift dshift fname sem div subject) ftbl dtbl
       (force_place_theory fds ftbl dtbl fshift dshift fname sem div subject)
  /\ placed_on_equal_intervals
       (lab_task fshift dshift fname sem div subject batch_label) ftbl dtbl
       (force_place_lab fds ftbl dtbl fshift dshift fname sem div subject batch_label).
Proof.
  split; [|split; [|split]].
  - eapply call_spec_intervals, lock_theory_spec.
  - eapply call_spec_intervals, lock_lab_spec.
  - eapply call_spec_intervals, force_place_theory_spec.
  - eapply call_spec_intervals, force_place_lab_spec.
Qed.

(** ** Tables: reading after writing *)

Lemma get_set_cell tbl d s v d' s' :
  get_cell (set_cell tbl d s v) d' s'
  = if decide (d' = d /\ s' = s) then v else get_cell tbl d' s'.
Proof.
  unfold get_cell, set_cell.
  destruct (decide (d' = d)) as [->|Hd].
  - rewrite lookup_insert. destruct (decide (s = s')) as [->|Hs].
    + rewrite decide_True by auto. reflexivity.
    + rewrite decide_False by (intros [_ ?]; congruence). reflexivity.
  - rewrite decide_False by (intros [? _]; congruence). reflexivity.
Qed.

Lemma lookup_foldl_insert (f : string -> string) (l : list string)
    (r : gmap string string) (k : string) :
  foldl (fun r s => <[s := f s]> r) r l !! k
  = if decide (k ∈ l) then Some (f k) else r !! k.
Proof.
  revert r; induction l as [|a l IH]; intros r.
  - destruct (decide (k ∈ [])) as [H|_]; [|reflexivity].
    apply elem_of_nil in H. destruct H.
  - change (foldl (fun r s => <[s := f s]> r) r (a :: l))
      with (foldl (fun r s => <[s := f s]> r) (<[a := f a]> r) l).
    rewrite IH. destruct (decide (k ∈ l)) as [Hin|Hout].
    + destruct (decide (k ∈ a :: l)) as [_|Hn]; [reflexivity|].
      destruct Hn. right. exact Hin.
    + rewrite lookup_insert. destruct (decide (a = k)) as [->|Hne].
      * destruct (decide (k ∈ k :: l)) as [_|Hn]; [reflexivity|].
        destruct Hn. left.
      * destruct (decide (k ∈ a :: l)) as [H|_]; [|reflexivity].
        apply elem_of_cons in H as [->|H]; [congruence|contradiction].
Qed.

Lemma get_cell_empty_table sh d s :
  get_cell (empty_table_for_shift sh) d s
  = if decide (s ∈ SHIFT_SLOTS sh) then (if is_inert s then s else "") else "".
Proof.
  unfold get_cell, empty_table_for_shift, empty_row.
  rewrite (lookup_foldl_insert (fun s => if is_inert s then s else "")).
  destruct (decide (s ∈ SHIFT_SLOTS sh)); reflexivity.
Qed.

(** ** World invariants *)

(** No cell of [t] that holds text is changed in [t']. *)
Definition keeps (t t' : table) : Prop :=
  forall d s, get_cell t d s <> "" -> get_cell t' d s = get_cell t d s.

(** Every cell of [t] is the empty string or holds something that is not
    white space: "not free" and "not empty" are the same thing. *)
Definition tidy (t : table) : Prop :=
  forall d s, PyStrFacts.blank (get_cell t d s) = true -> get_cell t d s = "".

Definition monotone (w w' : world) : Prop :=
  (forall fname, keeps (ftbl_of w fname) (ftbl_of w' fname))
  /\ (forall key, keeps (dtbl_of w key) (dtbl_of w' key)).

Definition tidy_world (w : world) : Prop :=
  (forall fname, tidy (ftbl_of w fname)) /\ (forall key, tidy (dtbl_of w key)).

Lemma keeps_refl t : keeps t t.
Proof. intros d s _. reflexivity. Qed.

Lemma keeps_trans t1 t2 t3 : keeps t1 t2 -> keeps t2 t3 -> keeps t1 t3.
Proof.
  intros H12 H23 d s H. rewrite <- (H12 d s H). apply H23. rewrite (H12 d s H). exact H.
Qed.

Lemma monotone_refl w : monotone w w.
Proof. split; intros; apply keeps_refl. Qed.

Lemma monotone_trans w1 w2 w3 : monotone w1 w2 -> monotone w2 w3 -> monotone w1 w3.
Proof. intros [? ?] [? ?]. split; intros; eapply keeps_trans; eauto. Qed.

Lemma keeps_blank_table t : keeps blank_table t.
Proof. intros d s H. exfalso. apply H. reflexivity. Qed.

Lemma tidy_blank_table : tidy blank_table.
Proof. intros d s _. reflexivity. Qed.

Lemma tidy_empty_table sh : tidy (empty_table_for_shift sh).
Proof.
  intros d s. rewrite get_cell_empty_table.
  destruct (decide (s ∈ SHIFT_SLOTS sh)) as [Hin|]; [|reflexivity].
  destruct (is_inert s) eqn:Hi; [|reflexivity].
  rewrite (cell_text_not_blank s (text_inert sh s Hin Hi)). discriminate.
Qed.

(** Writing a text that is not blank into a free cell. *)
Lemma set_cell_free t d s v :
  tidy t -> free_slot t d s = true -> PyStrFacts.blank v = false ->
  keeps t (set_cell t d s v) /\ tidy (set_cell t d s v).
Proof.
  intros Ht Hfree Hv. rewrite free_slot_blank in Hfree. apply Ht in Hfree.
  split; intros d' s'; rewrite get_set_cell;
    destruct (decide (d' = d /\ s' = s)) as [[-> ->]|]; auto; congruence.
Qed.

Lemma set_cell_twice_free t d s1 v1 s2 v2 :
  tidy t -> free_slot t d s1 = true -> free_slot t d s2 = true ->
  PyStrFacts.blank v1 = false -> PyStrFacts.blank v2 = false ->
  keeps t (set_cell (set_cell t d s1 v1) d s2 v2)
  /\ tidy (set_cell (set_cell t d s1 v1) d s2 v2).
Proof.
  intros Ht H1 H2 Hv1 Hv2. rewrite free_slot_blank in H1, H2.
  apply Ht in H1, H2.
  split; intros d' s'; rewrite !get_set_cell;
    destruct (decide (d' = d /\ s' = s2)) as [[? ?]|];
    destruct (decide (d' = d /\ s' = s1)) as [[? ?]|]; subst; auto; congruence.
Qed.

Ltac placement_text :=
  apply cell_text_not_blank;
  first [apply text_theory_f | apply text_theory_d | apply text_lab_f
        | apply text_lab_d | apply text_merge].

Lemma write_cells_sound fds who ftbl dtbl ps c :
  tidy ftbl -> tidy dtbl -> sound_cells fds who ftbl dtbl ps c ->
  (keeps ftbl (fst (write_cells who c ftbl dtbl))
   /\ tidy (fst (write_cells who c ftbl dtbl)))
  /\ (keeps dtbl (snd (write_cells who c ftbl dtbl))
      /\ tidy (snd (write_cells who c ftbl dtbl))).
Proof.
  intros Hf Hd [_ Hff Hdf _ _ _]. destruct c; simpl in *.
  - apply Forall_cons in Hff as [Hff _], Hdf as [Hdf _]. simpl in *.
    split; apply set_cell_free; auto; placement_text.
  - apply Forall_cons in Hff as [Hf1 Hff], Hdf as [Hd1 Hdf].
    apply Forall_cons in Hff as [Hf2 _], Hdf as [Hd2 _]. simpl in *.
    split; apply set_cell_twice_free; auto; placement_text.
Qed.

Lemma call_spec_tables fds who ftbl dtbl locking o :
  tidy ftbl -> tidy dtbl -> call_spec fds who ftbl dtbl locking o ->
  (keeps ftbl (out_ftbl o) /\ tidy (out_ftbl o))
  /\ (keeps dtbl (out_dtbl o) /\ tidy (out_dtbl o)).
Proof.
  intros Hf Hd [ps c _ Hc|].
  - destruct (success_fields ps who c ftbl dtbl) as (_ & _ & Hw).
    pose proof (write_cells_sound fds who ftbl dtbl ps c Hf Hd Hc) as H.
    rewrite <- Hw in H. exact H.
  - simpl. auto using keeps_refl.
Qed.

(** ** The steps of the scheduling loop *)

Definition add_faculty_table (fname : string) (sh : shift) (w : world) : world :=
  {| ftables := <[fname := empty_table_for_shift sh]> (ftables w);
     dtables := dtables w; gen := gen w; log := log w |}.

(** What the driver does to the stores, one operation at a time: create
    the table of a faculty, make sure a division table exists, run one
    placement call. *)
Inductive engine_step (fds : free_days) : world -> world -> Prop :=
| step_faculty w fname sh :
    ftables w !! fname = None ->
    engine_step fds w (add_faculty_table fname sh w)
| step_ensure w sem div dshift :
    engine_step fds w (ensure fds sem div dshift w)
| step_call w who o r locking :
    call_spec fds who (ftbl_of w (t_faculty who)) (dtbl_of w (t_sem who, t_div who))
      locking o ->
    engine_step fds w (commit who o r w).

Lemma ftbl_of_commit who o r w fname :
  ftbl_of (commit who o r w) fname
  = if decide (fname = t_faculty who) then out_ftbl o else ftbl_of w fname.
Proof.
  unfold ftbl_of, commit; simpl. rewrite lookup_insert.
  destruct (decide (t_faculty who = fname)) as [<-|Hne].
  - rewrite decide_True by reflexivity. reflexivity.
  - rewrite decide_False by congruence. reflexivity.
Qed.

Lemma dtbl_of_commit who o r w key :
  dtbl_of (commit who o r w) key
  = if decide (key = (t_sem who, t_div who) /\ is_Some (dtables w !! key))
    then out_dtbl o else dtbl_of w key.
Proof.
  unfold dtbl_of, commit; simpl. rewrite lookup_alter.
  destruct (decide ((t_sem who, t_div who) = key)) as [<-|Hne].
  - destruct (dtables w !! (t_sem who, t_div who)) as [payload|] eqn:E; simpl.
    + rewrite decide_True by eauto. reflexivity.
    + rewrite decide_False by (intros [_ [? ?]]; discriminate). reflexivity.
  - rewrite decide_False by (intros [? _]; congruence). reflexivity.
Qed.

Lemma tidy_set_cell t d s v :
  tidy t -> PyStrFacts.blank v = false -> tidy (set_cell t d s v).
Proof.
  intros Ht Hv d' s'. rewrite get_set_cell.
  destruct (decide (d' = d /\ s' = s)); [congruence|apply Ht].
Qed.

Lemma foldl_invariant {A B} (P : A -> Prop) (f : A -> B -> A) (l : list B) (a : A) :
  (forall a b, P a -> P (f a b)) -> P a -> P (foldl f a l).
Proof. intros Hf. revert a; induction l as [|b l IH]; simpl; auto. Qed.

Lemma tidy_new_div_table fds sem div div_shift dt :
  dt !! (sem, div) = None ->
  tidy (fst (snd (ensure_div_table fds dt sem div div_shift))).
Proof.
  intros Hnone. unfold ensure_div_table. rewrite Hnone. simpl.
  apply foldl_invariant; [|apply tidy_empty_table].
  intros t hday Ht. apply foldl_invariant; [|exact Ht].
  intros t' slot Ht'. destruct (is_inert slot); [exact Ht'|].
  apply tidy_set_cell; [exact Ht'|]. apply cell_text_not_blank, text_holiday.
Qed.

Lemma ensure_div_table_lookup fds dt sem div div_shift key :
  fst (ensure_div_table fds dt sem div div_shift) !! key
  = match dt !! (sem, div) with
    | Some _ => dt !! key
    | None =>
        if decide (key = (sem, div))
        then Some (div_shift, fst (snd (ensure_div_table fds dt sem div div_shift)))
        else dt !! key
    end.
Proof.
  unfold ensure_div_table. cbv zeta.
  destruct (dt !! (sem, div)) eqn:E; simpl; [reflexivity|].
  rewrite lookup_insert. destruct (decide ((sem, div) = key)) as [<-|Hne].
  - rewrite decide_True by reflexivity. reflexivity.
  - rewrite decide_False by congruence. reflexivity.
Qed.

Lemma ensure_present fds dt sem div div_shift :
  is_Some (fst (ensure_div_table fds dt sem div div_shift) !! (sem, div)).
Proof.
  rewrite ensure_div_table_lookup. destruct (dt !! (sem, div)) eqn:E; [eauto|].
  rewrite decide_True by reflexivity. eauto.
Qed.

Lemma engine_step_invariant fds w w' :
  engine_step fds w w' -> tidy_world w -> tidy_world w' /\ monotone w w'.
Proof.
  intros Hstep [Hf Hd]. destruct Hstep as [w fname sh Hnew|w sem div dshift|w who o r locking Hcall].
  - assert (E : forall n, ftbl_of (add_faculty_table fname sh w) n
                          = if decide (n = fname) then empty_table_for_shift sh
                            else ftbl_of w n).
    { intros n. unfold ftbl_of, add_faculty_table; simpl. rewrite lookup_insert.
      destruct (decide (fname = n)) as [<-|Hne].
      - rewrite decide_True by reflexivity. reflexivity.
      - rewrite decide_False by congruence. reflexivity. }
    split; split; try (intros key; first [apply Hd|apply keeps_refl]).
    + intros n. rewrite E. destruct (decide (n = fname)); [apply tidy_empty_table|apply Hf].
    + intros n. rewrite E. destruct (decide (n = fname)) as [->|]; [|apply keeps_refl].
      unfold ftbl_of. rewrite Hnew. apply keeps_blank_table.
  - assert (E : forall key, dtbl_of (ensure fds sem div dshift w) key
                            = match dtables w !! (sem, div) with
                              | Some _ => dtbl_of w key
                              | None =>
                                  if decide (key = (sem, div))
                                  then fst (snd (ensure_div_table fds (dtables w) sem div dshift))
                                  else dtbl_of w key
                              end).
    { intros key. unfold dtbl_of, ensure, set_dtables; simpl.
      rewrite ensure_div_table_lookup.
      destruct (dtables w !! (sem, div)); [reflexivity|].
      destruct (decide (key = (sem, div))); reflexivity. }
    split; split; try (intros n; first [apply Hf|apply keeps_refl]).
    + intros key. rewrite E. destruct (dtables w !! (sem, div)) eqn:Hk; [apply Hd|].
      destruct (decide (key = (sem, div))); [|apply Hd].
      apply tidy_new_div_table, Hk.
    + intros key. rewrite E. destruct (dtables w !! (sem, div)) eqn:Hk; [apply keeps_refl|].
      destruct (decide (key = (sem, div))) as [->|]; [|apply keeps_refl].
      unfold dtbl_of. rewrite Hk. apply keeps_blank_table.
  - destruct (call_spec_tables _ _ _ _ _ _ (Hf _) (Hd _) Hcall) as [[Hkf Htf] [Hkd Htd]].
    split; split; intros x.
    + rewrite ftbl_of_commit. destruct (decide (x = t_faculty who)); [exact Htf|apply Hf].
    + rewrite dtbl_of_commit. destruct (decide _); [exact Htd|apply Hd].
    + rewrite ftbl_of_commit. destruct (decide (x = t_faculty who)) as [->|];
        [exact Hkf|apply keeps_refl].
    + rewrite dtbl_of_commit. destruct (decide _) as [[-> _]|];
        [exact Hkd|apply keeps_refl].
Qed.

Lemma engine_run_invariant fds w w' :
  rtc (engine_step fds) w w' -> tidy_world w -> tidy_world w' /\ monotone w w'.
Proof.
  induction 1 as [w|w1 w2 w3 Hstep _ IH]; intros Ht.
  - split; [exact Ht|apply monotone_refl].
  - destruct (engine_step_invariant _ _ _ Hstep Ht) as [Ht2 Hm12].
    destruct (IH Ht2) as [Ht3 Hm23]. split; [exact Ht3|].
    eapply monotone_trans; eassumption.
Qed.

(** ** The driver is a sequence of steps *)

Section Loops.
Context {S W A : Type} (R : W -> W -> Prop) (proj : S -> W).

Lemma iter_rtc (f : S -> S) n s :
  (forall s, rtc R (proj s) (proj (f s))) -> rtc R (proj s) (proj (Nat.iter n f s)).
Proof.
  intros Hf. induction n as [|n IH]; simpl; [apply rtc_refl|].
  etrans; [exact IH|apply Hf].
Qed.

Lemma foldl_rtc (f : S -> A -> S) l s :
  (forall s a, rtc R (proj s) (proj (f s a))) -> rtc R (proj s) (proj (foldl f s l)).
Proof.
  intros Hf. revert s; induction l as [|a l IH]; intros s; simpl; [apply rtc_refl|].
  etrans; [apply Hf|apply IH].
Qed.

Lemma for_each_rtc (body : A -> S -> option S) l s s' :
  (forall a s s', body a s = Some s' -> rtc R (proj s) (proj s')) ->
  for_each body l s = Some s' -> rtc R (proj s) (proj s').
Proof.
  intros Hb. revert s; induction l as [|a l IH]; intros s; simpl.
  - intros [= <-]. apply rtc_refl.
  - destruct (body a s) as [s1|] eqn:E; [|discriminate].
    intros H. etrans; [eapply Hb, E|apply IH, H].
Qed.
End Loops.

Lemma lock_step_engine fds who st :
  engine_step fds (fst st) (fst (lock_step fds who st)).
Proof.
  destruct st as [w pending]. unfold lock_step.
  destruct (t_kind who) eqn:Hk.
  - pose proof (lock_theory_spec fds (ftbl_of w (t_faculty who))
                  (dtbl_of w (t_sem who, t_div who)) (t_fshift who) (t_dshift who)
                  (t_faculty who) (t_sem who) (t_div who) (t_subject who) true (gen w)) as H.
    destruct (lock_theory _ _ _ _ _ _ _ _ _ _ _) as [o r]. simpl in *.
    exact (step_call fds w (theory_task _ _ _ _ _ _) o r true H).
  - pose proof (lock_lab_spec fds (ftbl_of w (t_faculty who))
                  (dtbl_of w (t_sem who, t_div who)) (t_fshift who) (t_dshift who)
                  (t_faculty who) (t_sem who) (t_div who) (t_subject who) (t_batch who)
                  true (gen w)) as H.
    destruct (lock_lab _ _ _ _ _ _ _ _ _ _ _ _) as [o r]. simpl in *.
    exact (step_call fds w (lab_task _ _ _ _ _ _ _) o r true H).
Qed.

Lemma force_step_engine fds w who : rtc (engine_step fds) w (force_step fds w who).
Proof.
  unfold force_step.
  eapply rtc_l; [apply (step_ensure fds w (t_sem who) (t_div who) (t_dshift who))|].
  apply rtc_once. set (w1 := ensure _ _ _ _ w).
  destruct (t_kind who) eqn:Hk.
  - exact (step_call fds w1 (theory_task _ _ _ _ _ _) _ (gen w1) false
             (force_place_theory_spec fds _ _ _ _ _ _ _ _)).
  - exact (step_call fds w1 (lab_task _ _ _ _ _ _ _) _ (gen w1) false
             (force_place_lab_spec fds _ _ _ _ _ _ _ _ _)).
Qed.

Lemma theory_entry_rtc fds f entry st :
  rtc (engine_step fds) (fst st) (fst (theory_entry fds f entry st)).
Proof.
  unfold theory_entry.
  etrans; [apply rtc_once, (step_ensure fds (fst st) (Semester entry) (Division entry)
                              (Div_Shift entry))|].
  refine (iter_rtc (engine_step fds) fst _ _ (_, _) _).
  intros s. apply rtc_once, lock_step_engine.
Qed.

Lemma lab_entry_rtc fds f entry st st' :
  lab_entry fds f entry st = Some st' -> rtc (engine_step fds) (fst st) (fst st').
Proof.
  unfold lab_entry.
  destruct (if negb (Batches_Grouped entry) then _ else _) as [batches|]; [|discriminate].
  intros [= <-].
  etrans; [apply rtc_once, (step_ensure fds (fst st) (Semester entry) (Division entry)
                              (Div_Shift entry))|].
  refine (foldl_rtc (engine_step fds) fst _ _ (_, _) _). intros s batch.
  apply (iter_rtc (engine_step fds) fst). intros s0. apply rtc_once, lock_step_engine.
Qed.

Lemma lock_phase_rtc fds f w st :
  lock_phase fds f w = Some st -> rtc (engine_step fds) w (fst st).
Proof.
  unfold lock_phase. set (w1 := match ftables w !! Name f with Some _ => w | None => _ end).
  assert (H1 : rtc (engine_step fds) w w1).
  { subst w1. destruct (ftables w !! Name f) eqn:E; [apply rtc_refl|].
    apply rtc_once. exact (step_faculty fds w (Name f) (Shift f) E). }
  destruct (for_each _ _ (w1, [])) as [st1|] eqn:E; [|discriminate].
  intros [= <-]. etrans; [exact H1|].
  etrans; [exact (for_each_rtc (engine_step fds) fst _ _ _ _
                    (lab_entry_rtc fds f) E)|].
  apply (foldl_rtc (engine_step fds) fst). intros s entry. apply theory_entry_rtc.
Qed.

Lemma assign_subjects_rtc fds f w w' :
  assign_subjects_for_faculty fds f w = Some w' -> rtc (engine_step fds) w w'.
Proof.
  unfold assign_subjects_for_faculty.
  destruct (lock_phase fds f w) as [[w1 pending]|] eqn:E; [|discriminate].
  intros [= <-]. etrans; [exact (lock_phase_rtc _ _ _ _ E)|]. simpl.
  apply (foldl_rtc (engine_step fds) id). intros s who. apply force_step_engine.
Qed.

Lemma assign_all_rtc fds faculties w w' :
  assign_all fds faculties w = Some w' -> rtc (engine_step fds) w w'.
Proof.
  apply (for_each_rtc (engine_step fds) id). intros f s s'. apply assign_subjects_rtc.
Qed.

(** ** What the log of a run records *)

(** A logged placement pairs slots of equal canonical interval. *)
Definition event_ok (e : event) : Prop :=
  match e with
  | Success ps who c =>
      cells_kind c = t_kind who
      /\ Forall (same_interval (t_fshift who) (t_dshift who)) (slot_pairs c)
      /\ NoDup (faculty_cells c) /\ NoDup (division_cells c)
  | _ => True
  end.

Lemma call_spec_event fds who ftbl dtbl locking o :
  call_spec fds who ftbl dtbl locking o -> event_ok (out_event o).
Proof.
  intros [ps c _ Hc|].
  - rewrite (proj1 (proj2 (success_fields ps who c ftbl dtbl))). simpl.
    destruct Hc as [Hk _ _ He Hn _]. auto.
  - destruct locking; exact I.
Qed.

Lemma engine_step_log fds w w' :
  engine_step fds w w' -> Forall event_ok (log w) -> Forall event_ok (log w').
Proof.
  intros [w0 fname sh _|w0 sem div dshift|w0 who o r locking Hcall] H; simpl; auto.
  apply Forall_app. split; [exact H|].
  constructor; [|constructor]. eapply call_spec_event, Hcall.
Qed.

Lemma engine_run_log fds w w' :
  rtc (engine_step fds) w w' -> Forall event_ok (log w) -> Forall event_ok (log w').
Proof. induction 1; eauto using engine_step_log. Qed.

(** ** Canonical intervals of the two shifts *)

Lemma canonical_inv sh label c :
  canonical sh label = Some c ->
  label ∈ SHIFT_SLOTS sh /\ slot_label_to_canonical label = inr c.
Proof.
  unfold canonical, CANONICAL_MAP.
  destruct (list_to_map _ !! label) as [oc|] eqn:E; [|discriminate]. simpl.
  intros ->. apply elem_of_list_to_map_2, list_elem_of_In, in_map_iff in E.
  destruct E as (sl & Heq & Hin). injection Heq as Hl Hc. subst sl.
  split; [apply list_elem_of_In; exact Hin|].
  unfold canon_entry in Hc. destruct (slot_label_to_canonical label); congruence.
Qed.

(** Every slot of the 10-5 shift starts at 10:00 or later. *)
Lemma late_shift_starts start end_ label :
  canonical Shift_10_5 label = Some (start, end_) -> 600 <= start.
Proof.
  intros H. apply canonical_inv in H as [Hin Hc].
  simpl in Hin. set_unfold.
  repeat (destruct Hin as [->|Hin];
          [vm_compute in Hc; injection Hc as <- _; lia|]).
  destruct Hin.
Qed.

(** The canonical start of a slot label is 10:00 or later. *)
Definition late_start (slot : string) : Prop :=
  exists start end_ : nat,
    slot_label_to_canonical slot = inr (start, end_) /\ 600 <= start.

Lemma same_interval_late dshift p :
  same_interval Shift_10_5 dshift p -> late_start (snd p).
Proof.
  intros (start & end_ & Hf & Hd).
  apply late_shift_starts in Hf. apply canonical_inv in Hd as [_ Hd].
  exists start, end_. auto.
Qed.

Lemma event_ok_late ps who c :
  event_ok (Success ps who c) -> t_fshift who = Shift_10_5 ->
  Forall (fun cell => late_start (snd cell)) (division_cells c).
Proof.
  intros (_ & H & _) Hsh. rewrite Hsh in H. destruct c; simpl in *.
  - apply Forall_cons in H as [H _].
    constructor; [|constructor]. exact (same_interval_late _ _ H).
  - apply Forall_cons in H as [H1 H]. apply Forall_cons in H as [H2 _].
    constructor; [|constructor; [|constructor]].
    + exact (same_interval_late _ _ H1).
    + exact (same_interval_late _ _ H2).
Qed.

Lemma main_rtc g fds faculties w :
  main g fds faculties = Some w ->
  rtc (engine_step fds)
    {| ftables := ∅; dtables := apply_free_day_markings_from_inputs fds ∅ faculties;
       gen := random_seed g 7; log := [] |} w.
Proof. apply assign_all_rtc. Qed.

(** C4. Shift-window admissibility: in the log of a run, every placement
    made for a faculty of shift 10-5, by whichever pass (the relaxed force
    pass for labs included), assigns only division slots whose canonical
    start is at least 600; this holds whatever the shift of the division
    grid, in particular for a grid of shift 8-3. *)
Theorem shift_window_admissible
    (g : generator) (fds : free_days) (faculties : list faculty) (w : world)
    (ps : pass) (who : task) (c : cells) :
  main g fds faculties = Some w ->
  Success ps who c ∈ log w ->
  t_fshift who = Shift_10_5 ->
  Forall (fun cell => late_start (snd cell)) (division_cells c).
Proof.
  intros Hrun Hin Hsh. apply main_rtc in Hrun.
  pose proof (engine_run_log _ _ _ Hrun (Forall_nil_2 _)) as Hlog.
  rewrite Forall_forall in Hlog. apply (event_ok_late ps who c); auto.
Qed.

(** ** Worked inputs *)

(** A generator to run the examples with. *)
Definition demo_generator : generator := fun a i => Z.to_nat a + i * 7 + 3.

Definition demo_rng : rng := random_seed demo_generator 7.

Definition demo_theory (sem div : string) (dshift : shift) (subject : string) (n : nat)
  : subject_entry :=
  {| Type_ := Theory; Semester := sem; Division := div; Div_Shift := dshift;
     Subject := subject; Num_Labs := 0; Batches := []; Batches_Grouped := false;
     Theory_Classes := n; Holidays := [] |}.

Definition demo_lab (sem div : string) (dshift : shift) (subject : string) (n : nat)
    (batches : list string) : subject_entry :=
  {| Type_ := Lab; Semester := sem; Division := div; Div_Shift := dshift;
     Subject := subject; Num_Labs := n; Batches := batches; Batches_Grouped := false;
     Theory_Classes := 0; Holidays := [] |}.

(** Every day of Sem 3 Div A is a free day. *)
Definition all_week_free : free_days := [(("3", "A"), DAYS)].

(** The table of Sem 3 Div A, shift 8-3, when every day is a free day. *)
Definition full_division_table : table :=
  fst (snd (ensure_div_table all_week_free ∅ "3" "A" Shift_8_3)).

Definition late_faculty : faculty :=
  {| Name := "MSK"; Shift := Shift_10_5;
     Subjects := [demo_theory "3" "A" Shift_8_3 "Maths" 1] |}.

Definition blank_world : world :=
  {| ftables := ∅; dtables := ∅; gen := demo_rng; log := [] |}.

Definition late_faculty_run : world :=
  default blank_world (main demo_generator [] [late_faculty]).

Definition returned {A} (o : option A) : bool :=
  match o with Some _ => true | None => false end.

Lemma some_default {A} (o : option A) (d : A) : returned o = true -> o = Some (default d o).
Proof. destruct o; [reflexivity|discriminate]. Qed.

Lemma late_faculty_run_returns :
  main demo_generator [] [late_faculty] = Some late_faculty_run.
Proof. apply some_default. vm_compute. reflexivity. Qed.

Lemma shift_window_admissible_witness :
  main demo_generator [] [late_faculty] = Some late_faculty_run
  /\ Forall (fun cell => late_start (snd cell))
       (division_cells (TheoryCells Fri "10:00-11:00" Fri "10:00-11:00")).
Proof.
  pose proof late_faculty_run_returns as Hrun.
  split; [exact Hrun|].
  apply (shift_window_admissible demo_generator [] [late_faculty] late_faculty_run Lock
           (theory_task Shift_10_5 Shift_8_3 "MSK" "3" "A" "Maths")).
  - exact Hrun.
  - apply list_elem_of_In. vm_compute. left. reflexivity.
  - reflexivity.
Defined.

Lemma placement_atomic_on_failure_witness :
  let ftbl := empty_table_for_shift Shift_8_3 in
  let dtbl := full_division_table in
  let o1 := fst (lock_theory all_week_free ftbl dtbl Shift_8_3 Shift_8_3
                   "MSK" "3" "A" "Maths" true demo_rng) in
  let o2 := fst (lock_lab all_week_free ftbl dtbl Shift_8_3 Shift_8_3
                   "MSK" "3" "A" "Maths" "B1" true demo_rng) in
  let o3 := force_place_theory all_week_free ftbl dtbl Shift_8_3 Shift_8_3
              "MSK" "3" "A" "Maths" in
  let o4 := force_place_lab all_week_free ftbl dtbl Shift_8_3 Shift_8_3
              "MSK" "3" "A" "Maths" "B1" in
  (out_ftbl o1 = ftbl /\ out_dtbl o1 = dtbl)
  /\ (out_ftbl o2 = ftbl /\ out_dtbl o2 = dtbl)
  /\ (out_ftbl o3 = ftbl /\ out_dtbl o3 = dtbl)
  /\ (out_ftbl o4 = ftbl /\ out_dtbl o4 = dtbl).
Proof.
  intros ftbl dtbl o1 o2 o3 o4.
  destruct (placement_atomic_on_failure all_week_free ftbl dtbl Shift_8_3 Shift_8_3
              "MSK" "3" "A" "Maths" "B1" true demo_rng) as (H1 & H2 & H3 & H4).
  split; [|split; [|split]].
  - apply H1. vm_compute. reflexivity.
  - apply H2. vm_compute. reflexivity.
  - apply H3. vm_compute. reflexivity.
  - apply H4. vm_compute. reflexivity.
Defined.

Lemma paired_placements_equivalent_witness :
  let ftbl := empty_table_for_shift Shift_10_5 in
  let dtbl := empty_table_for_shift Shift_8_3 in
  let thy := theory_task Shift_10_5 Shift_8_3 "MSK" "3" "A" "Maths" in
  let lab := lab_task Shift_10_5 Shift_8_3 "MSK" "3" "A" "Maths" "B1" in
  (exists ps c,
      out_event (fst (lock_theory [] ftbl dtbl Shift_10_5 Shift_8_3
                        "MSK" "3" "A" "Maths" true demo_rng)) = Success ps thy c
      /\ Forall (same_interval Shift_10_5 Shift_8_3) (slot_pairs c))
  /\ (exists ps c,
        out_event (force_place_lab [] ftbl dtbl Shift_10_5 Shift_8_3
                     "MSK" "3" "A" "Maths" "B1") = Success ps lab c
        /\ Forall (same_interval Shift_10_5 Shift_8_3) (slot_pairs c)).
Proof.
  intros ftbl dtbl thy lab.
  destruct (paired_placements_equivalent [] ftbl dtbl Shift_10_5 Shift_8_3
              "MSK" "3" "A" "Maths" "B1" true demo_rng) as (H1 & _ & _ & H4).
  split.
  - destruct H1 as (ps & c & He & _ & Hc); [vm_compute; reflexivity|].
    exists ps, c. split; [exact He|exact Hc].
  - destruct H4 as (ps & c & He & _ & Hc); [vm_compute; reflexivity|].
    exists ps, c. split; [exact He|exact Hc].
Defined.

(** ** What the free-day pre-marking leaves *)

Lemma set_cell_lookup t d s v d' s' :
  set_cell t d s v d' !! s'
  = if decide (d' = d /\ s' = s) then Some v else t d' !! s'.
Proof.
  unfold set_cell. destruct (decide (d' = d)) as [->|Hd].
  - rewrite lookup_insert. destruct (decide (s = s')) as [->|Hs].
    + rewrite decide_True by auto. reflexivity.
    + rewrite decide_False by (intros [_ ?]; congruence). reflexivity.
  - rewrite decide_False by (intros [? _]; congruence). reflexivity.
Qed.

Lemma foldl_set_cell_lookup t d v keys d' s' :
  foldl (fun tbl slot => set_cell tbl d slot v) t keys d' !! s'
  = if decide (d' = d /\ s' ∈ keys) then Some v else t d' !! s'.
Proof.
  revert t; induction keys as [|k keys IH]; intros t.
  - simpl. destruct (decide _) as [[_ H]|]; [|reflexivity].
    apply elem_of_nil in H. destruct H.
  - change (foldl (fun tbl slot => set_cell tbl d slot v) t (k :: keys))
      with (foldl (fun tbl slot => set_cell tbl d slot v) (set_cell t d k v) keys).
    rewrite IH, set_cell_lookup.
    destruct (decide (d' = d /\ s' ∈ keys)) as [[Hd Hin]|Hn].
    + rewrite decide_True; [reflexivity|]. split; [exact Hd|]. right. exact Hin.
    + destruct (decide (d' = d /\ s' = k)) as [[Hd ->]|Hn'].
      * rewrite decide_True; [reflexivity|]. split; [exact Hd|]. left.
      * rewrite decide_False; [reflexivity|].
        intros [Hd Hin]. apply elem_of_cons in Hin as [->|Hin]; tauto.
Qed.

(** [fill_day] puts [v] in every cell the row of [d] has, and nowhere else. *)
Lemma fill_day_lookup t d v d' s :
  fill_day t d v d' !! s
  = if decide (d' = d) then (fun _ => v) <$> (t d !! s) else t d' !! s.
Proof.
  unfold fill_day. rewrite foldl_set_cell_lookup.
  destruct (decide (d' = d)) as [->|Hd].
  - destruct (t d !! s) as [x|] eqn:E; simpl.
    + rewrite decide_True; [reflexivity|]. split; [reflexivity|].
      apply list_elem_of_fmap. exists (s, x). split; [reflexivity|].
      apply elem_of_map_to_list. exact E.
    + rewrite decide_False; [reflexivity|]. intros [_ Hin].
      apply list_elem_of_fmap in Hin as ([s0 x] & -> & Hin).
      apply elem_of_map_to_list in Hin. simpl in E. congruence.
  - rewrite decide_False by tauto. reflexivity.
Qed.

Lemma tidy_fill_day t d v :
  tidy t -> PyStrFacts.blank v = false -> tidy (fill_day t d v).
Proof.
  intros Ht Hv d' s. unfold get_cell. rewrite fill_day_lookup.
  destruct (decide (d' = d)) as [->|]; [|apply Ht].
  destruct (t d !! s); simpl; [congruence|reflexivity].
Qed.

(** Every division table of the store is tidy. *)
Definition tidy_store (dt : div_tables) : Prop :=
  forall key payload, dt !! key = Some payload -> tidy (snd payload).

Lemma tidy_store_empty : tidy_store ∅.
Proof. intros key payload H. rewrite lookup_empty in H. discriminate. Qed.

Lemma ensure_div_table_result fds dt sem div div_shift :
  fst (ensure_div_table fds dt sem div div_shift) !! (sem, div)
  = Some (snd (snd (ensure_div_table fds dt sem div div_shift)),
          fst (snd (ensure_div_table fds dt sem div div_shift))).
Proof.
  unfold ensure_div_table. cbv zeta.
  destruct (dt !! (sem, div)) as [[sh t]|] eqn:E; simpl; [exact E|].
  apply lookup_insert_eq.
Qed.

Lemma tidy_store_ensure fds dt sem div div_shift :
  tidy_store dt -> tidy_store (fst (ensure_div_table fds dt sem div div_shift)).
Proof.
  intros Hdt key payload. rewrite ensure_div_table_lookup.
  destruct (dt !! (sem, div)) eqn:E; [apply Hdt|].
  destruct (decide (key = (sem, div))); [|apply Hdt].
  intros [= <-]. simpl. apply tidy_new_div_table, E.
Qed.

Lemma tidy_store_mark fds faculties dt item :
  tidy_store dt -> tidy_store (mark_free_days fds faculties dt item).
Proof.
  intros Hdt. destruct item as [[sem div] days]. unfold mark_free_days.
  pose proof (tidy_store_ensure fds dt sem div (div_shift_map faculties (sem, div)) Hdt) as H1.
  pose proof (ensure_div_table_result fds dt sem div (div_shift_map faculties (sem, div))) as H2.
  destruct (ensure_div_table fds dt sem div _) as [dt1 [dtbl sh]]. simpl in *.
  intros key payload. rewrite lookup_insert.
  destruct (decide ((sem, div) = key)); [|apply H1].
  intros [= <-]. simpl. apply foldl_invariant.
  - intros t d Ht. apply tidy_fill_day; [exact Ht|]. apply cell_text_not_blank, text_holiday.
  - exact (H1 _ _ H2).
Qed.

Lemma tidy_store_premarking fds faculties dt :
  tidy_store dt -> tidy_store (apply_free_day_markings_from_inputs fds dt faculties).
Proof.
  intros H. unfold apply_free_day_markings_from_inputs.
  apply foldl_invariant; [|exact H]. intros. apply tidy_store_mark. assumption.
Qed.

(** The world [main] starts the scheduling loop from. *)
Definition after_premarking (g : generator) (fds : free_days) (faculties : list faculty)
  : world :=
  {| ftables := ∅; dtables := apply_free_day_markings_from_inputs fds ∅ faculties;
     gen := random_seed g 7; log := [] |}.

Lemma tidy_after_premarking g fds faculties : tidy_world (after_premarking g fds faculties).
Proof.
  split.
  - intros fname. unfold ftbl_of. simpl. rewrite lookup_empty. apply tidy_blank_table.
  - intros key. unfold dtbl_of. simpl.
    destruct (_ !! key) as [payload|] eqn:E; [|apply tidy_blank_table].
    exact (tidy_store_premarking fds faculties ∅ tidy_store_empty _ _ E).
Qed.

(** ** A worked week *)

(** Saturday is free for Sem 5 Div B; one faculty of shift 8-3 teaches the
    division two theory classes and one lab for each of two batches. *)
Definition saturday_free : free_days := [(("5", "B"), [Sat])].

Definition busy_faculty : faculty :=
  {| Name := "RK"; Shift := Shift_8_3;
     Subjects := [demo_theory "5" "B" Shift_8_3 "OS" 2;
                  demo_lab "5" "B" Shift_8_3 "OS" 1 ["B1"; "B2"]] |}.

Definition busy_run : world :=
  default blank_world (main demo_generator saturday_free [busy_faculty]).

Lemma busy_run_returns :
  main demo_generator saturday_free [busy_faculty] = Some busy_run.
Proof. apply some_default. vm_compute. reflexivity. Qed.

Definition busy_theory : task := theory_task Shift_8_3 Shift_8_3 "RK" "5" "B" "OS".

Definition busy_lab (batch : string) : task :=
  lab_task Shift_8_3 Shift_8_3 "RK" "5" "B" "OS" batch.

Definition first_block (d : day) : cells := LabCells d "8-8:45" "8:45-9:45" d "8-8:45" "8:45-9:45".

Definition first_hour (d : day) : cells := TheoryCells d "8-8:45" d "8-8:45".

(** The labs are locked first, then the theory classes. *)
Lemma busy_run_log :
  log busy_run
  = [Success Lock (busy_lab "B1") (first_block Fri);
     Success Lock (busy_lab "B2") (first_block Wed);
     Success Lock busy_theory (first_hour Tue);
     Success Lock busy_theory (first_hour Thu)].
Proof. vm_compute. reflexivity. Qed.

(** The same week, as the scheduling of the one faculty from the state
    the pre-marking leaves. *)
Definition busy_week : world :=
  default blank_world
    (assign_subjects_for_faculty saturday_free busy_faculty
       (after_premarking demo_generator saturday_free [busy_faculty])).

Lemma busy_week_returns :
  assign_subjects_for_faculty saturday_free busy_faculty
    (after_premarking demo_generator saturday_free [busy_faculty]) = Some busy_week.
Proof. apply some_default. vm_compute. reflexivity. Qed.

(** A second faculty, who teaches the same division after the first. *)
Definition db_faculty : faculty :=
  {| Name := "SM"; Shift := Shift_8_3;
     Subjects := [demo_theory "5" "B" Shift_8_3 "DB" 2] |}.

Definition shared_start : world :=
  after_premarking demo_generator saturday_free [busy_faculty; db_faculty].

(** The state between the two faculties, and the state at the end. *)
Definition shared_half : world :=
  default blank_world (assign_subjects_for_faculty saturday_free busy_faculty shared_start).

Definition shared_run : world :=
  default blank_world (assign_subjects_for_faculty saturday_free db_faculty shared_half).

Lemma shared_half_returns :
  assign_subjects_for_faculty saturday_free busy_faculty shared_start = Some shared_half.
Proof. apply some_default. vm_compute. reflexivity. Qed.

Lemma shared_run_returns :
  assign_subjects_for_faculty saturday_free db_faculty shared_half = Some shared_run.
Proof. apply some_default. vm_compute. reflexivity. Qed.

Lemma shared_main :
  main demo_generator saturday_free [busy_faculty; db_faculty] = Some shared_run.
Proof.
  unfold main, assign_all. cbn [for_each].
  change {| ftables := ∅;
            dtables := apply_free_day_markings_from_inputs saturday_free ∅
                         [busy_faculty; db_faculty];
            gen := random_seed demo_generator 7; log := [] |} with shared_start.
  rewrite shared_half_returns, shared_run_returns. reflexivity.
Qed.

(** ** Free cells of the grids the engine builds *)

(** The world [generate] starts the scheduling loop from. *)
Definition after_setup (g : generator) (faculties : list faculty) : world :=
  let fds := collect_free_days faculties in
  {| ftables := fst (init_tables fds faculties);
     dtables := apply_free_day_markings_from_inputs fds (snd (init_tables fds faculties))
                  faculties;
     gen := random_seed g 7; log := [] |}.

Lemma tidy_init_tables fds faculties :
  (forall fname t, fst (init_tables fds faculties) !! fname = Some t -> tidy t)
  /\ tidy_store (snd (init_tables fds faculties)).
Proof.
  unfold init_tables.
  apply (foldl_invariant
           (fun acc : gmap string table * div_tables =>
              (forall fname t, fst acc !! fname = Some t -> tidy t) /\ tidy_store (snd acc))).
  - intros [ft dt] f [Hf Hd]. simpl. split.
    + destruct (ft !! Name f) eqn:E; [exact Hf|].
      intros fname t. rewrite lookup_insert.
      destruct (decide (Name f = fname)); [|apply Hf].
      intros [= <-]. apply tidy_empty_table.
    + apply foldl_invariant; [|exact Hd]. intros dt0 subj H. apply tidy_store_ensure, H.
  - split; [|apply tidy_store_empty]. intros fname t H. simpl in H.
    rewrite lookup_empty in H. discriminate.
Qed.

Lemma tidy_after_setup g faculties : tidy_world (after_setup g faculties).
Proof.
  destruct (tidy_init_tables (collect_free_days faculties) faculties) as [Hf Hd]. split.
  - intros fname. unfold ftbl_of. simpl.
    destruct (_ !! fname) as [t|] eqn:E; [exact (Hf _ _ E)|apply tidy_blank_table].
  - intros key. unfold dtbl_of. simpl.
    destruct (_ !! key) as [payload|] eqn:E; [|apply tidy_blank_table].
    exact (tidy_store_premarking _ faculties _ Hd _ _ E).
Qed.

(** In this table a cell is free exactly when it is the empty string. *)
Definition free_iff_empty (t : table) : Prop :=
  forall d slot, free_slot t d slot = true <-> get_cell t d slot = "".

Lemma tidy_free_iff_empty t : tidy t -> free_iff_empty t.
Proof.
  intros Ht d slot. rewrite free_slot_blank. split; [apply Ht|].
  intros ->. reflexivity.
Qed.

Lemma tidy_world_free_iff_empty fds w0 w :
  tidy_world w0 -> rtc (engine_step fds) w0 w ->
  (forall fname, free_iff_empty (ftbl_of w fname))
  /\ (forall key, free_iff_empty (dtbl_of w key)).
Proof.
  intros H0 Hsteps. destruct (engine_run_invariant _ _ _ Hsteps H0) as [[Hf Hd] _].
  split; intros x; apply tidy_free_iff_empty; [apply Hf|apply Hd].
Qed.

(** C7. [free_slot] on the grids it is called on.  In every state the
    scheduling loop goes through -- from the state the pre-marking leaves
    in a run of [main], or from the state the request handler sets up,
    over every table creation, lock call and force call -- [free_slot]
    answers [True] for a cell of a faculty grid or of a division grid
    exactly when the cell, read with [get(slot, "")], equals the empty
    string.  And in any grid a cell that holds a break or lunch label, the
    holiday sentinel, ["MERGE"] or a placement text is not free. *)
Theorem free_slot_iff_empty_cell :
  (forall g fds faculties w,
      rtc (engine_step fds) (after_premarking g fds faculties) w ->
      (forall fname, free_iff_empty (ftbl_of w fname))
      /\ (forall key, free_iff_empty (dtbl_of w key)))
  /\ (forall g faculties w,
        rtc (engine_step (collect_free_days faculties)) (after_setup g faculties) w ->
        (forall fname, free_iff_empty (ftbl_of w fname))
        /\ (forall key, free_iff_empty (dtbl_of w key)))
  /\ (forall (tbl : table) d slot v,
        cell_text v -> tbl d !! slot = Some v -> free_slot tbl d slot = false).
Proof.
  split; [|split].
  - intros g fds faculties w.
    apply tidy_world_free_iff_empty, tidy_after_premarking.
  - intros g faculties w. apply tidy_world_free_iff_empty, tidy_after_setup.
  - intros tbl d slot v Hv Hcell. rewrite free_slot_blank.
    unfold get_cell. rewrite Hcell. simpl. apply cell_text_not_blank, Hv.
Qed.

Lemma free_slot_iff_empty_cell_witness :
  get_cell (ftbl_of busy_run "RK") Tue "8-8:45" = theory_text_f "OS" "5" "B"
  /\ free_slot (ftbl_of busy_run "RK") Tue "8-8:45" = false
  /\ get_cell (ftbl_of busy_run "RK") Tue "10:00-11:00" = ""
  /\ free_slot (ftbl_of busy_run "RK") Tue "10:00-11:00" = true
  /\ free_slot (dtbl_of busy_run ("5", "B")) Sat "10:00-11:00" = false.
Proof.
  destruct free_slot_iff_empty_cell as (Hmain & _ & Htext).
  destruct (Hmain demo_generator saturday_free [busy_faculty] busy_run
              (main_rtc _ _ _ _ busy_run_returns)) as [Hf Hd].
  assert (E1 : get_cell (ftbl_of busy_run "RK") Tue "8-8:45" = theory_text_f "OS" "5" "B")
    by (vm_compute; reflexivity).
  assert (E2 : get_cell (ftbl_of busy_run "RK") Tue "10:00-11:00" = "")
    by (vm_compute; reflexivity).
  split; [exact E1|]. split; [|split; [exact E2|split]].
  - destruct (free_slot (ftbl_of busy_run "RK") Tue "8-8:45") eqn:E; [|reflexivity].
    apply Hf in E. rewrite E1 in E. discriminate.
  - apply Hf, E2.
  - apply (Htext _ _ _ (holiday_text "5" "B")); [apply text_holiday|].
    vm_compute. reflexivity.
Defined.

(** The input of the counterexamples: Monday is a free day of Sem 3 Div A,
    which one faculty of shift 8-3 teaches one theory class a week. *)
Definition monday_free : free_days := [(("3", "A"), [Mon])].

Definition morning_faculty : faculty :=
  {| Name := "ABC"; Shift := Shift_8_3;
     Subjects := [demo_theory "3" "A" Shift_8_3 "DSP" 1] |}.

(** The table of Sem 3 Div A as [ensure_div_table] creates it, and as the
    pre-marking leaves it. *)
Definition created_table : table :=
  fst (snd (ensure_div_table monday_free ∅ "3" "A" Shift_8_3)).

Definition premarked_table : table :=
  dtbl_of (after_premarking demo_generator monday_free [morning_faculty]) ("3", "A").

(** C3, counterexample: the table is created with the break label in the
    break cell of Monday, and the pre-marking then replaces that label by
    the holiday sentinel. *)
Lemma premarking_rewrites_break_cell_counterexample :
  ~ (get_cell created_table Mon "9:45-10:00 Short Break" <> ""
     -> get_cell premarked_table Mon "9:45-10:00 Short Break"
        = get_cell created_table Mon "9:45-10:00 Short Break").
Proof.
  intros H. assert (E : get_cell created_table Mon "9:45-10:00 Short Break" <> "").
  { vm_compute. discriminate. }
  specialize (H E). vm_compute in H. discriminate.
Qed.

(** C3 (amended). Cell monotonicity of the lock and force passes: from the
    state the free-day pre-marking leaves, the run is a sequence of steps
    (table creation, lock calls, force calls); between any two states of
    such a sequence every cell that holds a non-empty string keeps it; and
    the cells one call assigns in a table are pairwise different, so that
    no call rewrites a cell it has just written.  The pre-marking itself is
    not covered: it replaces the break and lunch labels of a free day by
    the holiday sentinel. *)
Theorem lock_and_force_keep_cells
    (g : generator) (fds : free_days) (faculties : list faculty) (w : world) :
  main g fds faculties = Some w ->
  rtc (engine_step fds) (after_premarking g fds faculties) w
  /\ (forall w1 w2,
        rtc (engine_step fds) (after_premarking g fds faculties) w1 ->
        rtc (engine_step fds) w1 w2 ->
        monotone w1 w2)
  /\ (forall ps who c,
        Success ps who c ∈ log w ->
        NoDup (faculty_cells c) /\ NoDup (division_cells c)).
Proof.
  intros Hrun. apply main_rtc in Hrun. split; [exact Hrun|]. split.
  - intros w1 w2 H01 H12.
    destruct (engine_run_invariant _ _ _ H01 (tidy_after_premarking g fds faculties))
      as [Ht1 _].
    exact (proj2 (engine_run_invariant _ _ _ H12 Ht1)).
  - intros ps who c Hin.
    pose proof (engine_run_log _ _ _ Hrun (Forall_nil_2 _)) as Hlog.
    rewrite Forall_forall in Hlog. apply (Hlog _ Hin).
Qed.

Lemma lock_and_force_keep_cells_witness :
  main demo_generator saturday_free [busy_faculty; db_faculty] = Some shared_run
  /\ get_cell (dtbl_of shared_half ("5", "B")) Tue "8-8:45" = theory_text_d "OS" "RK"
  /\ get_cell (dtbl_of shared_run ("5", "B")) Tue "8-8:45" = theory_text_d "OS" "RK"
  /\ get_cell (dtbl_of shared_run ("5", "B")) Sat "8-8:45" = holiday_text "5" "B"
  /\ length (log shared_half) < length (log shared_run)
  /\ monotone shared_start shared_run.
Proof.
  pose proof shared_main as Hrun.
  destruct (lock_and_force_keep_cells demo_generator saturday_free
              [busy_faculty; db_faculty] shared_run Hrun) as (Hsteps & Hkeep & _).
  assert (H01 : rtc (engine_step saturday_free) shared_start shared_half)
    by exact (assign_subjects_rtc _ _ _ _ shared_half_returns).
  assert (H12 : rtc (engine_step saturday_free) shared_half shared_run)
    by exact (assign_subjects_rtc _ _ _ _ shared_run_returns).
  assert (E1 : get_cell (dtbl_of shared_half ("5", "B")) Tue "8-8:45"
               = theory_text_d "OS" "RK") by (vm_compute; reflexivity).
  assert (E0 : get_cell (dtbl_of shared_start ("5", "B")) Sat "8-8:45"
               = holiday_text "5" "B") by (vm_compute; reflexivity).
  split; [exact Hrun|]. split; [exact E1|]. split; [|split; [|split]].
  - rewrite <- E1. apply (proj2 (Hkeep shared_half shared_run H01 H12)).
    rewrite E1. discriminate.
  - rewrite <- E0. apply (proj2 (Hkeep shared_start shared_run (rtc_refl _ _) Hsteps)).
    rewrite E0. discriminate.
  - vm_compute. lia.
  - exact (Hkeep shared_start shared_run (rtc_refl _ _) Hsteps).
Defined.

(** Every table of the store has a cell for every slot of its shift. *)
Definition complete_store (dt : div_tables) : Prop :=
  forall key sh (t : table), dt !! key = Some (sh, t) ->
    forall d slot, slot ∈ SHIFT_SLOTS sh -> is_Some (t d !! slot).

(** Every cell the row of [d] holds in the table of [key] is the holiday
    sentinel of [key]. *)
Definition day_filled (key : string * string) (d : day) (dt : div_tables) : Prop :=
  exists sh (t : table), dt !! key = Some (sh, t)
    /\ forall slot x, t d !! slot = Some x -> x = holiday_text (fst key) (snd key).

Lemma foldl_fill_day_lookup v days t d s :
  foldl (fun t d0 => fill_day t d0 v) t days d !! s
  = if decide (d ∈ days) then (fun _ => v) <$> (t d !! s) else t d !! s.
Proof.
  revert t; induction days as [|a days IH]; intros t.
  - simpl. destruct (decide (d ∈ [])) as [H|]; [|reflexivity].
    apply elem_of_nil in H. destruct H.
  - change (foldl (fun t d0 => fill_day t d0 v) t (a :: days))
      with (foldl (fun t d0 => fill_day t d0 v) (fill_day t a v) days).
    rewrite IH, fill_day_lookup.
    destruct (decide (d ∈ a :: days)) as [Hin'|Hout'];
      destruct (decide (d ∈ days)) as [Hin|Hout];
      destruct (decide (d = a)) as [->|Hne]; try reflexivity.
    + destruct (t a !! s); reflexivity.
    + apply elem_of_cons in Hin' as [?|?]; tauto.
    + destruct Hout'. right. exact Hin.
    + destruct Hout'. right. exact Hin.
    + destruct Hout'. left.
Qed.

Lemma complete_new_div_table fds dt sem div div_shift d slot :
  slot ∈ SHIFT_SLOTS div_shift ->
  dt !! (sem, div) = None ->
  is_Some (fst (snd (ensure_div_table fds dt sem div div_shift)) d !! slot).
Proof.
  intros Hin Hnone. unfold ensure_div_table. rewrite Hnone. simpl.
  apply (foldl_invariant (fun t : table => is_Some (t d !! slot))).
  - intros t hday Ht.
    apply (foldl_invariant (fun t : table => is_Some (t d !! slot))); [|exact Ht].
    intros t' s Ht'. destruct (is_inert s); [exact Ht'|].
    rewrite set_cell_lookup. destruct (decide _); [eauto|exact Ht'].
  - unfold empty_table_for_shift, empty_row.
    rewrite (lookup_foldl_insert (fun s => if is_inert s then s else "")).
    rewrite decide_True by exact Hin. eauto.
Qed.

Lemma complete_store_mark fds faculties dt item :
  complete_store dt -> complete_store (mark_free_days fds faculties dt item).
Proof.
  intros Hdt. destruct item as [[sem div] days]. unfold mark_free_days.
  set (dsh := div_shift_map faculties (sem, div)).
  pose proof (ensure_div_table_lookup fds dt sem div dsh) as Hl.
  pose proof (ensure_div_table_result fds dt sem div dsh) as Hr.
  pose proof (complete_new_div_table fds dt sem div dsh) as Hn.
  assert (Hsh : dt !! (sem, div) = None ->
                snd (snd (ensure_div_table fds dt sem div dsh)) = dsh).
  { intros E. unfold ensure_div_table. rewrite E. reflexivity. }
  destruct (ensure_div_table fds dt sem div dsh) as [dt1 [dtbl sh]]. simpl in *.
  intros key sh' t. rewrite lookup_insert.
  destruct (decide ((sem, div) = key)) as [<-|Hne].
  - intros [= <- <-] d slot Hin. rewrite foldl_fill_day_lookup.
    assert (Hs : is_Some (dtbl d !! slot)).
    { destruct (dt !! (sem, div)) as [[sh0 t0]|] eqn:E.
      - rewrite Hl, E in Hr. injection Hr as ? ?; subst. eapply Hdt; eauto.
      - rewrite (Hsh eq_refl) in Hin. apply Hn; auto. }
    destruct Hs as [x Hx]. rewrite Hx. destruct (decide _); simpl; eauto.
  - rewrite Hl. destruct (dt !! (sem, div)); [apply Hdt|].
    rewrite decide_False by congruence. apply Hdt.
Qed.

Lemma day_filled_mark fds faculties dt item key d :
  day_filled key d dt -> day_filled key d (mark_free_days fds faculties dt item).
Proof.
  intros (sh & t & Hk & Hfill). destruct item as [[sem div] days]. unfold mark_free_days.
  set (dsh := div_shift_map faculties (sem, div)).
  pose proof (ensure_div_table_lookup fds dt sem div dsh) as Hl.
  pose proof (ensure_div_table_result fds dt sem div dsh) as Hr.
  destruct (ensure_div_table fds dt sem div dsh) as [dt1 [dtbl sh1]]. simpl in *.
  unfold day_filled. rewrite lookup_insert.
  destruct (decide ((sem, div) = key)) as [<-|Hne].
  - rewrite Hl, Hk in Hr. injection Hr as <- <-.
    eexists _, _. split; [reflexivity|]. intros slot x.
    rewrite foldl_fill_day_lookup. simpl.
    destruct (decide (d ∈ days)); [|apply Hfill].
    destruct (t d !! slot); simpl; [congruence|discriminate].
  - exists sh, t. split; [|exact Hfill].
    rewrite Hl. destruct (dt !! (sem, div)); [exact Hk|].
    rewrite decide_False by congruence. exact Hk.
Qed.

Lemma day_filled_marked fds faculties dt sem div days d :
  d ∈ days -> day_filled (sem, div) d (mark_free_days fds faculties dt ((sem, div), days)).
Proof.
  intros Hin. unfold mark_free_days.
  destruct (ensure_div_table fds dt sem div _) as [dt1 [dtbl sh1]].
  unfold day_filled. rewrite lookup_insert_eq.
  eexists _, _. split; [reflexivity|]. intros slot x.
  rewrite foldl_fill_day_lookup, decide_True by exact Hin. simpl.
  destruct (dtbl d !! slot); simpl; [congruence|discriminate].
Qed.

Lemma day_filled_premarking fds0 faculties l dt key days d :
  (key, days) ∈ l -> d ∈ days ->
  day_filled key d (foldl (mark_free_days fds0 faculties) dt l).
Proof.
  revert dt; induction l as [|item l IH]; intros dt Hin Hd.
  - apply elem_of_nil in Hin. destruct Hin.
  - simpl. apply elem_of_cons in Hin as [<-|Hin]; [|apply IH; assumption].
    apply foldl_invariant.
    + intros. apply day_filled_mark. assumption.
    + destruct key as [sem div]. apply day_filled_marked, Hd.
Qed.

Lemma complete_store_premarking fds faculties :
  complete_store (apply_free_day_markings_from_inputs fds ∅ faculties).
Proof.
  unfold apply_free_day_markings_from_inputs. apply foldl_invariant.
  - intros. apply complete_store_mark. assumption.
  - intros key sh t H. rewrite lookup_empty in H. discriminate.
Qed.

(** The claim of the specification, as it is worded: on a selected day the
    teaching cells hold the sentinel and the inert cells keep their label. *)
Definition premarking_spares_inert_cells : Prop :=
  forall fds faculties sem div days d,
    ((sem, div), days) ∈ fds -> d ∈ days ->
    exists sh (t : table),
      apply_free_day_markings_from_inputs fds ∅ faculties !! (sem, div) = Some (sh, t)
      /\ forall slot, slot ∈ SHIFT_SLOTS sh ->
           get_cell t d slot = if is_inert slot then slot else holiday_text sem div.

(** C2, counterexample: with Monday a free day of Sem 3 Div A, the short
    break cell of Monday holds the sentinel after the pre-marking. *)
Lemma premarking_overwrites_inert_counterexample : ~ premarking_spares_inert_cells.
Proof.
  intros H.
  destruct (H monday_free [morning_faculty] "3" "A" [Mon] Mon) as (sh & t & Ht & Hc).
  - left.
  - left.
  - assert (E : get_cell premarked_table Mon "9:45-10:00 Short Break"
                = holiday_text "3" "A") by (vm_compute; reflexivity).
    unfold premarked_table, dtbl_of, after_premarking in E. simpl dtables in E.
    rewrite Ht in E. simpl in E.
    assert (Hsh : sh = Shift_8_3).
    { assert (E2 : fst <$> apply_free_day_markings_from_inputs monday_free ∅
                               [morning_faculty] !! ("3", "A") = Some Shift_8_3)
        by (vm_compute; reflexivity).
      rewrite Ht in E2. simpl in E2. congruence. }
    subst sh. rewrite (Hc "9:45-10:00 Short Break") in E.
    + vm_compute in E. discriminate.
    + vm_compute. apply list_elem_of_In. vm_compute. tauto.
Qed.

(** C2 (amended). For every [(sem, div)] entry of FreeDaySettings and every
    selected day, the free-day pre-marking leaves the holiday sentinel in
    every slot of that day in the division grid, the break and lunch slots
    included. *)
Theorem premarking_fills_whole_day
    (fds : free_days) (faculties : list faculty) (sem div : string)
    (days : list day) (d : day) :
  ((sem, div), days) ∈ fds -> d ∈ days ->
  exists sh (t : table),
    apply_free_day_markings_from_inputs fds ∅ faculties !! (sem, div) = Some (sh, t)
    /\ forall slot, slot ∈ SHIFT_SLOTS sh -> t d !! slot = Some (holiday_text sem div).
Proof.
  intros Hin Hd.
  destruct (day_filled_premarking fds faculties fds ∅ (sem, div) days d Hin Hd)
    as (sh & t & Hk & Hfill).
  exists sh, t. split; [exact Hk|]. intros slot Hs.
  destruct (complete_store_premarking fds faculties _ _ _ Hk d slot Hs) as [x Hx].
  rewrite Hx. f_equal. exact (Hfill _ _ Hx).
Qed.

Lemma premarking_fills_whole_day_witness :
  exists sh (t : table),
    apply_free_day_markings_from_inputs monday_free ∅ [morning_faculty] !! ("3", "A")
    = Some (sh, t)
    /\ forall slot, slot ∈ SHIFT_SLOTS sh -> t Mon !! slot = Some (holiday_text "3" "A").
Proof.
  apply (premarking_fills_whole_day monday_free [morning_faculty] "3" "A" [Mon] Mon).
  - left.
  - left.
Defined.

(** ** Order of the lock and force calls *)

Definition is_try_fail (e : event) : bool :=
  match e with TryFail _ => true | _ => false end.

(** The record of a lock call made for faculty [fname]. *)
Definition lock_event (fname : string) (e : event) : Prop :=
  match e with
  | Success ps who _ => (ps = Lock \/ ps = LockFallback) /\ t_faculty who = fname
  | TryFail who => t_faculty who = fname
  | FailedForce _ => False
  end.

(** The record of a force call made for faculty [fname]. *)
Definition force_event (fname : string) (e : event) : Prop :=
  match e with
  | Success ps who _ => (ps = Force \/ ps = ForceRelax) /\ t_faculty who = fname
  | FailedForce who => t_faculty who = fname
  | TryFail _ => False
  end.

Definition try_fails (evs : list event) : nat := length (List.filter is_try_fail evs).

Lemma try_fails_app a b : try_fails (a ++ b) = try_fails a + try_fails b.
Proof. unfold try_fails. rewrite List.filter_app, length_app. reflexivity. Qed.

Lemma call_spec_lock_event fds who ftbl dtbl o :
  call_spec fds who ftbl dtbl true o ->
  lock_event (t_faculty who) (out_event o)
  /\ placed o = negb (is_try_fail (out_event o)).
Proof.
  intros [ps c Hps _|].
  - destruct (success_fields ps who c ftbl dtbl) as (-> & -> & _). simpl. auto.
  - simpl. auto.
Qed.

Lemma call_spec_force_event fds who ftbl dtbl o :
  call_spec fds who ftbl dtbl false o -> force_event (t_faculty who) (out_event o).
Proof.
  intros [ps c Hps _|].
  - destruct (success_fields ps who c ftbl dtbl) as (_ & -> & _). simpl. auto.
  - simpl. auto.
Qed.

(** The obligation instance a record is about. *)
Definition event_task (e : event) : task :=
  match e with
  | Success _ who _ => who
  | TryFail who => who
  | FailedForce who => who
  end.

(** The instances whose lock call failed, in the order of the calls. *)
Definition failed_tasks (evs : list event) : list task :=
  omap (fun e => match e with TryFail who => Some who | _ => None end) evs.

(** The batches the driver loops over: [entry["Batches"]], or its first
    element alone when the batches are grouped. *)
Definition entry_batches (e : subject_entry) : list string :=
  if negb (Batches_Grouped e) then Batches e else take 1 (Batches e).

(** The lock calls the driver makes for one entry, in order. *)
Definition lab_calls (f : faculty) (e : subject_entry) : list task :=
  concat
    (map
       (fun batch =>
          replicate (Num_Labs e)
            (lab_task (Shift f) (Div_Shift e) (Name f) (Semester e) (Division e)
               (Subject e) batch))
       (entry_batches e)).

Definition theory_calls (f : faculty) (e : subject_entry) : list task :=
  replicate (Theory_Classes e)
    (theory_task (Shift f) (Div_Shift e) (Name f) (Semester e) (Division e) (Subject e)).

(** The lock passes of one faculty: every lab entry first, then every
    theory entry, each in the order of [Subjects]. *)
Definition lock_tasks (f : faculty) : list task :=
  concat (map (lab_calls f) (List.filter (is_kind Lab) (Subjects f)))
  ++ concat (map (theory_calls f) (List.filter (is_kind Theory) (Subjects f))).

(** The instance as the placement functions rebuild it from its fields;
    the instances the driver makes are of this form. *)
Definition canon_task (who : task) : task :=
  match t_kind who with
  | Theory =>
      theory_task (t_fshift who) (t_dshift who) (t_faculty who) (t_sem who) (t_div who)
        (t_subject who)
  | Lab =>
      lab_task (t_fshift who) (t_dshift who) (t_faculty who) (t_sem who) (t_div who)
        (t_subject who) (t_batch who)
  end.

Definition driver_task (who : task) : Prop := canon_task who = who.

Lemma failed_tasks_app a b : failed_tasks (a ++ b) = failed_tasks a ++ failed_tasks b.
Proof. apply omap_app. Qed.

Lemma failed_tasks_length evs : length (failed_tasks evs) = try_fails evs.
Proof.
  unfold try_fails. induction evs as [|e evs IH]; [reflexivity|].
  destruct e; simpl; rewrite <- IH; reflexivity.
Qed.

Lemma failed_tasks_faculty fname evs :
  Forall (lock_event fname) evs -> Forall (fun t => t_faculty t = fname) (failed_tasks evs).
Proof.
  induction 1 as [|e evs He _ IH]; [constructor|].
  destruct e; simpl; [exact IH|constructor; assumption|exact IH].
Qed.

Lemma failed_tasks_of evs (P : task -> Prop) :
  Forall P (map event_task evs) -> Forall P (failed_tasks evs).
Proof.
  induction evs as [|e evs IH]; simpl; [constructor|].
  intros H. apply Forall_cons in H as [He H].
  destruct e; simpl; auto.
Qed.

Lemma call_spec_task fds who ftbl dtbl locking o :
  call_spec fds who ftbl dtbl locking o -> event_task (out_event o) = who.
Proof.
  intros [ps c _ _|].
  - destruct (success_fields ps who c ftbl dtbl) as (_ & -> & _). reflexivity.
  - destruct locking; reflexivity.
Qed.

Lemma lock_tasks_driver f : Forall driver_task (lock_tasks f).
Proof.
  unfold lock_tasks. apply Forall_app. split.
  - induction (List.filter (is_kind Lab) (Subjects f)) as [|e l IH]; simpl; [constructor|].
    apply Forall_app. split; [|exact IH]. unfold lab_calls.
    induction (entry_batches e) as [|batch batches IHb]; simpl; [constructor|].
    apply Forall_app. split; [|exact IHb].
    apply Forall_forall. intros who Hwho. apply elem_of_replicate in Hwho as [-> _].
    reflexivity.
  - induction (List.filter (is_kind Theory) (Subjects f)) as [|e l IH]; simpl; [constructor|].
    apply Forall_app. split; [|exact IH]. unfold theory_calls.
    apply Forall_forall. intros who Hwho. apply elem_of_replicate in Hwho as [-> _].
    reflexivity.
Qed.

(** A stretch of lock calls of faculty [fname]: it makes the calls
    [tasks], in this order, appends one lock record per call to the log and
    queues the instances whose call failed. *)
Definition lock_run (fname : string) (tasks : list task) (st st' : world * list task)
  : Prop :=
  exists evs,
    log (fst st') = log (fst st) ++ evs
    /\ map event_task evs = tasks
    /\ Forall (lock_event fname) evs
    /\ snd st' = snd st ++ failed_tasks evs.

Lemma lock_run_nil fname st st' :
  log (fst st') = log (fst st) -> snd st' = snd st -> lock_run fname [] st st'.
Proof. intros Hl Hp. exists []. rewrite Hl, Hp, !app_nil_r. auto. Qed.

Lemma lock_run_app fname t1 t2 a b c :
  lock_run fname t1 a b -> lock_run fname t2 b c -> lock_run fname (t1 ++ t2) a c.
Proof.
  intros (e1 & L1 & M1 & F1 & P1) (e2 & L2 & M2 & F2 & P2).
  exists (e1 ++ e2).
  rewrite L2, L1, P2, P1, map_app, M1, M2, failed_tasks_app, !app_assoc.
  auto using Forall_app_2.
Qed.

Lemma lock_step_run fds who st :
  driver_task who -> lock_run (t_faculty who) [who] st (lock_step fds who st).
Proof.
  intros Hdriver. unfold driver_task, canon_task in Hdriver.
  destruct st as [w pending]. unfold lock_step.
  assert (H : exists o r,
             (match t_kind who with
              | Theory => lock_theory fds (ftbl_of w (t_faculty who))
                            (dtbl_of w (t_sem who, t_div who)) (t_fshift who) (t_dshift who)
                            (t_faculty who) (t_sem who) (t_div who) (t_subject who) true (gen w)
              | Lab => lock_lab fds (ftbl_of w (t_faculty who))
                         (dtbl_of w (t_sem who, t_div who)) (t_fshift who) (t_dshift who)
                         (t_faculty who) (t_sem who) (t_div who) (t_subject who)
                         (t_batch who) true (gen w)
              end) = (o, r)
             /\ lock_event (t_faculty who) (out_event o)
             /\ placed o = negb (is_try_fail (out_event o))
             /\ event_task (out_event o) = who).
  { destruct (t_kind who).
    - pose proof (lock_theory_spec fds (ftbl_of w (t_faculty who))
                    (dtbl_of w (t_sem who, t_div who)) (t_fshift who) (t_dshift who)
                    (t_faculty who) (t_sem who) (t_div who) (t_subject who) true (gen w)) as H.
      destruct (lock_theory _ _ _ _ _ _ _ _ _ _ _) as [o r].
      exists o, r. split; [reflexivity|].
      destruct (call_spec_lock_event _ _ _ _ _ H) as [H1 H2].
      pose proof (call_spec_task _ _ _ _ _ _ H) as H3. simpl in H1, H2, H3.
      rewrite Hdriver in H3. auto.
    - pose proof (lock_lab_spec fds (ftbl_of w (t_faculty who))
                    (dtbl_of w (t_sem who, t_div who)) (t_fshift who) (t_dshift who)
                    (t_faculty who) (t_sem who) (t_div who) (t_subject who) (t_batch who)
                    true (gen w)) as H.
      destruct (lock_lab _ _ _ _ _ _ _ _ _ _ _ _) as [o r].
      exists o, r. split; [reflexivity|].
      destruct (call_spec_lock_event _ _ _ _ _ H) as [H1 H2].
      pose proof (call_spec_task _ _ _ _ _ _ H) as H3. simpl in H1, H2, H3.
      rewrite Hdriver in H3. auto. }
  destruct H as (o & r & -> & He & Hp & Hwho).
  exists [out_event o]. simpl.
  split; [reflexivity|]. split; [rewrite Hwho; reflexivity|].
  split; [repeat constructor; exact He|].
  rewrite Hp. destruct (out_event o); simpl in *; rewrite ?app_nil_r; congruence.
Qed.

Lemma replicate_snoc {A} n (x : A) : replicate n x ++ [x] = x :: replicate n x.
Proof. induction n as [|n IH]; simpl; [reflexivity|]. rewrite IH. reflexivity. Qed.

Lemma lock_iter_run fds who n st :
  driver_task who ->
  lock_run (t_faculty who) (replicate n who) st (Nat.iter n (lock_step fds who) st).
Proof.
  intros Hdriver. induction n as [|n IH]; [apply lock_run_nil; reflexivity|].
  change (replicate (S n) who) with (who :: replicate n who).
  rewrite <- replicate_snoc. simpl Nat.iter.
  eapply lock_run_app; [exact IH|apply lock_step_run, Hdriver].
Qed.

Lemma ensure_run fname fds sem div dshift st :
  lock_run fname [] st (ensure fds sem div dshift (fst st), snd st).
Proof. apply lock_run_nil; reflexivity. Qed.

Lemma lab_entry_run fds f e st st' :
  lab_entry fds f e st = Some st' -> lock_run (Name f) (lab_calls f e) st st'.
Proof.
  unfold lab_entry, lab_calls, entry_batches.
  set (task_of := fun batch =>
         lab_task (Shift f) (Div_Shift e) (Name f) (Semester e) (Division e) (Subject e)
           batch).
  assert (Hloop : forall batches s,
             lock_run (Name f)
               (concat (map (fun batch => replicate (Num_Labs e) (task_of batch)) batches)) s
               (foldl (fun st batch => Nat.iter (Num_Labs e) (lock_step fds (task_of batch)) st)
                  s batches)).
  { induction batches as [|batch batches IH]; intros s; simpl.
    - apply lock_run_nil; reflexivity.
    - eapply lock_run_app; [|apply IH].
      apply (lock_iter_run fds (task_of batch)). reflexivity. }
  destruct (Batches_Grouped e); simpl.
  - destruct (Batches e) as [|batch batches]; [discriminate|]. simpl take.
    intros [= <-]. eapply (lock_run_app _ []); [apply ensure_run|]. apply (Hloop [batch]).
  - intros [= <-]. eapply (lock_run_app _ []); [apply ensure_run|]. apply Hloop.
Qed.

Lemma theory_entry_run fds f e st :
  lock_run (Name f) (theory_calls f e) st (theory_entry fds f e st).
Proof.
  unfold theory_entry, theory_calls.
  eapply (lock_run_app _ []); [apply ensure_run|].
  apply (lock_iter_run fds (theory_task _ _ _ _ _ _)). reflexivity.
Qed.

Lemma lock_phase_run fds f w st :
  lock_phase fds f w = Some st -> lock_run (Name f) (lock_tasks f) (w, []) st.
Proof.
  unfold lock_phase, lock_tasks.
  set (w1 := match ftables w !! Name f with Some _ => w | None => _ end).
  assert (H1 : lock_run (Name f) [] (w, []) (w1, [])).
  { apply lock_run_nil; [|reflexivity]. subst w1. destruct (ftables w !! Name f); reflexivity. }
  destruct (for_each _ _ (w1, [])) as [st1|] eqn:E; [|discriminate].
  intros [= <-]. eapply (lock_run_app _ []); [exact H1|].
  eapply lock_run_app.
  - clear H1. revert E. generalize (w1, @nil task).
    induction (List.filter (is_kind Lab) (Subjects f)) as [|e l IH]; intros s; simpl.
    + intros [= <-]. apply lock_run_nil; reflexivity.
    + destruct (lab_entry fds f e s) as [s1|] eqn:E1; [|discriminate].
      intros E. eapply lock_run_app; [exact (lab_entry_run _ _ _ _ _ E1)|exact (IH _ E)].
  - generalize st1.
    induction (List.filter (is_kind Theory) (Subjects f)) as [|e l IH]; intros s; simpl.
    + apply lock_run_nil; reflexivity.
    + eapply lock_run_app; [apply theory_entry_run|apply IH].
Qed.

Lemma force_step_record fds w who :
  driver_task who ->
  exists e, log (force_step fds w who) = log w ++ [e]
            /\ force_event (t_faculty who) e /\ event_task e = who.
Proof.
  intros Hdriver. unfold driver_task, canon_task in Hdriver.
  unfold force_step. eexists. split; [reflexivity|].
  destruct (t_kind who).
  - pose proof (force_place_theory_spec fds
                  (ftbl_of (ensure fds (t_sem who) (t_div who) (t_dshift who) w) (t_faculty who))
                  (dtbl_of (ensure fds (t_sem who) (t_div who) (t_dshift who) w)
                     (t_sem who, t_div who))
                  (t_fshift who) (t_dshift who) (t_faculty who) (t_sem who) (t_div who)
                  (t_subject who)) as H.
    split; [exact (call_spec_force_event _ _ _ _ _ H)|].
    rewrite (call_spec_task _ _ _ _ _ _ H). exact Hdriver.
  - pose proof (force_place_lab_spec fds
                  (ftbl_of (ensure fds (t_sem who) (t_div who) (t_dshift who) w) (t_faculty who))
                  (dtbl_of (ensure fds (t_sem who) (t_div who) (t_dshift who) w)
                     (t_sem who, t_div who))
                  (t_fshift who) (t_dshift who) (t_faculty who) (t_sem who) (t_div who)
                  (t_subject who) (t_batch who)) as H.
    split; [exact (call_spec_force_event _ _ _ _ _ H)|].
    rewrite (call_spec_task _ _ _ _ _ _ H). exact Hdriver.
Qed.

Lemma force_phase_records fds fname pending w :
  Forall (fun t => t_faculty t = fname) pending ->
  Forall driver_task pending ->
  exists evs,
    log (foldl (force_step fds) w pending) = log w ++ evs
    /\ map event_task evs = pending
    /\ Forall (force_event fname) evs.
Proof.
  revert w; induction pending as [|who pending IH]; intros w Hp Hd.
  - exists []. simpl. rewrite app_nil_r. auto.
  - apply Forall_cons in Hp as [Hwho Hp]. apply Forall_cons in Hd as [Hdw Hd]. simpl.
    destruct (force_step_record fds w who Hdw) as (e & He & Hf & Ht).
    destruct (IH (force_step fds w who) Hp Hd) as (evs & Hl & Hm & Hfs).
    exists (e :: evs). rewrite Hl, He, <- app_assoc. simpl.
    rewrite Hwho in Hf. rewrite Ht, Hm. auto.
Qed.

(** The log segment of one faculty: the records of its lock calls -- one
    per call of its lock passes, the labs first, then the theory classes --
    followed by the records of its force calls, which are made for exactly
    the instances whose lock call failed, in the order they failed. *)
Definition faculty_segment (f : faculty) (seg : list event * list event) : Prop :=
  map event_task (fst seg) = lock_tasks f
  /\ Forall (lock_event (Name f)) (fst seg)
  /\ map event_task (snd seg) = failed_tasks (fst seg)
  /\ Forall (force_event (Name f)) (snd seg)
  /\ length (snd seg) = try_fails (fst seg).

Lemma assign_subjects_segment fds f w w' :
  assign_subjects_for_faculty fds f w = Some w' ->
  exists seg, faculty_segment f seg /\ log w' = log w ++ fst seg ++ snd seg.
Proof.
  unfold assign_subjects_for_faculty.
  destruct (lock_phase fds f w) as [[w1 pending]|] eqn:E; [|discriminate].
  intros [= <-]. apply lock_phase_run in E.
  destruct E as (locks & Hl & Hm & Hlocks & Hp). simpl in *. subst pending.
  destruct (force_phase_records fds (Name f) (failed_tasks locks) w1
              (failed_tasks_faculty _ _ Hlocks)) as (forces & Hl2 & Hm2 & Hforces).
  { apply failed_tasks_of. rewrite Hm. apply lock_tasks_driver. }
  exists (locks, forces). split.
  - repeat split; simpl; auto.
    rewrite <- failed_tasks_length, <- Hm2, length_map. reflexivity.
  - simpl. rewrite Hl2, Hl, app_assoc. reflexivity.
Qed.

Lemma assign_all_segments fds faculties w w' :
  assign_all fds faculties w = Some w' ->
  exists segs,
    Forall2 faculty_segment faculties segs
    /\ log w' = log w ++ concat (map (fun seg => fst seg ++ snd seg) segs).
Proof.
  unfold assign_all. revert w; induction faculties as [|f faculties IH]; intros w; simpl.
  - intros [= <-]. exists []. simpl. rewrite app_nil_r. auto.
  - destruct (assign_subjects_for_faculty fds f w) as [w1|] eqn:E; [|discriminate].
    intros H. destruct (assign_subjects_segment _ _ _ _ E) as (seg & Hseg & Hl1).
    destruct (IH _ H) as (segs & Hsegs & Hl2).
    exists (seg :: segs). split; [constructor; assumption|].
    simpl. rewrite Hl2, Hl1, !app_assoc. reflexivity.
Qed.

Definition is_force (e : event) : bool :=
  match e with
  | Success Force _ _ | Success ForceRelax _ _ | FailedForce _ => true
  | _ => false
  end.

Definition is_lock (e : event) : bool := negb (is_force e).

(** The claim of the specification, as it is worded: in the log of a run
    every force record comes after every lock record. *)
Definition drain_after_all_lock_passes : Prop :=
  forall g fds faculties w,
    main g fds faculties = Some w ->
    forall i j ei ej,
      log w !! i = Some ei -> log w !! j = Some ej ->
      is_force ei = true -> is_lock ej = true -> j < i.

(** A second faculty of shift 8-3 with one theory class a week for
    Sem 3 Div A. *)
Definition other_morning_faculty : faculty :=
  {| Name := "DEF"; Shift := Shift_8_3;
     Subjects := [demo_theory "3" "A" Shift_8_3 "OS" 1] |}.

Definition two_faculties : list faculty := [morning_faculty; other_morning_faculty].

(** Saturday is the only day that is not free for Sem 3 Div A and for
    Sem 3 Div B.  The first faculty has six theory classes for Div B, one
    for Div A and, listed last, a lab for Div C; the second has one theory
    class for Div A. *)
Definition weekdays : list day := [Mon; Tue; Wed; Thu; Fri].

Definition saturday_only : free_days := [(("3", "A"), weekdays); (("3", "B"), weekdays)].

Definition crowded_faculty : faculty :=
  {| Name := "ABC"; Shift := Shift_8_3;
     Subjects := [demo_theory "3" "B" Shift_8_3 "OS" 6;
                  demo_theory "3" "A" Shift_8_3 "DSP" 1;
                  demo_lab "3" "C" Shift_8_3 "NET" 1 ["B1"]] |}.

Definition next_faculty : faculty :=
  {| Name := "DEF"; Shift := Shift_8_3;
     Subjects := [demo_theory "3" "A" Shift_8_3 "OS" 1] |}.

Definition crowded_run : world :=
  default blank_world (main demo_generator saturday_only [crowded_faculty; next_faculty]).

Lemma crowded_run_returns :
  main demo_generator saturday_only [crowded_faculty; next_faculty] = Some crowded_run.
Proof. apply some_default. vm_compute. reflexivity. Qed.

Definition crowded_theory (div subject : string) : task :=
  theory_task Shift_8_3 Shift_8_3 "ABC" "3" div subject.

Definition same_hour (d : day) (slot : string) : cells := TheoryCells d slot d slot.

(** The lab is locked first although it is listed last; the six classes
    of Div B fill the Saturday of the faculty; the class of Div A then
    fails its lock call and is forced, across two days, before the second
    faculty is scheduled. *)
Lemma crowded_run_log :
  log crowded_run
  = [Success Lock (lab_task Shift_8_3 Shift_8_3 "ABC" "3" "C" "NET" "B1")
       (LabCells Fri "8-8:45" "8:45-9:45" Fri "8-8:45" "8:45-9:45");
     Success Lock (crowded_theory "B" "OS") (same_hour Sat "8-8:45");
     Success LockFallback (crowded_theory "B" "OS") (same_hour Sat "8:45-9:45");
     Success LockFallback (crowded_theory "B" "OS") (same_hour Sat "10:00-11:00");
     Success LockFallback (crowded_theory "B" "OS") (same_hour Sat "11:00-12:00");
     Success LockFallback (crowded_theory "B" "OS") (same_hour Sat "12:45-1:45");
     Success LockFallback (crowded_theory "B" "OS") (same_hour Sat "1:45-2:45");
     TryFail (crowded_theory "A" "DSP");
     Success ForceRelax (crowded_theory "A" "DSP")
       (TheoryCells Mon "8-8:45" Sat "8-8:45");
     Success Lock (theory_task Shift_8_3 Shift_8_3 "DEF" "3" "A" "OS")
       (same_hour Sat "8:45-9:45")].
Proof. vm_compute. reflexivity. Qed.

(** C1 (amended). The pending queue is per faculty: the log of a run is
    the concatenation, in input order, of one segment per faculty.  The
    segment of a faculty holds one record for each lock call of its lock
    passes -- the calls of its lab entries first, then those of its theory
    entries -- followed by the records of its force calls, which are made
    for exactly the instances whose lock call failed, one call each, in the
    order they failed.  The force placements of a faculty thus follow its
    own last lock call and precede the first lock call of the next
    faculty. *)
Theorem forces_follow_own_lock_passes
    (g : generator) (fds : free_days) (faculties : list faculty) (w : world) :
  main g fds faculties = Some w ->
  exists segs,
    Forall2 faculty_segment faculties segs
    /\ log w = concat (map (fun seg => fst seg ++ snd seg) segs).
Proof.
  intros H. destruct (assign_all_segments _ _ _ _ H) as (segs & Hs & Hl).
  exists segs. split; [exact Hs|exact Hl].
Qed.

Lemma forces_follow_own_lock_passes_witness :
  main demo_generator saturday_only [crowded_faculty; next_faculty] = Some crowded_run
  /\ failed_tasks (take 8 (log crowded_run)) = [crowded_theory "A" "DSP"]
  /\ map event_task (take 2 (drop 8 (log crowded_run)))
     = [crowded_theory "A" "DSP"; theory_task Shift_8_3 Shift_8_3 "DEF" "3" "A" "OS"]
  /\ exists segs,
       Forall2 faculty_segment [crowded_faculty; next_faculty] segs
       /\ log crowded_run = concat (map (fun seg => fst seg ++ snd seg) segs).
Proof.
  pose proof crowded_run_returns as Hrun.
  split; [exact Hrun|].
  split; [rewrite crowded_run_log; reflexivity|].
  split; [rewrite crowded_run_log; reflexivity|].
  exact (forces_follow_own_lock_passes demo_generator saturday_only
           [crowded_faculty; next_faculty] crowded_run Hrun).
Defined.

(** ** The order the days are tried in *)

(** One selection step: the element drawn, followed by the pool the loop
    goes on with, is a rearrangement of the pool it started from. *)
Lemma sample_step_perm {A} (pool : list A) (m j : nat) (x y : A) :
  j < m -> pool !! j = Some x -> pool !! (m - 1) = Some y ->
  x :: take (m - 1) (<[j := y]> pool) ≡ₚ take m pool.
Proof.
  intros Hj Hx Hy.
  replace m with (S (m - 1)) at 2 by lia. rewrite (take_S_r _ _ _ Hy).
  destruct (decide (j = m - 1)) as [->|Hne].
  - rewrite take_insert_ge by lia. rewrite Hx in Hy. injection Hy as <-.
    apply Permutation_cons_append.
  - rewrite take_insert_lt by lia.
    assert (Hq : take (m - 1) pool !! j = Some x) by (rewrite lookup_take_lt by lia; exact Hx).
    rewrite insert_take_drop by (apply lookup_lt_Some in Hq; exact Hq).
    rewrite <- (take_drop_middle _ _ _ Hq) at 3.
    rewrite <- !app_assoc. simpl.
    rewrite Permutation_middle. apply Permutation_app_head.
    apply perm_skip, Permutation_cons_append.
Qed.

Lemma sample_loop_perm {A} (m : nat) (pool : list A) (r : rng) :
  m <= length pool -> fst (sample_loop m m pool r) ≡ₚ take m pool.
Proof.
  revert pool r. induction m as [|m IH]; intros pool r Hm; [reflexivity|].
  assert (Hj : tape r (pos r) mod S m < S m) by (apply Nat.mod_upper_bound; lia).
  cbn [sample_loop]. unfold randbelow. cbv beta iota.
  set (j := tape r (pos r) mod S m) in *.
  destruct (lookup_lt_is_Some_2 pool j) as [x Hx]; [lia|].
  destruct (lookup_lt_is_Some_2 pool (S m - 1)) as [y Hy]; [lia|].
  rewrite Hx, Hy.
  replace (S m - 1) with m in * by lia.
  specialize (IH (<[j := y]> pool) {| tape := tape r; pos := S (pos r) |}).
  destruct (sample_loop m m _ _) as [rest r2]. simpl in *.
  rewrite IH by (rewrite length_insert; lia).
  pose proof (sample_step_perm pool (S m) j x y Hj Hx) as H.
  replace (S m - 1) with m in H by lia. apply H, Hy.
Qed.

(** [random.sample(DAYS, len(DAYS))] tries every day once, in some order. *)
Lemma random_sample_days_perm r : fst (random_sample_days r) ≡ₚ DAYS.
Proof. unfold random_sample_days. rewrite sample_loop_perm by reflexivity. reflexivity. Qed.

(** ** Runs that do not depend on the generator *)

Lemma random_sample_days_nonempty r :
  exists d days r', random_sample_days r = (d :: days, r').
Proof.
  unfold random_sample_days. simpl length.
  change (sample_loop 6 6 DAYS r)
    with (let '(j, r1) := randbelow 6 r in
          match DAYS !! j, DAYS !! 5 with
          | Some x, Some y =>
              let '(rest, r2) := sample_loop 5 5 (<[j := y]> DAYS) r1 in (x :: rest, r2)
          | _, _ => ([], r1)
          end).
  unfold randbelow.
  assert (Hj : tape r (pos r) mod 6 < 6) by (apply Nat.mod_upper_bound; lia).
  destruct (tape r (pos r) mod 6) as [|[|[|[|[|[|j]]]]]]; try lia;
    simpl lookup; cbv iota beta;
    match goal with
    | |- context [sample_loop 5 5 ?p ?r1] => destruct (sample_loop 5 5 p r1) as [rest r2]
    end; eauto.
Qed.

Lemma lock_theory_fails fds ftbl dtbl fshift dshift fname sem div subject avoid_dup r :
  (forall d, lock_theory_slots ftbl dtbl fshift dshift d = None) ->
  exists r',
    lock_theory fds ftbl dtbl fshift dshift fname sem div subject avoid_dup r
    = (failure (TryFail (theory_task fshift dshift fname sem div subject)) ftbl dtbl, r').
Proof.
  intros Hnone. unfold lock_theory.
  destruct (random_sample_days r) as [days1 r1].
  rewrite find_first_None.
  - destruct (random_sample_days r1) as [days2 r2].
    rewrite find_first_None by auto. eauto.
  - intros d _. rewrite Hnone.
    repeat match goal with |- context [if ?b then _ else _] => destruct b end; reflexivity.
Qed.

Lemma lock_theory_falls_back fds ftbl dtbl fshift dshift fname sem div subject avoid_dup r
    (c : day -> cells) :
  (forall d, is_division_holiday fds sem div d = true) ->
  (forall d, lock_theory_slots ftbl dtbl fshift dshift d = Some (c d)) ->
  exists d r',
    lock_theory fds ftbl dtbl fshift dshift fname sem div subject avoid_dup r
    = (success LockFallback (theory_task fshift dshift fname sem div subject) (c d)
         ftbl dtbl, r').
Proof.
  intros Hhol Hsome. unfold lock_theory.
  destruct (random_sample_days r) as [days1 r1].
  rewrite find_first_None.
  - destruct (random_sample_days_nonempty r1) as (d & days2 & r2 & ->).
    rewrite (find_first_head _ d days2 (c d)) by auto. eauto.
  - intros d _. rewrite Hhol.
    repeat match goal with |- context [if ?b then _ else _] => destruct b end; reflexivity.
Qed.

Lemma lock_step_theory_fails fds who w pending :
  t_kind who = Theory -> t_batch who = "" ->
  (forall d, lock_theory_slots (ftbl_of w (t_faculty who)) (dtbl_of w (t_sem who, t_div who))
               (t_fshift who) (t_dshift who) d = None) ->
  exists r',
    lock_step fds who (w, pending)
    = (commit who (failure (TryFail who) (ftbl_of w (t_faculty who))
                     (dtbl_of w (t_sem who, t_div who))) r' w,
       (pending ++ [who])%list).
Proof.
  intros Hk Hb Hnone. unfold lock_step. rewrite Hk.
  destruct (lock_theory_fails fds _ _ _ _ (t_faculty who) (t_sem who) (t_div who)
              (t_subject who) true (gen w) Hnone) as (r' & ->).
  exists r'. destruct who; simpl in *; subst. reflexivity.
Qed.

Lemma lock_step_theory_falls_back fds who w pending (c : day -> cells) :
  t_kind who = Theory -> t_batch who = "" ->
  (forall d, is_division_holiday fds (t_sem who) (t_div who) d = true) ->
  (forall d, lock_theory_slots (ftbl_of w (t_faculty who)) (dtbl_of w (t_sem who, t_div who))
               (t_fshift who) (t_dshift who) d = Some (c d)) ->
  exists d r',
    lock_step fds who (w, pending)
    = (commit who (success LockFallback who (c d) (ftbl_of w (t_faculty who))
                     (dtbl_of w (t_sem who, t_div who))) r' w,
       pending).
Proof.
  intros Hk Hb Hhol Hsome. unfold lock_step. rewrite Hk.
  destruct (lock_theory_falls_back fds _ _ _ _ (t_faculty who) (t_sem who) (t_div who)
              (t_subject who) true (gen w) c Hhol Hsome) as (d & r' & ->).
  exists d, r'.
  destruct (success_fields LockFallback
              (theory_task (t_fshift who) (t_dshift who) (t_faculty who) (t_sem who)
                 (t_div who) (t_subject who)) (c d) (ftbl_of w (t_faculty who))
              (dtbl_of w (t_sem who, t_div who))) as (-> & _ & _).
  destruct who; simpl in *; subst. reflexivity.
Qed.

(** The driver on a faculty with a single theory entry of one class a
    week. *)
Lemma assign_one_theory fds f e w :
  Subjects f = [e] -> Type_ e = Theory -> Theory_Classes e = 1 ->
  assign_subjects_for_faculty fds f w
  = Some (let st :=
            lock_step fds
              (theory_task (Shift f) (Div_Shift e) (Name f) (Semester e) (Division e)
                 (Subject e))
              (ensure fds (Semester e) (Division e) (Div_Shift e)
                 match ftables w !! Name f with
                 | Some _ => w
                 | None => add_faculty_table (Name f) (Shift f) w
                 end, []) in
          foldl (force_step fds) (fst st) (snd st)).
Proof.
  intros Hs Ht Hn. unfold assign_subjects_for_faculty, lock_phase, theory_entry.
  rewrite Hs. cbn [List.filter]. unfold is_kind. rewrite Ht.
  change (bool_decide (Theory = Lab)) with false.
  change (bool_decide (Theory = Theory)) with true.
  cbn [for_each foldl]. rewrite Hn. cbn [Nat.iter nat_rect fst snd].
  unfold add_faculty_table.
  destruct (ftables w !! Name f); cbv zeta;
    match goal with |- context [lock_step ?a ?b ?c] => destruct (lock_step a b c) end;
    reflexivity.
Qed.

(** The tasks of the two faculties of [two_faculties]. *)
Definition abc_task : task := theory_task Shift_8_3 Shift_8_3 "ABC" "3" "A" "DSP".
Definition def_task : task := theory_task Shift_8_3 Shift_8_3 "DEF" "3" "A" "OS".

(** Whatever the generator draws, the run on [two_faculties] with every
    day free logs the failed lock and the failed force of the first faculty
    before the failed lock of the second. *)
Lemma two_faculties_log (g : generator) :
  exists w,
    main g all_week_free two_faculties = Some w
    /\ log w = [TryFail abc_task; FailedForce abc_task; TryFail def_task; FailedForce def_task].
Proof.
  pose (wA := ensure all_week_free "3" "A" Shift_8_3
                (add_faculty_table "ABC" Shift_8_3
                   (after_premarking g all_week_free two_faculties))).
  destruct (lock_step_theory_fails all_week_free abc_task wA [] eq_refl eq_refl)
    as (r1 & E1).
  { intros d. destruct d; vm_compute; reflexivity. }
  pose (w1 := force_step all_week_free
                (commit abc_task
                   (failure (TryFail abc_task) (ftbl_of wA "ABC") (dtbl_of wA ("3", "A")))
                   r1 wA) abc_task).
  pose (wB := ensure all_week_free "3" "A" Shift_8_3 (add_faculty_table "DEF" Shift_8_3 w1)).
  destruct (lock_step_theory_fails all_week_free def_task wB [] eq_refl eq_refl)
    as (r2 & E2).
  { intros d. destruct d; vm_compute; reflexivity. }
  exists (force_step all_week_free
            (commit def_task
               (failure (TryFail def_task) (ftbl_of wB "DEF") (dtbl_of wB ("3", "A")))
               r2 wB) def_task).
  split; [|vm_compute; reflexivity].
  unfold main, assign_all, two_faculties. cbn [for_each].
  rewrite (assign_one_theory all_week_free morning_faculty
             (demo_theory "3" "A" Shift_8_3 "DSP" 1) _ eq_refl eq_refl eq_refl).
  cbn [ftables Name]. rewrite lookup_empty.
  match goal with
  | |- context [lock_step ?f ?t (?w, @nil task)] =>
      change (lock_step f t (w, @nil task))
        with (lock_step all_week_free abc_task (wA, @nil task))
  end.
  rewrite E1. cbv zeta. cbn [fst snd app foldl]. fold w1.
  rewrite (assign_one_theory all_week_free other_morning_faculty
             (demo_theory "3" "A" Shift_8_3 "OS" 1) _ eq_refl eq_refl eq_refl).
  cbn [Name].
  replace (ftables w1 !! "DEF") with (@None table) by (vm_compute; reflexivity).
  match goal with
  | |- context [lock_step ?f ?t (?w, @nil task)] =>
      change (lock_step f t (w, @nil task))
        with (lock_step all_week_free def_task (wB, @nil task))
  end.
  rewrite E2. reflexivity.
Qed.

(** C1, counterexample: when every day of Sem 3 Div A is a free day, the
    lock of the first faculty fails and its force call is made before the
    lock call of the second faculty. *)
Lemma force_before_next_faculty_counterexample : ~ drain_after_all_lock_passes.
Proof.
  intros H. destruct (two_faculties_log demo_generator) as (w & Hrun & Hlog).
  specialize (H _ _ _ _ Hrun 1 2). rewrite Hlog in H.
  specialize (H _ _ eq_refl eq_refl eq_refl eq_refl). lia.
Qed.

(** ** Free days and the lock fallback *)

(** A faculty of shift 10-5 whose two theory entries name Sem 3 Div A with
    two different division shifts: the grid is created for the first one,
    8-3, so it has no cell for the slots 3-4 and 4-5 of the second. *)
Definition mixed_shift_faculty : faculty :=
  {| Name := "XYZ"; Shift := Shift_10_5;
     Subjects := [demo_theory "3" "A" Shift_8_3 "X" 1; demo_theory "3" "A" Shift_10_5 "Y" 1] |}.

Definition first_task : task := theory_task Shift_10_5 Shift_8_3 "XYZ" "3" "A" "X".
Definition second_task : task := theory_task Shift_10_5 Shift_10_5 "XYZ" "3" "A" "Y".

(** C5, at the failing input: every day of Sem 3 Div A is a free day, and
    whatever the generator draws, the fallback loop of [lock_theory] places
    the second entry in slot 3-4 of the division table on one of them. *)
Theorem fallback_places_on_free_day (g : generator) :
  exists w d,
    main g all_week_free [mixed_shift_faculty] = Some w
    /\ Success LockFallback second_task (TheoryCells d "3-4" d "3-4") ∈ log w
    /\ is_division_holiday all_week_free "3" "A" d = true
    /\ get_cell (dtbl_of w ("3", "A")) d "3-4" = theory_text_d "Y" "XYZ".
Proof.
  pose (wA := ensure all_week_free "3" "A" Shift_8_3
                (add_faculty_table "XYZ" Shift_10_5
                   (after_premarking g all_week_free [mixed_shift_faculty]))).
  destruct (lock_step_theory_fails all_week_free first_task wA [] eq_refl eq_refl)
    as (r1 & E1).
  { intros d. destruct d; vm_compute; reflexivity. }
  pose (wB := ensure all_week_free "3" "A" Shift_10_5
                (commit first_task
                   (failure (TryFail first_task) (ftbl_of wA "XYZ") (dtbl_of wA ("3", "A")))
                   r1 wA)).
  destruct (lock_step_theory_falls_back all_week_free second_task wB [first_task]
              (fun d => TheoryCells d "3-4" d "3-4") eq_refl eq_refl)
    as (d & r2 & E2).
  { intros d. destruct d; vm_compute; reflexivity. }
  { intros d. destruct d; vm_compute; reflexivity. }
  pose (wC := commit second_task
                (success LockFallback second_task (TheoryCells d "3-4" d "3-4")
                   (ftbl_of wB "XYZ") (dtbl_of wB ("3", "A")))
                r2 wB).
  exists (force_step all_week_free wC first_task), d.
  split; [|split; [|split]].
  - unfold main, assign_all. cbn [for_each].
    unfold assign_subjects_for_faculty, lock_phase.
    change (ftables {| ftables := ∅;
                       dtables := apply_free_day_markings_from_inputs all_week_free ∅
                                    [mixed_shift_faculty];
                       gen := random_seed g 7; log := [] |}
              !! Name mixed_shift_faculty) with ((∅ : gmap string table) !! "XYZ").
    rewrite lookup_empty.
    change (List.filter (is_kind Lab) (Subjects mixed_shift_faculty))
      with (@nil subject_entry).
    change (List.filter (is_kind Theory) (Subjects mixed_shift_faculty))
      with [demo_theory "3" "A" Shift_8_3 "X" 1; demo_theory "3" "A" Shift_10_5 "Y" 1].
    cbn [for_each foldl]. unfold theory_entry.
    change (Theory_Classes (demo_theory "3" "A" Shift_8_3 "X" 1)) with 1.
    change (Theory_Classes (demo_theory "3" "A" Shift_10_5 "Y" 1)) with 1.
    cbn [Nat.iter nat_rect fst snd].
    match goal with
    | |- context [lock_step ?f ?t (ensure ?a ?b ?c ?e ?w, @nil task)] =>
        change (lock_step f t (ensure a b c e w, @nil task))
          with (lock_step all_week_free first_task (wA, @nil task))
    end.
    rewrite E1. cbn [fst snd app].
    match goal with
    | |- context [lock_step ?f ?t (ensure ?a ?b ?c ?e ?w, ?p)] =>
        change (lock_step f t (ensure a b c e w, p))
          with (lock_step all_week_free second_task (wB, [first_task]))
    end.
    rewrite E2. reflexivity.
  - destruct d; apply list_elem_of_In; vm_compute; tauto.
  - destruct d; reflexivity.
  - destruct d; vm_compute; reflexivity.
Qed.

(** ** The scheduling loop, call by call *)

(** What the first loop of a lock function has checked on the day it
    chose: neither the division nor the subject shows in the row of the
    division table. *)
Definition dup_guard (who : task) (dtbl : table) (o : outcome) : Prop :=
  (forall c, out_event o = Success Lock who c ->
     day_has_division dtbl (division_day c) (t_sem who) (t_div who) = false
     /\ day_has_subject dtbl (division_day c) (t_subject who) = false)
  /\ (forall c, out_event o = Success LockFallback who c -> t_kind who = Lab ->
        day_has_division dtbl (division_day c) (t_sem who) (t_div who) = false).

Lemma lock_theory_slots_day ftbl dtbl fshift dshift d c :
  lock_theory_slots ftbl dtbl fshift dshift d = Some c -> division_day c = d.
Proof. unfold lock_theory_slots. intros H. search_inv. reflexivity. Qed.

Lemma lab_dpairs_day dtbl fshift dshift fday fs1 fs2 dday c :
  lab_dpairs dtbl fshift dshift fday fs1 fs2 dday = Some c -> division_day c = dday.
Proof. unfold lab_dpairs. intros H. search_inv. reflexivity. Qed.

Lemma lock_theory_guard fds ftbl dtbl fshift dshift fname sem div subject r :
  dup_guard (theory_task fshift dshift fname sem div subject) dtbl
    (fst (lock_theory fds ftbl dtbl fshift dshift fname sem div subject true r)).
Proof.
  split; [|intros c _ Hk; discriminate Hk].
  unfold lock_theory. set (who := theory_task _ _ _ _ _ _).
  destruct (random_sample_days r) as [days r1].
  destruct (find_first _ days) as [c|] eqn:H1.
  - simpl. intros c0 Hc0.
    rewrite (proj1 (proj2 (success_fields Lock who c ftbl dtbl))) in Hc0.
    injection Hc0 as <-.
    apply find_first_Some in H1 as (d & _ & H1). simpl in H1.
    destruct (day_has_division dtbl d sem div) eqn:E1; [discriminate|].
    destruct (day_has_subject dtbl d subject) eqn:E2; [discriminate|].
    destruct (is_division_holiday fds sem div d); [discriminate|].
    apply lock_theory_slots_day in H1. rewrite H1. auto.
  - destruct (random_sample_days r1) as [days2 r2].
    destruct (find_first _ days2) as [c|] eqn:H2; simpl; intros c0 Hc0.
    + rewrite (proj1 (proj2 (success_fields LockFallback who c ftbl dtbl))) in Hc0.
      discriminate.
    + discriminate.
Qed.

Lemma lock_lab_guard fds ftbl dtbl fshift dshift fname sem div subject batch r :
  dup_guard (lab_task fshift dshift fname sem div subject batch) dtbl
    (fst (lock_lab fds ftbl dtbl fshift dshift fname sem div subject batch true r)).
Proof.
  unfold lock_lab. set (who := lab_task _ _ _ _ _ _ _).
  destruct (random_sample_days r) as [days r1].
  destruct (find_first _ days) as [c|] eqn:H1.
  - simpl. split; intros c0 Hc0;
      rewrite (proj1 (proj2 (success_fields Lock who c ftbl dtbl))) in Hc0;
      [|discriminate].
    injection Hc0 as <-.
    apply find_first_Some in H1 as (d & _ & H1). simpl in H1.
    destruct (day_has_division dtbl d sem div) eqn:E1; [discriminate|].
    destruct (day_has_subject dtbl d subject) eqn:E2; [discriminate|].
    destruct (is_division_holiday fds sem div d); [discriminate|].
    unfold lock_lab_pairs in H1. apply find_first_Some in H1 as ([fs1 fs2] & _ & H1).
    destruct (free_pair ftbl d fs1 fs2); [|discriminate]. simpl in H1.
    apply lab_dpairs_day in H1. rewrite H1. auto.
  - destruct (random_sample_days r1) as [days2 r2].
    destruct (find_first_st _ days2 r2) as [[c|] r3] eqn:H2; simpl;
      [|split; intros c0 Hc0; discriminate].
    split; intros c0 Hc0;
      rewrite (proj1 (proj2 (success_fields LockFallback who c ftbl dtbl))) in Hc0;
      [discriminate|].
    injection Hc0 as <-. intros _.
    apply find_first_st_Some in H2 as (fday & s1 & _ & H2).
    apply find_first_st_Some in H2 as ([fs1 fs2] & s2 & _ & H2). simpl in H2.
    destruct (free_pair ftbl fday fs1 fs2); [|discriminate]. simpl in H2.
    destruct (random_sample_days s2) as [ddays s3]. injection H2 as H2 _.
    apply find_first_Some in H2 as (dday & _ & H2). simpl in H2.
    destruct (day_has_division dtbl dday sem div) eqn:E1; [discriminate|].
    apply lab_dpairs_day in H2. rewrite H2. exact E1.
Qed.

Lemma force_guard fds who ftbl dtbl o : call_spec fds who ftbl dtbl false o -> dup_guard who dtbl o.
Proof.
  intros [ps c Hps _|]; [|split; intros c0 Hc0; discriminate].
  split; intros c0 Hc0;
    rewrite (proj1 (proj2 (success_fields ps who c ftbl dtbl))) in Hc0;
    injection Hc0 as -> _; destruct Hps; discriminate.
Qed.

(** The steps of the scheduling loop as the driver makes them: every call
    is made on a division whose table is in the store, and the division
    and shift it names satisfy [ok]. *)
Inductive sched_step (fds : free_days) (ok : string -> string -> shift -> Prop)
  : world -> world -> Prop :=
| sstep_faculty w fname sh :
    ftables w !! fname = None ->
    sched_step fds ok w (add_faculty_table fname sh w)
| sstep_ensure w sem div dshift :
    ok sem div dshift ->
    sched_step fds ok w (ensure fds sem div dshift w)
| sstep_call w who o r locking :
    ok (t_sem who) (t_div who) (t_dshift who) ->
    is_Some (dtables w !! (t_sem who, t_div who)) ->
    call_spec fds who (ftbl_of w (t_faculty who)) (dtbl_of w (t_sem who, t_div who))
      locking o ->
    dup_guard who (dtbl_of w (t_sem who, t_div who)) o ->
    sched_step fds ok w (commit who o r w).

Definition planned (ok : string -> string -> shift -> Prop) (who : task) : Prop :=
  ok (t_sem who) (t_div who) (t_dshift who).

Definition planned_faculty (ok : string -> string -> shift -> Prop) (f : faculty) : Prop :=
  forall e, e ∈ Subjects f -> ok (Semester e) (Division e) (Div_Shift e).

Definition any_shift : string -> string -> shift -> Prop := fun _ _ _ => True.

Lemma sched_step_engine fds ok w w' : sched_step fds ok w w' -> engine_step fds w w'.
Proof. intros [| |]; econstructor; eauto. Qed.

Lemma sched_run_engine fds ok w w' :
  rtc (sched_step fds ok) w w' -> rtc (engine_step fds) w w'.
Proof. induction 1; [apply rtc_refl|]. eapply rtc_l; eauto using sched_step_engine. Qed.

(** Tables stay in the store. *)
Lemma engine_step_present fds w w' key :
  engine_step fds w w' -> is_Some (dtables w !! key) -> is_Some (dtables w' !! key).
Proof.
  intros [w0 fname sh _|w0 sem div dshift|w0 who o r locking _] H; simpl.
  - exact H.
  - rewrite ensure_div_table_lookup. destruct (dtables w0 !! (sem, div)); [exact H|].
    destruct (decide (key = (sem, div))); [eauto|exact H].
  - rewrite lookup_alter. destruct (decide _) as [<-|]; [|exact H].
    destruct H as [x ->]. simpl. eauto.
Qed.

Lemma sched_run_present fds ok w w' key :
  rtc (sched_step fds ok) w w' -> is_Some (dtables w !! key) -> is_Some (dtables w' !! key).
Proof.
  induction 1; eauto using engine_step_present, sched_step_engine.
Qed.

(** The driver, seen as a run of such steps; the tasks it defers name
    their division as the entry they come from does. *)
Definition sched_ext (fds : free_days) (ok : string -> string -> shift -> Prop)
    (st st' : world * list task) : Prop :=
  rtc (sched_step fds ok) (fst st) (fst st')
  /\ (Forall (planned ok) (snd st) -> Forall (planned ok) (snd st')).

Lemma sched_ext_refl fds ok st : sched_ext fds ok st st.
Proof. split; [apply rtc_refl|auto]. Qed.

Lemma sched_ext_trans fds ok a b c :
  sched_ext fds ok a b -> sched_ext fds ok b c -> sched_ext fds ok a c.
Proof. intros [H1 H2] [H3 H4]. split; [etrans; eassumption|auto]. Qed.

Lemma lock_step_sched fds ok who st :
  planned ok who -> is_Some (dtables (fst st) !! (t_sem who, t_div who)) ->
  sched_ext fds ok st (lock_step fds who st).
Proof.
  intros Hplan Hpresent. destruct st as [w pending]. unfold lock_step. simpl in Hpresent.
  destruct (t_kind who) eqn:Hk.
  - pose proof (lock_theory_spec fds (ftbl_of w (t_faculty who))
                  (dtbl_of w (t_sem who, t_div who)) (t_fshift who) (t_dshift who)
                  (t_faculty who) (t_sem who) (t_div who) (t_subject who) true (gen w)) as H.
    pose proof (lock_theory_guard fds (ftbl_of w (t_faculty who))
                  (dtbl_of w (t_sem who, t_div who)) (t_fshift who) (t_dshift who)
                  (t_faculty who) (t_sem who) (t_div who) (t_subject who) (gen w)) as G.
    destruct (lock_theory _ _ _ _ _ _ _ _ _ _ _) as [o r]. simpl in *. split; simpl.
    + apply rtc_once.
      exact (sstep_call fds ok w (theory_task _ _ _ _ _ _) o r true Hplan Hpresent H G).
    + intros Hp. destruct (placed o); [exact Hp|].
      apply Forall_app. split; [exact Hp|]. constructor; [exact Hplan|constructor].
  - pose proof (lock_lab_spec fds (ftbl_of w (t_faculty who))
                  (dtbl_of w (t_sem who, t_div who)) (t_fshift who) (t_dshift who)
                  (t_faculty who) (t_sem who) (t_div who) (t_subject who) (t_batch who)
                  true (gen w)) as H.
    pose proof (lock_lab_guard fds (ftbl_of w (t_faculty who))
                  (dtbl_of w (t_sem who, t_div who)) (t_fshift who) (t_dshift who)
                  (t_faculty who) (t_sem who) (t_div who) (t_subject who) (t_batch who)
                  (gen w)) as G.
    destruct (lock_lab _ _ _ _ _ _ _ _ _ _ _ _) as [o r]. simpl in *. split; simpl.
    + apply rtc_once.
      exact (sstep_call fds ok w (lab_task _ _ _ _ _ _ _) o r true Hplan Hpresent H G).
    + intros Hp. destruct (placed o); [exact Hp|].
      apply Forall_app. split; [exact Hp|]. constructor; [exact Hplan|constructor].
Qed.

Lemma lock_iter_sched fds ok who n st :
  planned ok who -> is_Some (dtables (fst st) !! (t_sem who, t_div who)) ->
  sched_ext fds ok st (Nat.iter n (lock_step fds who) st).
Proof.
  intros Hplan Hpresent. induction n as [|n IH]; simpl; [apply sched_ext_refl|].
  eapply sched_ext_trans; [exact IH|].
  apply lock_step_sched; [exact Hplan|].
  eapply sched_run_present; [exact (proj1 IH)|exact Hpresent].
Qed.

Lemma ensure_sched fds ok sem div dshift st :
  ok sem div dshift ->
  sched_ext fds ok st (ensure fds sem div dshift (fst st), snd st)
  /\ is_Some (dtables (ensure fds sem div dshift (fst st)) !! (sem, div)).
Proof.
  intros Hok. split; [|apply ensure_present].
  split; simpl; [|auto]. apply rtc_once, sstep_ensure, Hok.
Qed.

Lemma theory_entry_sched fds ok f entry st :
  ok (Semester entry) (Division entry) (Div_Shift entry) ->
  sched_ext fds ok st (theory_entry fds f entry st).
Proof.
  intros He. unfold theory_entry.
  destruct (ensure_sched fds ok (Semester entry) (Division entry) (Div_Shift entry) st He)
    as [H1 H2].
  eapply sched_ext_trans; [exact H1|].
  apply lock_iter_sched; [exact He|exact H2].
Qed.

Lemma lab_entry_sched fds ok f entry st st' :
  ok (Semester entry) (Division entry) (Div_Shift entry) ->
  lab_entry fds f entry st = Some st' -> sched_ext fds ok st st'.
Proof.
  intros He. unfold lab_entry.
  destruct (if negb (Batches_Grouped entry) then _ else _) as [batches|]; [|discriminate].
  intros [= <-].
  destruct (ensure_sched fds ok (Semester entry) (Division entry) (Div_Shift entry) st He)
    as [H1 H2].
  eapply sched_ext_trans; [exact H1|]. clear H1.
  assert (Hloop : forall s : world * list task,
            is_Some (dtables (fst s) !! (Semester entry, Division entry)) ->
            sched_ext fds ok s
              (foldl
                 (fun st batch =>
                    Nat.iter (Num_Labs entry)
                      (lock_step fds
                         (lab_task (Shift f) (Div_Shift entry) (Name f) (Semester entry)
                            (Division entry) (Subject entry) batch))
                      st)
                 s batches)).
  { induction batches as [|b batches IH]; intros s Hs; simpl; [apply sched_ext_refl|].
    set (s1 := Nat.iter _ _ s).
    assert (Hs1 : sched_ext fds ok s s1) by (apply lock_iter_sched; [exact He|exact Hs]).
    eapply sched_ext_trans; [exact Hs1|]. apply IH.
    eapply sched_run_present; [exact (proj1 Hs1)|exact Hs]. }
  apply Hloop. exact H2.
Qed.

Lemma force_step_sched fds ok w who :
  planned ok who -> rtc (sched_step fds ok) w (force_step fds w who).
Proof.
  intros Hplan. unfold force_step.
  destruct (ensure_sched fds ok (t_sem who) (t_div who) (t_dshift who) (w, []) Hplan)
    as [[H1 _] H2]. simpl in H1, H2.
  etrans; [exact H1|]. apply rtc_once. set (w1 := ensure _ _ _ _ w) in *.
  destruct (t_kind who) eqn:Hk.
  - pose proof (force_place_theory_spec fds (ftbl_of w1 (t_faculty who))
                  (dtbl_of w1 (t_sem who, t_div who)) (t_fshift who) (t_dshift who)
                  (t_faculty who) (t_sem who) (t_div who) (t_subject who)) as H.
    exact (sstep_call fds ok w1 (theory_task _ _ _ _ _ _) _ (gen w1) false Hplan H2 H
             (force_guard _ _ _ _ _ H)).
  - pose proof (force_place_lab_spec fds (ftbl_of w1 (t_faculty who))
                  (dtbl_of w1 (t_sem who, t_div who)) (t_fshift who) (t_dshift who)
                  (t_faculty who) (t_sem who) (t_div who) (t_subject who) (t_batch who)) as H.
    exact (sstep_call fds ok w1 (lab_task _ _ _ _ _ _ _) _ (gen w1) false Hplan H2 H
             (force_guard _ _ _ _ _ H)).
Qed.

Lemma lock_phase_sched fds ok f w st :
  planned_faculty ok f ->
  lock_phase fds f w = Some st ->
  rtc (sched_step fds ok) w (fst st) /\ Forall (planned ok) (snd st).
Proof.
  intros Hf. unfold lock_phase.
  set (w1 := match ftables w !! Name f with Some _ => w | None => _ end).
  assert (H1 : rtc (sched_step fds ok) w w1).
  { subst w1. destruct (ftables w !! Name f) eqn:E; [apply rtc_refl|].
    apply rtc_once. exact (sstep_faculty fds ok w (Name f) (Shift f) E). }
  destruct (for_each _ _ (w1, [])) as [st1|] eqn:E; [|discriminate].
  intros [= <-].
  assert (H2 : sched_ext fds ok (w1, []) st1).
  { revert E. generalize (w1, @nil task).
    assert (Hl : forall e, e ∈ List.filter (is_kind Lab) (Subjects f) -> e ∈ Subjects f).
    { intros e He. apply list_elem_of_In, filter_In in He as [He _].
      apply list_elem_of_In, He. }
    induction (List.filter (is_kind Lab) (Subjects f)) as [|e l IH]; intros s; simpl.
    - intros [= <-]. apply sched_ext_refl.
    - destruct (lab_entry fds f e s) as [s'|] eqn:Ee; [|discriminate].
      intros H. eapply sched_ext_trans.
      + eapply lab_entry_sched; [|exact Ee]. apply Hf, Hl. left.
      + apply IH; [|exact H]. intros e' He'. apply Hl. right. exact He'. }
  assert (H3 : sched_ext fds ok st1
                 (foldl (fun st entry => theory_entry fds f entry st) st1
                    (List.filter (is_kind Theory) (Subjects f)))).
  { generalize st1.
    assert (Hl : forall e, e ∈ List.filter (is_kind Theory) (Subjects f) -> e ∈ Subjects f).
    { intros e He. apply list_elem_of_In, filter_In in He as [He _].
      apply list_elem_of_In, He. }
    induction (List.filter (is_kind Theory) (Subjects f)) as [|e l IH]; intros s; simpl.
    - apply sched_ext_refl.
    - eapply sched_ext_trans.
      + apply (theory_entry_sched fds ok f e s). apply Hf, Hl. left.
      + apply IH. intros e' He'. apply Hl. right. exact He'. }
  destruct (sched_ext_trans _ _ _ _ _ H2 H3) as [H4 H5]. simpl in H4.
  split; [etrans; eassumption|]. apply H5. constructor.
Qed.

Lemma assign_subjects_sched fds ok f w w' :
  planned_faculty ok f ->
  assign_subjects_for_faculty fds f w = Some w' -> rtc (sched_step fds ok) w w'.
Proof.
  intros Hf. unfold assign_subjects_for_faculty.
  destruct (lock_phase fds f w) as [[w1 pending]|] eqn:E; [|discriminate].
  intros [= <-]. destruct (lock_phase_sched _ _ _ _ _ Hf E) as [H1 H2]. simpl in H1, H2.
  etrans; [exact H1|]. clear E H1. revert w1.
  induction pending as [|who pending IH]; intros w1; simpl; [apply rtc_refl|].
  apply Forall_cons in H2 as [Hwho H2].
  etrans; [apply force_step_sched, Hwho|apply IH, H2].
Qed.

Lemma assign_all_sched fds ok faculties w w' :
  Forall (planned_faculty ok) faculties ->
  assign_all fds faculties w = Some w' -> rtc (sched_step fds ok) w w'.
Proof.
  unfold assign_all. intros Hall. revert w.
  induction Hall as [|f faculties Hf _ IH]; intros w; simpl.
  - intros [= <-]. apply rtc_refl.
  - destruct (assign_subjects_for_faculty fds f w) as [w1|] eqn:E; [|discriminate].
    intros H. etrans; [exact (assign_subjects_sched _ _ _ _ _ Hf E)|apply IH, H].
Qed.

Lemma any_shift_planned faculties : Forall (planned_faculty any_shift) faculties.
Proof. apply Forall_forall. intros f _ e _. exact I. Qed.

Lemma main_sched g fds faculties w :
  main g fds faculties = Some w ->
  rtc (sched_step fds any_shift) (after_premarking g fds faculties) w.
Proof. apply assign_all_sched, any_shift_planned. Qed.

(** ** Free days when every division has one shift *)

(** Every entry names its division with the shift the pre-marking uses for
    the table of the division, which is the [Div_Shift] of the first entry
    that names it. *)
Definition one_shift_per_division (faculties : list faculty) : Prop :=
  forall f e, f ∈ faculties -> e ∈ Subjects f ->
    Div_Shift e = div_shift_map faculties (Semester e, Division e).

Definition as_planned (plan : string * string -> shift) : string -> string -> shift -> Prop :=
  fun sem div sh => sh = plan (sem, div).

(** On a free day of [key] no slot of the shift is free in the table. *)
Definition closed_on_free_days (fds : free_days) (key : string * string)
    (sh : shift) (t : table) : Prop :=
  forall d slot,
    is_division_holiday fds (fst key) (snd key) d = true ->
    slot ∈ SHIFT_SLOTS sh ->
    free_slot t d slot = false.

Definition guarded_store (fds : free_days) (plan : string * string -> shift)
    (dt : div_tables) : Prop :=
  forall key sh (t : table), dt !! key = Some (sh, t) ->
    sh = plan key /\ closed_on_free_days fds key sh t.

Definition off_free_days (fds : free_days) (e : event) : Prop :=
  match e with
  | Success ps who c =>
      is_division_holiday fds (t_sem who) (t_div who) (division_day c) = false
  | _ => True
  end.

Lemma foldl_establish {A B} (P : A -> Prop) (f : A -> B -> A) (l : list B) (a : A) (b0 : B) :
  (forall a b, P a -> P (f a b)) -> (forall a, P (f a b0)) -> b0 ∈ l -> P (foldl f a l).
Proof.
  intros Hkeep Hset. revert a; induction l as [|b l IH]; intros a Hin.
  - apply elem_of_nil in Hin. destruct Hin.
  - simpl. apply elem_of_cons in Hin as [<-|Hin].
    + apply foldl_invariant; auto.
    + apply IH, Hin.
Qed.

Lemma set_cell_occupied t d s v d' s' :
  PyStrFacts.blank v = false ->
  free_slot t d' s' = false -> free_slot (set_cell t d s v) d' s' = false.
Proof.
  rewrite !free_slot_blank, get_set_cell. intros Hv H.
  destruct (decide (d' = d /\ s' = s)); assumption.
Qed.

Lemma closed_new_div_table fds dt sem div div_shift :
  dt !! (sem, div) = None ->
  closed_on_free_days fds (sem, div) div_shift
    (fst (snd (ensure_div_table fds dt sem div div_shift))).
Proof.
  intros Hnone d slot Hday Hin. simpl in Hday.
  unfold is_division_holiday in Hday. apply bool_decide_eq_true in Hday.
  unfold ensure_div_table. rewrite Hnone. simpl.
  assert (Hv : PyStrFacts.blank (holiday_text sem div) = false)
    by apply cell_text_not_blank, text_holiday.
  set (P := fun t : table => free_slot t d slot = false).
  assert (Hinner : forall (t : table) hday, P t ->
            P (foldl (fun tbl s => if is_inert s then tbl
                                   else set_cell tbl hday s (holiday_text sem div))
                 t (SHIFT_SLOTS div_shift))).
  { intros t hday Ht. apply foldl_invariant; [|exact Ht].
    intros t' s Ht'. destruct (is_inert s); [exact Ht'|].
    apply set_cell_occupied; assumption. }
  destruct (is_inert slot) eqn:Hi.
  - apply (foldl_invariant P); [intros; apply Hinner; assumption|].
    unfold P. rewrite free_slot_blank, get_cell_empty_table.
    rewrite decide_True by exact Hin. rewrite Hi.
    apply cell_text_not_blank. exact (text_inert div_shift slot Hin Hi).
  - apply (foldl_establish P) with (b0 := d); [intros; apply Hinner; assumption| |exact Hday].
    intros t. apply (foldl_establish P) with (b0 := slot); [| |exact Hin].
    + intros t' s Ht'. destruct (is_inert s); [exact Ht'|].
      apply set_cell_occupied; assumption.
    + intros t'. rewrite Hi. unfold P. rewrite free_slot_blank, get_set_cell.
      rewrite decide_True by auto. exact Hv.
Qed.

Lemma guarded_store_ensure fds plan dt sem div :
  guarded_store fds plan dt ->
  guarded_store fds plan (fst (ensure_div_table fds dt sem div (plan (sem, div)))).
Proof.
  intros Hdt key sh t. rewrite ensure_div_table_lookup.
  destruct (dt !! (sem, div)) eqn:E; [apply Hdt|].
  destruct (decide (key = (sem, div))) as [->|]; [|apply Hdt].
  intros [= <- <-]. split; [reflexivity|]. apply closed_new_div_table, E.
Qed.

Lemma fill_day_occupied t d v d' s :
  PyStrFacts.blank v = false ->
  free_slot t d' s = false -> free_slot (fill_day t d v) d' s = false.
Proof.
  rewrite !free_slot_blank. unfold get_cell. rewrite fill_day_lookup. intros Hv H.
  destruct (decide (d' = d)) as [->|]; [|exact H].
  destruct (t d !! s); simpl in *; [exact Hv|exact H].
Qed.

Lemma guarded_store_mark fds faculties dt item :
  guarded_store fds (div_shift_map faculties) dt ->
  guarded_store fds (div_shift_map faculties) (mark_free_days fds faculties dt item).
Proof.
  intros Hdt. destruct item as [[sem div] days]. unfold mark_free_days.
  pose proof (guarded_store_ensure fds (div_shift_map faculties) dt sem div Hdt) as H1.
  pose proof (ensure_div_table_result fds dt sem div (div_shift_map faculties (sem, div))) as H2.
  destruct (ensure_div_table fds dt sem div _) as [dt1 [dtbl sh]]. simpl in *.
  intros key sh' t. rewrite lookup_insert.
  destruct (decide ((sem, div) = key)) as [<-|]; [|apply H1].
  intros [= <- <-]. destruct (H1 _ _ _ H2) as [Hsh Hclosed].
  split; [exact Hsh|]. intros d slot Hday Hin.
  apply (foldl_invariant (fun t : table => free_slot t d slot = false)).
  - intros t0 d0 Ht0. apply fill_day_occupied; [|exact Ht0].
    apply cell_text_not_blank, text_holiday.
  - apply Hclosed; assumption.
Qed.

Lemma guarded_after_premarking g fds faculties :
  guarded_store fds (div_shift_map faculties)
    (dtables (after_premarking g fds faculties)).
Proof.
  simpl. unfold apply_free_day_markings_from_inputs.
  apply foldl_invariant.
  - intros. apply guarded_store_mark. assumption.
  - intros key sh t H. rewrite lookup_empty in H. discriminate.
Qed.

Lemma division_cells_pairs c :
  division_cells c = map (fun p => (division_day c, snd p)) (slot_pairs c).
Proof. destruct c; reflexivity. Qed.

(** A call that respects the plan cannot place on a free day: the slots it
    pairs are slots of the table's shift, and none of them is free there. *)
Lemma sound_cells_off_free_days fds who ftbl dtbl ps c :
  closed_on_free_days fds (t_sem who, t_div who) (t_dshift who) dtbl ->
  sound_cells fds who ftbl dtbl ps c ->
  is_division_holiday fds (t_sem who) (t_div who) (division_day c) = false.
Proof.
  intros Hclosed [_ _ Hfree Hequiv _ _].
  destruct (is_division_holiday fds (t_sem who) (t_div who) (division_day c)) eqn:Hday;
    [|reflexivity].
  rewrite division_cells_pairs in Hfree.
  assert (Hne : exists p, p ∈ slot_pairs c) by (destruct c; simpl; eexists; left).
  destruct Hne as [p Hp].
  rewrite Forall_forall in Hequiv. destruct (Hequiv p Hp) as (start & end_ & _ & Hd).
  apply canonical_inv in Hd as [Hin _].
  rewrite Forall_fmap, Forall_forall in Hfree. specialize (Hfree p Hp). simpl in Hfree.
  rewrite (Hclosed (division_day c) (snd p) Hday Hin) in Hfree. discriminate.
Qed.

Lemma keeps_occupied t t' d s :
  keeps t t' -> free_slot t d s = false -> free_slot t' d s = false.
Proof.
  rewrite !free_slot_blank. intros Hk H.
  rewrite Hk; [exact H|]. intros E. rewrite E in H. discriminate.
Qed.

Lemma plan_step_invariant fds plan w w' :
  sched_step fds (as_planned plan) w w' ->
  tidy_world w -> guarded_store fds plan (dtables w) -> Forall (off_free_days fds) (log w) ->
  guarded_store fds plan (dtables w') /\ Forall (off_free_days fds) (log w').
Proof.
  intros Hstep Ht Hg Hl.
  destruct Hstep as [w fname sh Hnew|w sem div dshift Hok
                    |w who o r locking Hplan Hpresent Hcall _].
  - split; assumption.
  - split; [|exact Hl]. rewrite Hok. apply guarded_store_ensure, Hg.
  - destruct Hpresent as [[sh t] Hk]. unfold as_planned in Hplan.
    destruct (Hg _ _ _ Hk) as [Hsh Hclosed]. rewrite <- Hplan in Hsh. subst sh.
    assert (Ed : dtbl_of w (t_sem who, t_div who) = t) by (unfold dtbl_of; rewrite Hk; reflexivity).
    destruct Ht as [Htf Htd].
    destruct (call_spec_tables _ _ _ _ _ _ (Htf _) (Htd _) Hcall) as [_ [Hkd _]].
    rewrite Ed in Hkd. split.
    + intros key sh' t'. simpl. rewrite lookup_alter.
      destruct (decide ((t_sem who, t_div who) = key)) as [<-|Hne].
      * rewrite Hk. simpl. intros [= <- <-]. split; [exact Hplan|].
        intros d slot Hday Hin. eapply keeps_occupied; [exact Hkd|]. apply Hclosed; assumption.
      * apply Hg.
    + simpl. apply Forall_app. split; [exact Hl|]. constructor; [|constructor].
      rewrite Ed in Hcall. destruct Hcall as [ps c _ Hc|].
      * rewrite (proj1 (proj2 (success_fields ps who c _ t))). simpl.
        eapply sound_cells_off_free_days; eassumption.
      * destruct locking; exact I.
Qed.

Lemma plan_run_invariant fds plan w w' :
  rtc (sched_step fds (as_planned plan)) w w' ->
  tidy_world w -> guarded_store fds plan (dtables w) -> Forall (off_free_days fds) (log w) ->
  guarded_store fds plan (dtables w') /\ Forall (off_free_days fds) (log w').
Proof.
  induction 1 as [w|w1 w2 w3 Hstep _ IH]; intros Ht Hg Hl; [auto|].
  destruct (plan_step_invariant _ _ _ _ Hstep Ht Hg Hl) as [Hg2 Hl2].
  apply IH; [|assumption|assumption].
  exact (proj1 (engine_step_invariant _ _ _ (sched_step_engine _ _ _ _ Hstep) Ht)).
Qed.

(** Free-day sanctity of the division grids, where it holds: when no
    division is named with two different shifts, no pass of a run -- lock,
    lock fallback, force, relaxed force -- writes into the division's grid
    on a free day of the division, and when the run ends every slot of such
    a day is still occupied in the division's grid.  Nothing is said of
    the faculty's grid: the relaxed force loop and the fallback loop of
    [lock_lab] pair the division's day with a day of the faculty that may
    be a free day of the division, as the forced class of the crowded run
    above shows. *)
Theorem free_days_kept_with_one_shift
    (g : generator) (fds : free_days) (faculties : list faculty) (w : world) :
  one_shift_per_division faculties ->
  main g fds faculties = Some w ->
  (forall ps who c,
     Success ps who c ∈ log w ->
     is_division_holiday fds (t_sem who) (t_div who) (division_day c) = false)
  /\ (forall key sh (t : table) d slot,
        dtables w !! key = Some (sh, t) ->
        is_division_holiday fds (fst key) (snd key) d = true ->
        slot ∈ SHIFT_SLOTS sh ->
        free_slot t d slot = false).
Proof.
  intros Hone Hrun.
  assert (Hall : Forall (planned_faculty (as_planned (div_shift_map faculties))) faculties).
  { apply Forall_forall. intros f Hf e He. apply (Hone f e Hf He). }
  pose proof (assign_all_sched fds _ faculties (after_premarking g fds faculties) w Hall Hrun)
    as Hsteps.
  destruct (plan_run_invariant _ _ _ _ Hsteps (tidy_after_premarking g fds faculties)
              (guarded_after_premarking g fds faculties) (Forall_nil_2 _)) as [Hg Hl].
  split.
  - intros ps who c Hin. rewrite Forall_forall in Hl. exact (Hl _ Hin).
  - intros key sh t d slot Hk. destruct (Hg _ _ _ Hk) as [_ Hclosed]. apply Hclosed.
Qed.

(** Monday is free for Sem 3 Div A, which one faculty teaches once a week. *)
Definition monday_run : world :=
  default blank_world (main demo_generator monday_free [morning_faculty]).

Lemma monday_run_returns :
  main demo_generator monday_free [morning_faculty] = Some monday_run.
Proof. apply some_default. vm_compute. reflexivity. Qed.

Lemma one_shift_morning_faculty : one_shift_per_division [morning_faculty].
Proof.
  intros f e Hf He. apply list_elem_of_singleton in Hf. subst f.
  apply list_elem_of_singleton in He. subst e. reflexivity.
Qed.

Lemma free_days_kept_with_one_shift_witness :
  one_shift_per_division [morning_faculty]
  /\ main demo_generator monday_free [morning_faculty] = Some monday_run
  /\ log monday_run <> []
  /\ forall ps who c,
       Success ps who c ∈ log monday_run ->
       is_division_holiday monday_free (t_sem who) (t_div who) (division_day c) = false.
Proof.
  split; [exact one_shift_morning_faculty|]. split; [exact monday_run_returns|].
  split; [vm_compute; discriminate|].
  exact (proj1 (free_days_kept_with_one_shift demo_generator monday_free [morning_faculty]
                  monday_run one_shift_morning_faculty monday_run_returns)).
Defined.

(** ** Reproducibility *)

(** The faculty tables and the division tables a request leaves. *)
Definition produced_grids (r : option (app_state * list event))
  : option (gmap string table * div_tables) :=
  (fun p => (app_ftables (fst p), app_dtables (fst p))) <$> r.

(** The faculty tables and the division tables a run ends with. *)
Definition run_grids (o : option world) : option (gmap string table * div_tables) :=
  (fun w => (ftables w, dtables w)) <$> o.

(** What [main] does after [random.seed(7)], on the generator as it then
    stands. *)
Definition scheduling (fds : free_days) (faculties : list faculty) (r : rng) : option world :=
  assign_all fds faculties
    {| ftables := ∅; dtables := apply_free_day_markings_from_inputs fds ∅ faculties;
       gen := r; log := [] |}.

(** Two generator states that will deliver the same draws. *)
Definition same_draws (r1 r2 : rng) : Prop :=
  forall i, tape r1 (pos r1 + i) = tape r2 (pos r2 + i).

Module DrawFacts.

(** The result of [F] depends on the generator through its draws only. *)
Definition draws_only {A} (F : rng -> A * rng) : Prop :=
  forall r1 r2,
    same_draws r1 r2 ->
    fst (F r1) = fst (F r2) /\ same_draws (snd (F r1)) (snd (F r2)).

Lemma randbelow_draws n : draws_only (randbelow n).
Proof.
  intros r1 r2 H. unfold randbelow. simpl. split.
  - pose proof (H 0) as H0. rewrite !Nat.add_0_r in H0. rewrite H0. reflexivity.
  - intros i. simpl. pose proof (H (S i)) as Hi. rewrite !Nat.add_succ_r in Hi. exact Hi.
Qed.

Lemma sample_loop_draws {A} todo m (pool : list A) : draws_only (sample_loop todo m pool).
Proof.
  revert m pool. induction todo as [|todo IH]; intros m pool r1 r2 H.
  - simpl. auto.
  - cbn [sample_loop].
    destruct (randbelow_draws m r1 r2 H) as [Hj Hr].
    destruct (randbelow m r1) as [j1 r1'], (randbelow m r2) as [j2 r2'].
    simpl in Hj, Hr. subst j2.
    destruct (pool !! j1) as [x|]; [|simpl; auto].
    destruct (pool !! (m - 1)) as [y|]; [|simpl; auto].
    specialize (IH (m - 1) (<[j1 := y]> pool) r1' r2' Hr).
    destruct (sample_loop todo (m - 1) _ r1') as [rest1 r1''].
    destruct (sample_loop todo (m - 1) _ r2') as [rest2 r2''].
    simpl in *. destruct IH as [-> Hr'']. auto.
Qed.

Lemma random_sample_days_draws : draws_only random_sample_days.
Proof. apply sample_loop_draws. Qed.

Lemma find_first_st_draws {A B} (body : A -> rng -> option B * rng) l :
  (forall a, draws_only (body a)) -> draws_only (find_first_st body l).
Proof.
  intros Hb. induction l as [|a l IH]; intros r1 r2 H; simpl; [auto|].
  destruct (Hb a r1 r2 H) as [Hv Hr].
  destruct (body a r1) as [v1 r1'], (body a r2) as [v2 r2']. simpl in Hv, Hr. subst v2.
  destruct v1; [simpl; auto|]. apply IH, Hr.
Qed.

Lemma lock_theory_draws fds ftbl dtbl fshift dshift fname sem div subject avoid_dup :
  draws_only (lock_theory fds ftbl dtbl fshift dshift fname sem div subject avoid_dup).
Proof.
  intros r1 r2 H. unfold lock_theory.
  destruct (random_sample_days_draws r1 r2 H) as [Hd Hr].
  destruct (random_sample_days r1) as [days1 r1'], (random_sample_days r2) as [days2 r2'].
  simpl in Hd, Hr. subst days2.
  destruct (find_first _ days1); [simpl; auto|].
  destruct (random_sample_days_draws r1' r2' Hr) as [Hd' Hr'].
  destruct (random_sample_days r1') as [days1' r1''].
  destruct (random_sample_days r2') as [days2' r2''].
  simpl in Hd', Hr'. subst days2'.
  destruct (find_first _ days1'); simpl; auto.
Qed.

Lemma lock_lab_draws fds ftbl dtbl fshift dshift fname sem div subject batch avoid_dup :
  draws_only (lock_lab fds ftbl dtbl fshift dshift fname sem div subject batch avoid_dup).
Proof.
  intros r1 r2 H. unfold lock_lab.
  destruct (random_sample_days_draws r1 r2 H) as [Hd Hr].
  destruct (random_sample_days r1) as [days1 r1'], (random_sample_days r2) as [days2 r2'].
  simpl in Hd, Hr. subst days2.
  destruct (find_first _ days1); [simpl; auto|].
  destruct (random_sample_days_draws r1' r2' Hr) as [Hd' Hr'].
  destruct (random_sample_days r1') as [fdays1 r1''].
  destruct (random_sample_days r2') as [fdays2 r2''].
  simpl in Hd', Hr'. subst fdays2.
  match goal with
  | |- context [find_first_st ?body fdays1 r1''] =>
      assert (Hloop : draws_only (find_first_st body fdays1))
  end.
  { apply find_first_st_draws. intros fday. apply find_first_st_draws.
    intros [fs1 fs2] s1 s2 Hs.
    destruct (negb (free_pair ftbl fday fs1 fs2)); [simpl; auto|].
    destruct (random_sample_days_draws s1 s2 Hs) as [Hdd Hs'].
    destruct (random_sample_days s1) as [ddays1 s1'].
    destruct (random_sample_days s2) as [ddays2 s2'].
    simpl in Hdd, Hs'. subst ddays2. simpl. auto. }
  destruct (Hloop r1'' r2'' Hr') as [Hv Hr''].
  destruct (find_first_st _ fdays1 r1'') as [v1 q1].
  destruct (find_first_st _ fdays1 r2'') as [v2 q2].
  simpl in Hv, Hr''. subst v2. destruct v1; simpl; auto.
Qed.

(** Two states of a run that differ in the generator only, which will
    deliver the same draws in both. *)
Definition same_world (w1 w2 : world) : Prop :=
  ftables w1 = ftables w2 /\ dtables w1 = dtables w2 /\ log w1 = log w2
  /\ same_draws (gen w1) (gen w2).

Definition same_state (s1 s2 : world * list task) : Prop :=
  same_world (fst s1) (fst s2) /\ snd s1 = snd s2.

Definition same_result {S} (R : S -> S -> Prop) (o1 o2 : option S) : Prop :=
  match o1, o2 with
  | Some a, Some b => R a b
  | None, None => True
  | _, _ => False
  end.

Lemma ensure_same fds sem div dshift w1 w2 :
  same_world w1 w2 -> same_world (ensure fds sem div dshift w1) (ensure fds sem div dshift w2).
Proof.
  intros (Hf & Hd & Hl & Hg). unfold ensure, set_dtables, same_world. simpl.
  rewrite Hd. auto.
Qed.

Lemma lock_step_same fds who s1 s2 :
  same_state s1 s2 -> same_state (lock_step fds who s1) (lock_step fds who s2).
Proof.
  destruct s1 as [w1 p1], s2 as [w2 p2]. intros [(Hf & Hd & Hl & Hg) Hp].
  simpl in Hf, Hd, Hl, Hg, Hp. subst p2. unfold lock_step, ftbl_of, dtbl_of.
  rewrite <- Hf, <- Hd.
  set (ftbl := default blank_table (ftables w1 !! t_faculty who)).
  set (dtbl := match dtables w1 !! (t_sem who, t_div who) with
               | Some payload => snd payload
               | None => blank_table
               end).
  assert (H : exists o q1 q2,
             (match t_kind who with
              | Theory => lock_theory fds ftbl dtbl (t_fshift who) (t_dshift who)
                            (t_faculty who) (t_sem who) (t_div who) (t_subject who) true
                            (gen w1)
              | Lab => lock_lab fds ftbl dtbl (t_fshift who) (t_dshift who) (t_faculty who)
                         (t_sem who) (t_div who) (t_subject who) (t_batch who) true (gen w1)
              end) = (o, q1)
             /\ (match t_kind who with
                 | Theory => lock_theory fds ftbl dtbl (t_fshift who) (t_dshift who)
                               (t_faculty who) (t_sem who) (t_div who) (t_subject who) true
                               (gen w2)
                 | Lab => lock_lab fds ftbl dtbl (t_fshift who) (t_dshift who) (t_faculty who)
                            (t_sem who) (t_div who) (t_subject who) (t_batch who) true (gen w2)
                 end) = (o, q2)
             /\ same_draws q1 q2).
  { destruct (t_kind who).
    - destruct (lock_theory_draws fds ftbl dtbl (t_fshift who) (t_dshift who) (t_faculty who)
                  (t_sem who) (t_div who) (t_subject who) true _ _ Hg) as [Ho Hq].
      destruct (lock_theory _ _ _ _ _ _ _ _ _ _ (gen w1)) as [o1 q1].
      destruct (lock_theory _ _ _ _ _ _ _ _ _ _ (gen w2)) as [o2 q2].
      simpl in Ho, Hq. subst o2. exists o1, q1, q2. auto.
    - destruct (lock_lab_draws fds ftbl dtbl (t_fshift who) (t_dshift who) (t_faculty who)
                  (t_sem who) (t_div who) (t_subject who) (t_batch who) true _ _ Hg)
        as [Ho Hq].
      destruct (lock_lab _ _ _ _ _ _ _ _ _ _ _ (gen w1)) as [o1 q1].
      destruct (lock_lab _ _ _ _ _ _ _ _ _ _ _ (gen w2)) as [o2 q2].
      simpl in Ho, Hq. subst o2. exists o1, q1, q2. auto. }
  destruct H as (o & q1 & q2 & -> & -> & Hq).
  split; [|reflexivity]. unfold commit, same_world. simpl. rewrite Hf, Hd, Hl. auto.
Qed.

Lemma force_step_same fds who w1 w2 :
  same_world w1 w2 -> same_world (force_step fds w1 who) (force_step fds w2 who).
Proof.
  intros H. apply (ensure_same fds (t_sem who) (t_div who) (t_dshift who)) in H.
  destruct H as (Hf & Hd & Hl & Hg).
  unfold force_step, commit, same_world, ftbl_of, dtbl_of. cbv zeta.
  rewrite <- Hf, <- Hd, <- Hl. repeat split; try reflexivity. exact Hg.
Qed.

Lemma iter_same {S} (R : S -> S -> Prop) (f : S -> S) n s1 s2 :
  (forall a b, R a b -> R (f a) (f b)) -> R s1 s2 -> R (Nat.iter n f s1) (Nat.iter n f s2).
Proof. intros Hf H. induction n as [|n IH]; simpl; auto. Qed.

Lemma foldl_same {S A} (R : S -> S -> Prop) (f : S -> A -> S) l s1 s2 :
  (forall x a b, R a b -> R (f a x) (f b x)) -> R s1 s2 -> R (foldl f s1 l) (foldl f s2 l).
Proof. intros Hf. revert s1 s2. induction l as [|x l IH]; simpl; auto. Qed.

Lemma for_each_same {S A} (R : S -> S -> Prop) (body : A -> S -> option S) l s1 s2 :
  (forall x a b, R a b -> same_result R (body x a) (body x b)) ->
  R s1 s2 -> same_result R (for_each body l s1) (for_each body l s2).
Proof.
  intros Hb. revert s1 s2. induction l as [|x l IH]; intros s1 s2 H; simpl; [exact H|].
  specialize (Hb x s1 s2 H).
  destruct (body x s1) as [a|], (body x s2) as [b|]; simpl in Hb; try contradiction; auto.
Qed.

Lemma lab_entry_same fds f e s1 s2 :
  same_state s1 s2 -> same_result same_state (lab_entry fds f e s1) (lab_entry fds f e s2).
Proof.
  intros [Hw Hp]. unfold lab_entry.
  destruct (if negb (Batches_Grouped e) then _ else _) as [batches|]; [|exact I].
  simpl. apply foldl_same.
  - intros batch a b Hab. apply iter_same; [|exact Hab].
    intros a' b'. apply lock_step_same.
  - split; [apply ensure_same, Hw|exact Hp].
Qed.

Lemma theory_entry_same fds f e s1 s2 :
  same_state s1 s2 -> same_state (theory_entry fds f e s1) (theory_entry fds f e s2).
Proof.
  intros [Hw Hp]. unfold theory_entry. apply iter_same.
  - intros a b. apply lock_step_same.
  - split; [apply ensure_same, Hw|exact Hp].
Qed.

Lemma lock_phase_same fds f w1 w2 :
  same_world w1 w2 -> same_result same_state (lock_phase fds f w1) (lock_phase fds f w2).
Proof.
  intros Hw. unfold lock_phase.
  match goal with
  | |- same_result _ (match for_each _ _ (?a, _) with _ => _ end)
         (match for_each _ _ (?b, _) with _ => _ end) =>
      assert (Hstart : same_state (a, @nil task) (b, @nil task))
  end.
  { split; [|reflexivity]. destruct Hw as (Hf & Hd & Hl & Hg). simpl. rewrite <- Hf.
    destruct (ftables w1 !! Name f); unfold same_world; simpl; rewrite ?Hf; auto. }
  pose proof (for_each_same same_state (lab_entry fds f)
                (List.filter (is_kind Lab) (Subjects f)) _ _
                (fun e a b => lab_entry_same fds f e a b) Hstart) as Hlabs.
  destruct (for_each _ _ _) as [a|], (for_each _ _ _) as [b|];
    simpl in Hlabs; try contradiction; [|exact I].
  simpl. apply foldl_same; [|exact Hlabs].
  intros e a' b'. apply theory_entry_same.
Qed.

Lemma assign_subjects_same fds f w1 w2 :
  same_world w1 w2 ->
  same_result same_world (assign_subjects_for_faculty fds f w1)
    (assign_subjects_for_faculty fds f w2).
Proof.
  intros Hw. unfold assign_subjects_for_faculty.
  pose proof (lock_phase_same fds f w1 w2 Hw) as H.
  destruct (lock_phase fds f w1) as [[a p1]|], (lock_phase fds f w2) as [[b p2]|];
    simpl in H; try contradiction; [|exact I].
  destruct H as [Hab Hp]. simpl in Hab, Hp. subst p2. simpl.
  apply foldl_same; [|exact Hab]. intros who a' b'. apply force_step_same.
Qed.

Lemma scheduling_same fds faculties r1 r2 :
  same_draws r1 r2 ->
  same_result same_world (scheduling fds faculties r1) (scheduling fds faculties r2).
Proof.
  intros H. unfold scheduling, assign_all. apply for_each_same.
  - intros f a b. apply assign_subjects_same.
  - unfold same_world. simpl. auto.
Qed.

End DrawFacts.

(** A module state left by an earlier request: stale settings, stale
    tables and a generator that has been drawn from. *)
Definition stale_state : app_state :=
  {| FREE_DAY_SETTINGS := all_week_free;
     app_ftables := {[ "OLD" := full_division_table ]};
     app_dtables := {[ ("3", "A") := (Shift_8_3, full_division_table) ]};
     app_random := {| tape := fun i => i; pos := 41 |} |}.

Definition fresh_state : app_state :=
  {| FREE_DAY_SETTINGS := []; app_ftables := ∅; app_dtables := ∅; app_random := demo_rng |}.

(** The worked week scheduled once more on the generator as the first run
    left it, without seeding it again. *)
Definition unseeded_rerun : option world :=
  scheduling saturday_free [busy_faculty] (gen busy_run).

Lemma unseeded_rerun_differs : run_grids unseeded_rerun <> run_grids (Some busy_run).
Proof.
  intros H.
  pose (cell := fun o : option (gmap string table * div_tables) =>
                  (fun p => get_cell (default blank_table (fst p !! "RK")) Mon "8-8:45")
                    <$> o).
  assert (E : cell (run_grids unseeded_rerun) = cell (run_grids (Some busy_run)))
    by (rewrite H; reflexivity).
  vm_compute in E. discriminate.
Qed.

(** C9. Reproducibility, and what it rests on.  The scheduling loop draws
    from the process-wide generator, and its grids depend on the draws: the
    same plan scheduled again on the generator as a first run left it gets
    a different timetable.  Its grids depend on nothing else of the
    generator: two runs of the loop on the same plan and free-day settings
    whose generators will deliver the same draws end with the same faculty
    grids and the same division grids, every cell equal.  Both entry
    points put the generator into the state of seed 7 before the loop:
    [main] is the loop on the freshly seeded generator, and the grids of a
    request do not depend on the module state the request finds -- stale
    grids, stale settings, a generator drawn from -- so that the same
    request served again, from the state the first one left, builds the
    same grids. *)
Theorem runs_are_reproducible :
  (forall fds faculties r1 r2,
      same_draws r1 r2 ->
      run_grids (scheduling fds faculties r1) = run_grids (scheduling fds faculties r2))
  /\ (forall g fds faculties,
        main g fds faculties = scheduling fds faculties (random_seed g 7))
  /\ (forall g faculties st1 st2,
        produced_grids (generate g faculties st1) = produced_grids (generate g faculties st2))
  /\ (forall g faculties st st' l,
        generate g faculties st = Some (st', l) ->
        generate g faculties st' = Some (st', l))
  /\ (exists g fds faculties w,
        main g fds faculties = Some w
        /\ run_grids (scheduling fds faculties (gen w)) <> run_grids (Some w)).
Proof.
  split; [|split; [|split; [|split]]].
  - intros fds faculties r1 r2 H.
    pose proof (DrawFacts.scheduling_same fds faculties r1 r2 H) as Hs.
    destruct (scheduling fds faculties r1) as [w1|], (scheduling fds faculties r2) as [w2|];
      simpl in Hs; try contradiction; [|reflexivity].
    destruct Hs as (Hf & Hd & _). simpl. rewrite Hf, Hd. reflexivity.
  - reflexivity.
  - intros g faculties st1 st2. unfold generate.
    destruct faculties as [|f faculties]; reflexivity.
  - intros g faculties st st' l. unfold generate.
    destruct faculties as [|f faculties].
    + intros [= <- <-]. reflexivity.
    + destruct (init_tables _ _) as [ft dt].
      destruct (assign_all _ _ _) as [w|]; [|discriminate].
      intros [= <- <-]. reflexivity.
  - exists demo_generator, saturday_free, [busy_faculty], busy_run.
    split; [exact busy_run_returns|exact unseeded_rerun_differs].
Qed.

(** The state of seed 7 after three draws that were put back: another
    record, the same draws. *)
Definition rewound_rng : rng :=
  {| tape := fun i => demo_generator 7%Z (i - 3); pos := 3 |}.

Lemma runs_are_reproducible_witness :
  run_grids (scheduling saturday_free [busy_faculty] rewound_rng) = run_grids (Some busy_run)
  /\ produced_grids (generate demo_generator [busy_faculty] stale_state)
     = produced_grids (generate demo_generator [busy_faculty] fresh_state)
  /\ returned (generate demo_generator [busy_faculty] stale_state) = true.
Proof.
  destruct runs_are_reproducible as (Hdraws & Hmain & Hstate & _).
  split; [|split].
  - rewrite <- busy_run_returns, Hmain. apply Hdraws.
    intros i. simpl. f_equal. lia.
  - apply Hstate.
  - vm_compute. reflexivity.
Defined.

(** ** Worked requests *)

(** The same week asked for through the request handler, which finds no
    free day in the request. *)
Definition busy_request : app_state * list event :=
  default (stale_state, []) (generate demo_generator [busy_faculty] stale_state).

Lemma busy_request_returns :
  generate demo_generator [busy_faculty] stale_state
  = Some (fst busy_request, snd busy_request).
Proof.
  rewrite <- surjective_pairing. apply some_default. vm_compute. reflexivity.
Qed.

(** A request that names the free days of Sem 5 Div B twice. *)
Definition with_holidays (e : subject_entry) (days : list day) : subject_entry :=
  {| Type_ := Type_ e; Semester := Semester e; Division := Division e;
     Div_Shift := Div_Shift e; Subject := Subject e; Num_Labs := Num_Labs e;
     Batches := Batches e; Batches_Grouped := Batches_Grouped e;
     Theory_Classes := Theory_Classes e; Holidays := days |}.

Definition first_entry : subject_entry :=
  with_holidays (demo_theory "5" "b" Shift_8_3 "OS" 2) [Mon].

Definition second_entry : subject_entry :=
  with_holidays (demo_theory "5" "B" Shift_8_3 "DB" 2) [Sat].

Definition twice_faculty : faculty :=
  {| Name := "RK"; Shift := Shift_8_3; Subjects := [first_entry; second_entry] |}.

(** ** Substrings *)

Module SubstringFacts.
Import PyStr PyStrFacts.

Lemma prefix_app a b : String.prefix a (a +:+ b) = true.
Proof.
  induction a as [|c a IH]; simpl; [destruct b; reflexivity|].
  destruct (ascii_dec c c); [exact IH|congruence].
Qed.

Lemma contains_here n b : contains n (n +:+ b) = true.
Proof.
  pose proof (prefix_app n b) as H.
  destruct (n +:+ b); cbn [contains]; rewrite H; reflexivity.
Qed.

Lemma contains_app a n b : contains n (a +:+ (n +:+ b)) = true.
Proof.
  induction a as [|c a IH]; [exact (contains_here n b)|].
  change (String c a +:+ (n +:+ b)) with (String c (a +:+ (n +:+ b))).
  cbn [contains]. rewrite IH. apply orb_true_r.
Qed.

Lemma map_chars_app f a b : map_chars f (a +:+ b) = map_chars f a +:+ map_chars f b.
Proof. induction a as [|c a IH]; simpl; [reflexivity|]. rewrite IH. reflexivity. Qed.

Lemma lstrip_suffix s : exists pre, s = pre +:+ lstrip s.
Proof.
  induction s as [|c s [pre IH]]; [exists ""; reflexivity|]. simpl.
  destruct (is_space c).
  - exists (String c pre). simpl. rewrite <- IH. reflexivity.
  - exists "". reflexivity.
Qed.

Lemma rstrip_prefix s : exists post, s = rstrip s +:+ post.
Proof.
  unfold rstrip. destruct (lstrip_suffix (rev s)) as [pre H].
  exists (rev pre). rewrite <- rev_app, <- H, rev_involutive. reflexivity.
Qed.

(** [s.strip()] is a piece of [s]. *)
Lemma strip_infix s : exists pre post, s = pre +:+ (strip s +:+ post).
Proof.
  unfold strip. destruct (lstrip_suffix s) as [pre H1].
  destruct (rstrip_prefix (lstrip s)) as [post H2].
  exists pre, post. rewrite <- H2. exact H1.
Qed.

(** A text that begins with [s] contains [s.strip().lower()] once it is
    lowered. *)
Lemma contains_lower_strip s rest :
  contains (lower (strip s)) (lower (s +:+ rest)) = true.
Proof.
  destruct (strip_infix s) as (pre & post & H).
  rewrite H at 2. unfold lower.
  rewrite !append_assoc, !map_chars_app. apply contains_app.
Qed.

Lemma map_chars_empty f s : map_chars f s = "" -> s = "".
Proof. destruct s; [reflexivity|discriminate]. Qed.

End SubstringFacts.

(** ** What the log says about the grids *)

(** The cells of a logged placement hold the texts the call wrote. *)
Definition holds_placement (who : task) (c : cells) (ftbl dtbl : table) : Prop :=
  match c with
  | TheoryCells fday fs dday ds =>
      get_cell ftbl fday fs = theory_text_f (t_subject who) (t_sem who) (t_div who)
      /\ get_cell dtbl dday ds = theory_text_d (t_subject who) (t_faculty who)
  | LabCells fday fs1 fs2 dday ds1 ds2 =>
      get_cell ftbl fday fs1
      = lab_text_f (t_subject who) (t_sem who) (t_div who) (t_batch who)
      /\ get_cell ftbl fday fs2 = "MERGE"
      /\ get_cell dtbl dday ds1 = lab_text_d (t_subject who) (t_faculty who) (t_batch who)
      /\ get_cell dtbl dday ds2 = "MERGE"
  end.

Definition recorded (w : world) : Prop :=
  forall ps who c,
    Success ps who c ∈ log w ->
    holds_placement who c (ftbl_of w (t_faculty who)) (dtbl_of w (t_sem who, t_div who)).

Lemma cell_text_nonempty v : cell_text v -> v <> "".
Proof. intros H ->. apply cell_text_not_blank in H. discriminate. Qed.

Ltac placement_nonempty :=
  apply cell_text_nonempty;
  first [apply text_theory_f | apply text_theory_d | apply text_lab_f
        | apply text_lab_d | apply text_merge].

Lemma write_cells_holds fds who ftbl dtbl ps c :
  sound_cells fds who ftbl dtbl ps c ->
  holds_placement who c (fst (write_cells who c ftbl dtbl)) (snd (write_cells who c ftbl dtbl)).
Proof.
  intros [_ _ _ _ [Hnf Hnd] _]. destruct c as [fday fs dday ds|fday fs1 fs2 dday ds1 ds2]; simpl.
  - rewrite !get_set_cell, !decide_True by auto. auto.
  - apply NoDup_cons in Hnf as [Hnf _], Hnd as [Hnd _].
    rewrite list_elem_of_singleton in Hnf, Hnd.
    rewrite !get_set_cell.
    rewrite (decide_False (P := fday = fday /\ fs1 = fs2)) by (intros [_ ->]; auto).
    rewrite (decide_False (P := dday = dday /\ ds1 = ds2)) by (intros [_ ->]; auto).
    rewrite !decide_True by auto. auto.
Qed.

Lemma holds_keeps who c ftbl dtbl ftbl' dtbl' :
  holds_placement who c ftbl dtbl -> keeps ftbl ftbl' -> keeps dtbl dtbl' ->
  holds_placement who c ftbl' dtbl'.
Proof.
  intros H Hf Hd. destruct c; simpl in *.
  - destruct H as [H1 H2]. split.
    + rewrite Hf; [exact H1|]. rewrite H1. placement_nonempty.
    + rewrite Hd; [exact H2|]. rewrite H2. placement_nonempty.
  - destruct H as (H1 & H2 & H3 & H4). repeat split.
    + rewrite Hf; [exact H1|]. rewrite H1. placement_nonempty.
    + rewrite Hf; [exact H2|]. rewrite H2. discriminate.
    + rewrite Hd; [exact H3|]. rewrite H3. placement_nonempty.
    + rewrite Hd; [exact H4|]. rewrite H4. discriminate.
Qed.

Ltac placement_blank :=
  apply cell_text_not_blank;
  first [apply text_theory_f | apply text_theory_d | apply text_lab_f
        | apply text_lab_d | apply text_merge].

Lemma holds_occupied who c ftbl dtbl :
  holds_placement who c ftbl dtbl ->
  (forall cell, cell ∈ faculty_cells c -> free_slot ftbl (fst cell) (snd cell) = false)
  /\ (forall cell, cell ∈ division_cells c -> free_slot dtbl (fst cell) (snd cell) = false).
Proof.
  intros H. destruct c; simpl in *.
  - destruct H as [H1 H2]. split; intros cell Hc; apply list_elem_of_singleton in Hc;
      subst cell; simpl; rewrite free_slot_blank.
    + rewrite H1. placement_blank.
    + rewrite H2. placement_blank.
  - destruct H as (H1 & H2 & H3 & H4). split; intros cell Hc;
      apply elem_of_cons in Hc as [->|Hc]; try apply list_elem_of_singleton in Hc;
      subst; simpl; rewrite free_slot_blank.
    + rewrite H1. placement_blank.
    + rewrite H2. reflexivity.
    + rewrite H3. placement_blank.
    + rewrite H4. reflexivity.
Qed.

Lemma sched_step_recorded fds ok w w' :
  sched_step fds ok w w' -> tidy_world w -> recorded w -> recorded w'.
Proof.
  intros Hstep Ht Hrec.
  destruct (engine_step_invariant _ _ _ (sched_step_engine _ _ _ _ Hstep) Ht) as [_ [Hmf Hmd]].
  assert (Hold : forall ps who c, Success ps who c ∈ log w ->
            holds_placement who c (ftbl_of w' (t_faculty who))
              (dtbl_of w' (t_sem who, t_div who))).
  { intros ps who c Hin. eapply holds_keeps; [exact (Hrec _ _ _ Hin)|apply Hmf|apply Hmd]. }
  destruct Hstep as [w fname sh Hnew|w sem div dshift Hok
                    |w who o r locking Hplan Hpresent Hcall _].
  - exact Hold.
  - exact Hold.
  - intros ps who' c Hin. simpl in Hin. apply elem_of_app in Hin as [Hin|Hin];
      [exact (Hold _ _ _ Hin)|].
    apply list_elem_of_singleton in Hin.
    destruct Hcall as [ps0 c0 _ Hc|]; [|destruct locking; discriminate].
    destruct (success_fields ps0 who c0 (ftbl_of w (t_faculty who))
                (dtbl_of w (t_sem who, t_div who))) as (_ & He & Hw).
    rewrite He in Hin. injection Hin as -> -> ->.
    rewrite ftbl_of_commit, dtbl_of_commit, !decide_True by auto.
    pose proof (write_cells_holds _ _ _ _ _ _ Hc) as Hh. rewrite <- Hw in Hh. exact Hh.
Qed.

(** A relation between an earlier and a later record of the log. *)
Definition pairwise (R : event -> event -> Prop) (l : list event) : Prop :=
  forall i j e1 e2, i < j -> l !! i = Some e1 -> l !! j = Some e2 -> R e1 e2.

Lemma pairwise_snoc R l e :
  pairwise R l -> (forall e1, e1 ∈ l -> R e1 e) -> pairwise R (l ++ [e]).
Proof.
  intros Hl He i j e1 e2 Hij H1 H2.
  assert (Hj : j < length (l ++ [e])) by (eapply lookup_lt_Some; exact H2).
  rewrite length_app in Hj. simpl in Hj.
  rewrite lookup_app_l in H1 by lia.
  destruct (decide (j < length l)) as [Hlt|Hge].
  - rewrite lookup_app_l in H2 by lia. exact (Hl i j e1 e2 Hij H1 H2).
  - assert (j = length l) as -> by lia.
    rewrite lookup_app_r, Nat.sub_diag in H2 by lia. injection H2 as <-.
    apply He. eapply list_elem_of_lookup_2. exact H1.
Qed.

(** What a pairwise relation needs, to hold along a run: every call relates
    the records already logged to its own. *)
Definition call_respects (fds : free_days) (R : event -> event -> Prop) : Prop :=
  forall w who o locking,
    tidy_world w -> recorded w ->
    call_spec fds who (ftbl_of w (t_faculty who)) (dtbl_of w (t_sem who, t_div who))
      locking o ->
    dup_guard who (dtbl_of w (t_sem who, t_div who)) o ->
    forall e1, e1 ∈ log w -> R e1 (out_event o).

Lemma sched_run_pairwise fds ok R w w' :
  call_respects fds R ->
  rtc (sched_step fds ok) w w' ->
  tidy_world w -> recorded w -> pairwise R (log w) ->
  recorded w' /\ pairwise R (log w').
Proof.
  intros HR. induction 1 as [w|w1 w2 w3 Hstep _ IH]; intros Ht Hrec Hp; [auto|].
  apply IH.
  - exact (proj1 (engine_step_invariant _ _ _ (sched_step_engine _ _ _ _ Hstep) Ht)).
  - eapply sched_step_recorded; eassumption.
  - destruct Hstep as [w fname sh Hnew|w sem div dshift Hok
                      |w who o r locking Hplan Hpresent Hcall Hguard]; try exact Hp.
    simpl. apply pairwise_snoc; [exact Hp|].
    eapply HR; eassumption.
Qed.

Lemma recorded_after_premarking g fds faculties : recorded (after_premarking g fds faculties).
Proof. intros ps who c Hin. simpl in Hin. apply elem_of_nil in Hin. destruct Hin. Qed.

Lemma pairwise_nil R : pairwise R [].
Proof. intros i j e1 e2 _ H. rewrite lookup_nil in H. discriminate. Qed.

(** Two placements never share a cell of a faculty grid, nor a cell of a
    division grid. *)
Definition disjoint_cells (e1 e2 : event) : Prop :=
  match e1, e2 with
  | Success _ who1 c1, Success _ who2 c2 =>
      (t_faculty who1 = t_faculty who2 ->
       forall cell, cell ∈ faculty_cells c1 -> cell ∉ faculty_cells c2)
      /\ (t_sem who1 = t_sem who2 -> t_div who1 = t_div who2 ->
          forall cell, cell ∈ division_cells c1 -> cell ∉ division_cells c2)
  | _, _ => True
  end.

Lemma calls_keep_cells_disjoint fds : call_respects fds disjoint_cells.
Proof.
  intros w who o locking Ht Hrec Hcall _ e1 Hin.
  destruct Hcall as [ps c _ Hc|]; [|destruct e1, locking; exact I].
  rewrite (proj1 (proj2 (success_fields ps who c _ _))).
  destruct e1 as [ps1 who1 c1| |]; try exact I. simpl.
  destruct (holds_occupied _ _ _ _ (Hrec _ _ _ Hin)) as [Hf Hd].
  destruct Hc as [_ Hff Hdf _ _ _]. rewrite Forall_forall in Hff, Hdf.
  split.
  - intros Hn cell H1 H2. rewrite Hn in Hf.
    specialize (Hf cell H1). specialize (Hff cell H2). congruence.
  - intros Hs Hv cell H1 H2. rewrite Hs, Hv in Hd.
    specialize (Hd cell H1). specialize (Hdf cell H2). congruence.
Qed.

(** No double booking: two placements of a run made for the same faculty
    assign different cells of its grid, and two placements made for the
    same division assign different cells of the division's grid. *)
Theorem no_double_booking
    (g : generator) (fds : free_days) (faculties : list faculty) (w : world)
    (i j : nat) (ps1 ps2 : pass) (who1 who2 : task) (c1 c2 : cells) :
  main g fds faculties = Some w ->
  i <> j ->
  log w !! i = Some (Success ps1 who1 c1) ->
  log w !! j = Some (Success ps2 who2 c2) ->
  (t_faculty who1 = t_faculty who2 ->
   forall cell, cell ∈ faculty_cells c1 -> cell ∉ faculty_cells c2)
  /\ (t_sem who1 = t_sem who2 -> t_div who1 = t_div who2 ->
      forall cell, cell ∈ division_cells c1 -> cell ∉ division_cells c2).
Proof.
  intros Hrun Hij H1 H2. apply main_sched in Hrun.
  destruct (sched_run_pairwise fds any_shift disjoint_cells _ _
              (calls_keep_cells_disjoint fds) Hrun
              (tidy_after_premarking g fds faculties)
              (recorded_after_premarking g fds faculties)
              (pairwise_nil _)) as [_ Hp].
  destruct (decide (i < j)) as [Hlt|Hge].
  - exact (Hp i j _ _ Hlt H1 H2).
  - assert (Hlt : j < i) by lia.
    destruct (Hp j i _ _ Hlt H2 H1) as [Hf Hd]. split.
    + intros Hn cell Hc1 Hc2. exact (Hf (eq_sym Hn) cell Hc2 Hc1).
    + intros Hs Hv cell Hc1 Hc2. exact (Hd (eq_sym Hs) (eq_sym Hv) cell Hc2 Hc1).
Qed.

Lemma no_double_booking_witness :
  main demo_generator saturday_free [busy_faculty] = Some busy_run
  /\ log busy_run !! 0 = Some (Success Lock (busy_lab "B1") (first_block Fri))
  /\ log busy_run !! 2 = Some (Success Lock busy_theory (first_hour Tue))
  /\ (forall cell, cell ∈ faculty_cells (first_block Fri) ->
                   cell ∉ faculty_cells (first_hour Tue))
  /\ (forall cell, cell ∈ division_cells (first_block Fri) ->
                   cell ∉ division_cells (first_hour Tue)).
Proof.
  assert (H0 : log busy_run !! 0 = Some (Success Lock (busy_lab "B1") (first_block Fri)))
    by (rewrite busy_run_log; reflexivity).
  assert (H2 : log busy_run !! 2 = Some (Success Lock busy_theory (first_hour Tue)))
    by (rewrite busy_run_log; reflexivity).
  destruct (no_double_booking demo_generator saturday_free [busy_faculty] busy_run 0 2
              Lock Lock (busy_lab "B1") busy_theory (first_block Fri) (first_hour Tue)
              busy_run_returns ltac:(lia) H0 H2) as [Hf Hd].
  split; [exact busy_run_returns|]. split; [exact H0|]. split; [exact H2|].
  split; [exact (Hf eq_refl)|exact (Hd eq_refl eq_refl)].
Defined.

Lemma recorded_in_stores (w : world) (who : task) (c : cells) :
  holds_placement who c (ftbl_of w (t_faculty who)) (dtbl_of w (t_sem who, t_div who)) ->
  exists (ftbl : table) (sh : shift) (dtbl : table),
    ftables w !! t_faculty who = Some ftbl
    /\ dtables w !! (t_sem who, t_div who) = Some (sh, dtbl)
    /\ holds_placement who c ftbl dtbl.
Proof.
  intros Hrec. unfold ftbl_of, dtbl_of in Hrec.
  destruct (ftables w !! t_faculty who) as [ftbl|] eqn:Ef.
  - destruct (dtables w !! (t_sem who, t_div who)) as [[sh dtbl]|] eqn:Ed.
    + exists ftbl, sh, dtbl. auto.
    + exfalso. destruct c; simpl in Hrec.
      * destruct Hrec as [_ H]. symmetry in H. revert H. placement_nonempty.
      * destruct Hrec as (_ & _ & _ & H). discriminate.
  - exfalso. destruct c; simpl in Hrec.
    + destruct Hrec as [H _]. symmetry in H. revert H. placement_nonempty.
    + destruct Hrec as (_ & H & _). discriminate.
Qed.

(** Every placement the log reports is in the grids the run ends with:
    the faculty's grid and the division's grid exist, and the cells named
    by the record hold the texts the call wrote. *)
Theorem placements_stay_in_grids
    (g : generator) (fds : free_days) (faculties : list faculty) (w : world)
    (ps : pass) (who : task) (c : cells) :
  main g fds faculties = Some w ->
  Success ps who c ∈ log w ->
  exists (ftbl : table) (sh : shift) (dtbl : table),
    ftables w !! t_faculty who = Some ftbl
    /\ dtables w !! (t_sem who, t_div who) = Some (sh, dtbl)
    /\ holds_placement who c ftbl dtbl.
Proof.
  intros Hrun Hin. apply main_sched in Hrun.
  destruct (sched_run_pairwise fds any_shift (fun _ _ => True) _ _
              (fun _ _ _ _ _ _ _ _ _ _ => I) Hrun
              (tidy_after_premarking g fds faculties)
              (recorded_after_premarking g fds faculties)
              (pairwise_nil _)) as [Hrec _].
  apply recorded_in_stores. exact (Hrec _ _ _ Hin).
Qed.

Lemma placements_stay_in_grids_witness :
  exists (ftbl : table) (sh : shift) (dtbl : table),
    ftables busy_run !! "RK" = Some ftbl
    /\ dtables busy_run !! ("5", "B") = Some (sh, dtbl)
    /\ holds_placement busy_theory (first_hour Tue) ftbl dtbl.
Proof.
  apply (placements_stay_in_grids demo_generator saturday_free [busy_faculty] busy_run
           Lock busy_theory (first_hour Tue)).
  - exact busy_run_returns.
  - rewrite busy_run_log. do 2 right. left.
Defined.

(** ** The duplicate guard of the lock pass *)

Lemma row_values_cell tbl d slot :
  get_cell tbl d slot <> "" -> get_cell tbl d slot ∈ row_values tbl d.
Proof.
  unfold get_cell, row_values. destruct (tbl d !! slot) as [v|] eqn:E; simpl; [|congruence].
  intros _. apply list_elem_of_fmap. exists (slot, v). split; [reflexivity|].
  apply elem_of_map_to_list. exact E.
Qed.

(** A row that holds a text beginning with the subject has the subject. *)
Lemma day_has_subject_cell tbl d slot subject rest :
  PyStr.strip subject <> "" ->
  get_cell tbl d slot = subject +:+ rest ->
  day_has_subject tbl d subject = true.
Proof.
  intros Hs Hcell. unfold day_has_subject.
  destruct (String.eqb_spec (PyStr.lower (PyStr.strip subject)) "") as [E|_].
  { apply SubstringFacts.map_chars_empty in E. contradiction. }
  apply existsb_exists. exists (subject +:+ rest). split.
  - apply list_elem_of_In. rewrite <- Hcell. apply row_values_cell.
    rewrite Hcell. intros E. destruct subject; [contradiction Hs; reflexivity|discriminate].
  - apply SubstringFacts.contains_lower_strip.
Qed.

Lemma holds_has_subject who c ftbl dtbl :
  PyStr.strip (t_subject who) <> "" ->
  holds_placement who c ftbl dtbl ->
  day_has_subject dtbl (division_day c) (t_subject who) = true.
Proof.
  intros Hs H. destruct c; simpl in *.
  - destruct H as [_ H]. eapply day_has_subject_cell; [exact Hs|exact H].
  - destruct H as (_ & _ & H & _). eapply day_has_subject_cell; [exact Hs|exact H].
Qed.

(** A placement by the first loop of a lock function is on another day
    than every earlier placement of the same subject for the division. *)
Definition spread (e1 e2 : event) : Prop :=
  match e1, e2 with
  | Success _ who1 c1, Success Lock who2 c2 =>
      t_sem who1 = t_sem who2 -> t_div who1 = t_div who2 ->
      t_subject who1 = t_subject who2 -> PyStr.strip (t_subject who2) <> "" ->
      division_day c1 <> division_day c2
  | _, _ => True
  end.

Lemma calls_spread fds : call_respects fds spread.
Proof.
  intros w who o locking Ht Hrec Hcall Hguard e1 Hin.
  destruct (out_event o) as [[| | |] who2 c2| |] eqn:Ho;
    try (destruct e1 as [? ? ?| |]; exact I).
  assert (who2 = who) as ->.
  { destruct Hcall as [ps c _ _|].
    - rewrite (proj1 (proj2 (success_fields ps who c _ _))) in Ho. congruence.
    - destruct locking; discriminate. }
  destruct e1 as [ps1 who1 c1| |]; try exact I. simpl.
  intros Hs Hv Hsub Hne Hday.
  destruct (proj1 Hguard c2 Ho) as [_ Hno].
  pose proof (Hrec _ _ _ Hin) as Hh. rewrite Hs, Hv in Hh.
  rewrite <- Hsub in Hne.
  pose proof (holds_has_subject _ _ _ _ Hne Hh) as Hyes.
  rewrite Hday, Hsub in Hyes. congruence.
Qed.

(** The duplicate guard at work: when the first loop of [lock_theory] or
    [lock_lab] places a subject for a division, no earlier placement of the
    run (by any pass) has put that subject on that day in the division's
    grid (the subject name not being blank).  The fallback loops and the
    force passes give no such guarantee. *)
Theorem lock_pass_spreads_subject
    (g : generator) (fds : free_days) (faculties : list faculty) (w : world)
    (i j : nat) (ps1 : pass) (who1 who2 : task) (c1 c2 : cells) :
  main g fds faculties = Some w ->
  i < j ->
  log w !! i = Some (Success ps1 who1 c1) ->
  log w !! j = Some (Success Lock who2 c2) ->
  t_sem who1 = t_sem who2 -> t_div who1 = t_div who2 ->
  t_subject who1 = t_subject who2 -> PyStr.strip (t_subject who2) <> "" ->
  division_day c1 <> division_day c2.
Proof.
  intros Hrun Hij H1 H2. apply main_sched in Hrun.
  destruct (sched_run_pairwise fds any_shift spread _ _ (calls_spread fds) Hrun
              (tidy_after_premarking g fds faculties)
              (recorded_after_premarking g fds faculties)
              (pairwise_nil _)) as [_ Hp].
  exact (Hp i j _ _ Hij H1 H2).
Qed.

Lemma lock_pass_spreads_subject_witness :
  log busy_run !! 0 = Some (Success Lock (busy_lab "B1") (first_block Fri))
  /\ log busy_run !! 3 = Some (Success Lock busy_theory (first_hour Thu))
  /\ division_day (first_block Fri) <> division_day (first_hour Thu).
Proof.
  assert (H0 : log busy_run !! 0 = Some (Success Lock (busy_lab "B1") (first_block Fri)))
    by (rewrite busy_run_log; reflexivity).
  assert (H3 : log busy_run !! 3 = Some (Success Lock busy_theory (first_hour Thu)))
    by (rewrite busy_run_log; reflexivity).
  split; [exact H0|]. split; [exact H3|].
  apply (lock_pass_spreads_subject demo_generator saturday_free [busy_faculty] busy_run 0 3
           Lock (busy_lab "B1") busy_theory (first_block Fri) (first_hour Thu)
           busy_run_returns ltac:(lia) H0 H3 eq_refl eq_refl eq_refl).
  vm_compute. discriminate.
Defined.

(** ** The first loop of every placement function *)

Definition primary_ok (fds : free_days) (e : event) : Prop :=
  match e with
  | Success ps who c =>
      ps = Lock \/ ps = Force ->
      faculty_day c = division_day c
      /\ is_division_holiday fds (t_sem who) (t_div who) (division_day c) = false
  | _ => True
  end.

Lemma call_spec_primary fds who ftbl dtbl locking o :
  call_spec fds who ftbl dtbl locking o -> primary_ok fds (out_event o).
Proof.
  intros [ps c _ Hc|].
  - rewrite (proj1 (proj2 (success_fields ps who c ftbl dtbl))). simpl.
    destruct Hc as [_ _ _ _ _ Hp]. exact Hp.
  - destruct locking; exact I.
Qed.

Lemma engine_run_primary fds w w' :
  rtc (engine_step fds) w w' ->
  Forall (primary_ok fds) (log w) -> Forall (primary_ok fds) (log w').
Proof.
  induction 1 as [w|w1 w2 w3 Hstep _ IH]; [auto|]. intros H. apply IH.
  destruct Hstep as [w0 fname sh _|w0 sem div dshift|w0 who o r locking Hcall]; simpl; auto.
  apply Forall_app. split; [exact H|].
  constructor; [|constructor]. eapply call_spec_primary, Hcall.
Qed.

(** Whatever the plan, a placement made by the first loop of a function
    (the records [SUCCESS] of the lock pass and [FORCE] of the force pass)
    is on the same day in both grids, and that day is not a free day of the
    division. *)
Theorem first_loops_keep_free_days
    (g : generator) (fds : free_days) (faculties : list faculty) (w : world)
    (ps : pass) (who : task) (c : cells) :
  main g fds faculties = Some w ->
  Success ps who c ∈ log w ->
  ps = Lock \/ ps = Force ->
  faculty_day c = division_day c
  /\ is_division_holiday fds (t_sem who) (t_div who) (division_day c) = false.
Proof.
  intros Hrun Hin Hps. apply main_rtc in Hrun.
  pose proof (engine_run_primary _ _ _ Hrun (Forall_nil_2 _)) as Hl.
  rewrite Forall_forall in Hl. exact (Hl _ Hin Hps).
Qed.

Lemma first_loops_keep_free_days_witness :
  faculty_day (first_block Wed) = division_day (first_block Wed)
  /\ is_division_holiday saturday_free "5" "B" (division_day (first_block Wed)) = false.
Proof.
  apply (first_loops_keep_free_days demo_generator saturday_free [busy_faculty] busy_run
           Lock (busy_lab "B2") (first_block Wed)).
  - exact busy_run_returns.
  - rewrite busy_run_log. right. left.
  - left. reflexivity.
Defined.

(** ** Free cells of a run *)

(** In the grids of a run a cell is free exactly when it is empty: the
    cells hold the empty string, a break or lunch label, the holiday
    sentinel, [MERGE] or a placement text, never white space alone. *)
Theorem run_cells_free_iff_empty
    (g : generator) (fds : free_days) (faculties : list faculty) (w : world) :
  main g fds faculties = Some w ->
  (forall fname (t : table) d slot,
     ftables w !! fname = Some t ->
     (free_slot t d slot = true <-> get_cell t d slot = ""))
  /\ (forall key sh (t : table) d slot,
        dtables w !! key = Some (sh, t) ->
        (free_slot t d slot = true <-> get_cell t d slot = "")).
Proof.
  intros Hrun. apply main_rtc in Hrun.
  destruct (engine_run_invariant _ _ _ Hrun (tidy_after_premarking g fds faculties))
    as [[Hf Hd] _].
  split.
  - intros fname t d slot Hk. specialize (Hf fname). unfold ftbl_of in Hf.
    rewrite Hk in Hf. simpl in Hf. rewrite free_slot_blank. split; [apply Hf|].
    intros ->. reflexivity.
  - intros key sh t d slot Hk. specialize (Hd key). unfold dtbl_of in Hd.
    rewrite Hk in Hd. simpl in Hd. rewrite free_slot_blank. split; [apply Hd|].
    intros ->. reflexivity.
Qed.

Lemma run_cells_free_iff_empty_witness :
  (forall fname (t : table) d slot,
     ftables busy_run !! fname = Some t ->
     (free_slot t d slot = true <-> get_cell t d slot = ""))
  /\ (forall key sh (t : table) d slot,
        dtables busy_run !! key = Some (sh, t) ->
        (free_slot t d slot = true <-> get_cell t d slot = "")).
Proof.
  exact (run_cells_free_iff_empty demo_generator saturday_free [busy_faculty] busy_run
           busy_run_returns).
Defined.

(** ** The slot labels of the two shifts *)

(** Goes through the slot labels of a shift, one case per label. *)
Ltac each_slot H :=
  simpl in H; set_unfold;
  repeat (destruct H as [->|H]); [..|destruct H].

(** Two slots of equal canonical interval carry the same label. *)
Lemma same_interval_same_label fshift dshift p :
  same_interval fshift dshift p -> fst p = snd p.
Proof.
  destruct p as [a b]. intros (s & e & Ha & Hb). simpl in *.
  destruct (canonical_inv _ _ _ Ha) as [Hina _].
  destruct (canonical_inv _ _ _ Hb) as [Hinb _].
  destruct fshift; each_slot Hina; vm_compute in Ha; injection Ha as <- <-;
    destruct dshift; each_slot Hinb; vm_compute in Hb; first [reflexivity|discriminate].
Qed.

Lemma slots_equivalent_same_label fshift fs dshift ds :
  slots_equivalent fshift fs dshift ds = true -> fs = ds.
Proof.
  intros H. exact (same_interval_same_label _ _ _ (slots_equivalent_interval _ _ _ _ H)).
Qed.

(** A slot that passed the equivalence test passes the shift-window test. *)
Lemma slots_equivalent_allowed fshift fs dshift ds :
  slots_equivalent fshift fs dshift ds = true ->
  division_slot_allowed_for_faculty fshift dshift ds = true.
Proof.
  intros H. pose proof (slots_equivalent_same_label _ _ _ _ H) as <-.
  apply slots_equivalent_interval in H as (s & e & Hf & Hd). simpl in *.
  unfold division_slot_allowed_for_faculty.
  destruct fshift, dshift; try reflexivity. cbn [bool_decide decide_rel andb].
  change (bool_decide (Shift_10_5 = Shift_10_5) && bool_decide (Shift_8_3 = Shift_8_3))
    with true. cbv iota.
  destruct (canonical_inv _ _ _ Hf) as [Hin _].
  each_slot Hin; vm_compute in Hd; first [discriminate|vm_compute; reflexivity].
Qed.

(** The shift-window guard is implied by the equivalence test that
    precedes it in every loop: it never rejects a slot, or a pair of slots,
    that the equivalence test has accepted. *)
Theorem shift_window_guard_is_implied (fshift dshift : shift) :
  (forall fs ds,
     slots_equivalent fshift fs dshift ds = true ->
     division_slot_allowed_for_faculty fshift dshift ds = true)
  /\ (forall fs1 fs2 ds1 ds2,
        pair_slots_equivalent fshift fs1 fs2 dshift ds1 ds2 = true ->
        division_pair_allowed_for_faculty fshift dshift (ds1, ds2) = true).
Proof.
  split; [intros fs ds; apply slots_equivalent_allowed|].
  intros fs1 fs2 ds1 ds2 H. unfold pair_slots_equivalent in H.
  apply andb_true_iff in H as [H1 H2].
  apply slots_equivalent_allowed in H1, H2.
  unfold division_slot_allowed_for_faculty in H1, H2.
  unfold division_pair_allowed_for_faculty. simpl.
  destruct (bool_decide (fshift = Shift_10_5) && bool_decide (dshift = Shift_8_3));
    [|reflexivity].
  rewrite H1, H2. reflexivity.
Qed.

(** In a run every placement uses, slot by slot, the same label in the
    faculty's grid and in the division's grid: in the two configured shifts
    no two labels spell the same interval differently. *)
Theorem placements_use_one_label
    (g : generator) (fds : free_days) (faculties : list faculty) (w : world)
    (ps : pass) (who : task) (c : cells) :
  main g fds faculties = Some w ->
  Success ps who c ∈ log w ->
  Forall (fun p => fst p = snd p) (slot_pairs c).
Proof.
  intros Hrun Hin. apply main_rtc in Hrun.
  pose proof (engine_run_log _ _ _ Hrun (Forall_nil_2 _)) as Hlog.
  rewrite Forall_forall in Hlog. destruct (Hlog _ Hin) as (_ & Hpairs & _).
  eapply Forall_impl; [exact Hpairs|]. intros p. apply same_interval_same_label.
Qed.

Lemma placements_use_one_label_witness :
  Forall (fun p => fst p = snd p) (slot_pairs (first_block Fri)).
Proof.
  apply (placements_use_one_label demo_generator saturday_free [busy_faculty] busy_run
           Lock (busy_lab "B1") (first_block Fri)).
  - exact busy_run_returns.
  - rewrite busy_run_log. left.
Defined.

(** The two hours of a lab block: both are teaching slots, and the second
    starts at the minute the first ends, so that a block never spans a
    break or the lunch. *)
Theorem lab_block_is_contiguous (sh : shift) (a b : string) :
  In (a, b) (consecutive_pairs_for_shift sh) ->
  is_inert a = false /\ is_inert b = false
  /\ exists start mid end_ : nat,
       canonical sh a = Some (start, mid) /\ canonical sh b = Some (mid, end_).
Proof.
  intros H. destruct sh; vm_compute in H;
    repeat (destruct H as [H|H];
            [injection H as <- <-;
             split; [reflexivity|split; [reflexivity|]];
             eexists _, _, _; split; vm_compute; reflexivity|]);
    destruct H.
Qed.

Lemma lab_block_is_contiguous_witness :
  is_inert "10:00-11:00" = false /\ is_inert "11:00-12:00" = false
  /\ exists start mid end_ : nat,
       canonical Shift_10_5 "10:00-11:00" = Some (start, mid)
       /\ canonical Shift_10_5 "11:00-12:00" = Some (mid, end_).
Proof.
  apply (lab_block_is_contiguous Shift_10_5 "10:00-11:00" "11:00-12:00").
  vm_compute. left. reflexivity.
Defined.

(** ** Free cells of a new table *)

(** In the table [empty_table_for_shift] builds, a slot of the shift is
    free exactly when it is a teaching slot, and a label the shift does not
    have reads as free (the row has no cell for it). *)
Theorem fresh_table_free_slots (sh : shift) (d : day) (slot : string) :
  free_slot (empty_table_for_shift sh) d slot
  = negb (bool_decide (slot ∈ SHIFT_SLOTS sh) && is_inert slot).
Proof.
  rewrite free_slot_blank, get_cell_empty_table.
  destruct (decide (slot ∈ SHIFT_SLOTS sh)) as [Hin|Hout].
  - rewrite bool_decide_eq_true_2 by exact Hin. simpl.
    destruct (is_inert slot) eqn:Hi; [|reflexivity].
    simpl. apply cell_text_not_blank. exact (text_inert sh slot Hin Hi).
  - rewrite bool_decide_eq_false_2 by exact Hout. reflexivity.
Qed.

(** ** Creating a division table twice *)

(** [ensure_div_table] creates the table of a division once: a second
    call, whatever shift it names, leaves the store as it is and hands back
    the table and the shift of the first call. *)
Theorem ensure_div_table_again
    (fds : free_days) (dt : div_tables) (sem div : string) (sh1 sh2 : shift) :
  ensure_div_table fds (fst (ensure_div_table fds dt sem div sh1)) sem div sh2
  = ensure_div_table fds dt sem div sh1.
Proof.
  unfold ensure_div_table. cbv zeta.
  destruct (dt !! (sem, div)) as [payload|] eqn:E; simpl.
  - rewrite E. reflexivity.
  - rewrite lookup_insert_eq. reflexivity.
Qed.

(** ** Division names *)

Module NormalizeFacts.
Import PyStr PyStrFacts.

Lemma upper_char_space c : is_space (upper_char c) = is_space c.
Proof. destruct c as [[] [] [] [] [] [] [] []]; reflexivity. Qed.

Lemma upper_char_twice c : upper_char (upper_char c) = upper_char c.
Proof. destruct c as [[] [] [] [] [] [] [] []]; reflexivity. Qed.

Lemma upper_twice s : upper (upper s) = upper s.
Proof.
  unfold upper. induction s as [|c s IH]; simpl; [reflexivity|].
  rewrite upper_char_twice, IH. reflexivity.
Qed.

Lemma spaceless_upper s : spaceless (upper s) = spaceless s.
Proof.
  unfold spaceless, upper. induction s as [|c s IH]; simpl; [reflexivity|].
  rewrite upper_char_space, IH. reflexivity.
Qed.

Lemma spaceless_remove s : spaceless (remove_if is_space s) = true.
Proof.
  unfold spaceless. induction s as [|c s IH]; simpl; [reflexivity|].
  destruct (is_space c) eqn:E; [exact IH|]. simpl. rewrite E, IH. reflexivity.
Qed.

Lemma remove_spaceless s : spaceless s = true -> remove_if is_space s = s.
Proof.
  unfold spaceless. induction s as [|c s IH]; simpl; [reflexivity|].
  intros H. apply andb_true_iff in H as [Hc Hs].
  apply negb_true_iff in Hc. rewrite Hc, (IH Hs). reflexivity.
Qed.

Lemma spaceless_normalize s : spaceless (normalize_token s) = true.
Proof. unfold normalize_token. rewrite spaceless_upper. apply spaceless_remove. Qed.

Lemma normalize_twice s : normalize_token (normalize_token s) = normalize_token s.
Proof.
  pose proof (spaceless_normalize s) as H.
  unfold normalize_token at 1.
  rewrite (strip_spaceless _ H), (remove_spaceless _ H).
  unfold normalize_token. apply upper_twice.
Qed.

End NormalizeFacts.

(** [normalize_token] is idempotent and its result has no white space; the
    holiday test, which normalises the division name it is given, answers
    the same for a name and for its normal form. *)
Theorem normalize_token_idempotent (s : string) :
  normalize_token (normalize_token s) = normalize_token s
  /\ PyStrFacts.spaceless (normalize_token s) = true
  /\ forall fds sem d,
       is_division_holiday fds sem (normalize_token s) d = is_division_holiday fds sem s d.
Proof.
  split; [apply NormalizeFacts.normalize_twice|].
  split; [apply NormalizeFacts.spaceless_normalize|].
  intros fds sem d. unfold is_division_holiday.
  rewrite NormalizeFacts.normalize_twice. reflexivity.
Qed.

(** ** When the scheduling loop raises *)

(** A lab entry whose batches are grouped and whose batch list is empty. *)
Definition no_first_batch (e : subject_entry) : Prop :=
  Type_ e = Lab /\ Batches_Grouped e = true /\ Batches e = [].

Lemma lab_entry_raises fds f e st :
  lab_entry fds f e st = None <-> Batches_Grouped e = true /\ Batches e = [].
Proof.
  unfold lab_entry. destruct (Batches_Grouped e); simpl.
  - destruct (Batches e); split; intros H; try discriminate; auto.
    destruct H; discriminate.
  - split; [discriminate|]. intros [? _]. discriminate.
Qed.

Lemma for_each_raises {A S} (body : A -> S -> option S) (bad : A -> Prop) l s :
  (forall a s, body a s = None <-> bad a) ->
  for_each body l s = None <-> exists a, a ∈ l /\ bad a.
Proof.
  intros Hb. revert s; induction l as [|a l IH]; intros s; simpl.
  - split; [discriminate|]. intros (a & Ha & _). apply elem_of_nil in Ha. destruct Ha.
  - destruct (body a s) as [s'|] eqn:E.
    + rewrite IH. split.
      * intros (a' & Ha' & Hbad). exists a'. split; [right; exact Ha'|exact Hbad].
      * intros (a' & Ha' & Hbad). apply elem_of_cons in Ha' as [->|Ha'].
        -- apply (Hb a s) in Hbad. rewrite Hbad in E. discriminate.
        -- exists a'. auto.
    + split; [|reflexivity]. intros _. exists a. split; [left|]. apply (Hb a s), E.
Qed.

Lemma lock_phase_raises fds f w :
  lock_phase fds f w = None <-> exists e, e ∈ Subjects f /\ no_first_batch e.
Proof.
  unfold lock_phase.
  set (w1 := match ftables w !! Name f with Some _ => w | None => _ end).
  pose proof (for_each_raises (lab_entry fds f)
                (fun e => Batches_Grouped e = true /\ Batches e = [])
                (List.filter (is_kind Lab) (Subjects f)) (w1, [])
                (fun a s => lab_entry_raises fds f a s)) as H.
  destruct (for_each _ _ (w1, [])) as [st|].
  - split; [discriminate|]. intros (e & He & Hk & Hbad).
    enough (Hnone : Some st = None) by discriminate.
    apply (proj2 H). exists e. split; [|exact Hbad].
    apply list_elem_of_In, filter_In. split; [apply list_elem_of_In, He|].
    unfold is_kind. apply bool_decide_eq_true. exact Hk.
  - split; [|reflexivity]. intros _. destruct (proj1 H eq_refl) as (e & He & Hbad).
    apply list_elem_of_In, filter_In in He as [He Hk].
    unfold is_kind in Hk. apply bool_decide_eq_true in Hk.
    exists e. split; [apply list_elem_of_In, He|]. split; assumption.
Qed.

Lemma assign_subjects_raises fds f w :
  assign_subjects_for_faculty fds f w = None <-> exists e, e ∈ Subjects f /\ no_first_batch e.
Proof.
  unfold assign_subjects_for_faculty. rewrite <- (lock_phase_raises fds f w).
  destruct (lock_phase fds f w) as [[w1 pending]|]; split; intros H;
    first [discriminate|reflexivity].
Qed.

Lemma main_raises g fds faculties :
  main g fds faculties = None
  <-> exists f e, f ∈ faculties /\ e ∈ Subjects f /\ no_first_batch e.
Proof.
  unfold main, assign_all.
  rewrite (for_each_raises (assign_subjects_for_faculty fds)
             (fun f => exists e, e ∈ Subjects f /\ no_first_batch e)).
  - split.
    + intros (f & Hf & e & He & Hbad). exists f, e. auto.
    + intros (f & e & Hf & He & Hbad). exists f. split; [exact Hf|]. exists e. auto.
  - intros f s. apply assign_subjects_raises.
Qed.

(** The scheduling loop of [main] raises exactly when some faculty has a
    lab entry with grouped batches and an empty batch list (the
    [IndexError] of [entry["Batches"][0]]); on every other plan it runs to
    its end.  (A plan is a list of faculty records whose entries carry the
    fields the loop reads and name one of the two configured shifts.) *)
Theorem scheduling_raises_iff
    (g : generator) (fds : free_days) (faculties : list faculty) :
  main g fds faculties = None
  <-> exists f e, f ∈ faculties /\ e ∈ Subjects f /\ no_first_batch e.
Proof. apply main_raises. Qed.

Module PrintFacts.
Import PyStr PyStrFacts ParseFacts.

Definition digit_char (k : nat) : ascii := ascii_of_nat (48 + k).

Definition two_digits (n : nat) : string :=
  String (digit_char (n / 10)) (String (digit_char (n mod 10)) EmptyString).

Lemma forallb_below (f : nat -> bool) n :
  forallb f (seq 0 n) = true -> forall k, k < n -> f k = true.
Proof.
  intros H k Hk. rewrite forallb_forall in H. apply H, in_seq. lia.
Qed.

Lemma fmt_02d_two_digits n : n < 100 -> fmt_02d n = two_digits n.
Proof.
  intros Hn. apply String.eqb_eq. revert n Hn.
  apply (forallb_below (fun n => String.eqb (fmt_02d n) (two_digits n)) 100).
  vm_compute. reflexivity.
Qed.

Lemma two_digits_ok n :
  n < 100 -> hm_digits (two_digits n) /\ int (two_digits n) = n.
Proof.
  intros Hn.
  assert (H : (is_digit (digit_char (n / 10)) && is_digit (digit_char (n mod 10))
               && (int (two_digits n) =? n)%nat) = true).
  { revert n Hn.
    apply (forallb_below
             (fun n => is_digit (digit_char (n / 10)) && is_digit (digit_char (n mod 10))
                       && (int (two_digits n) =? n)%nat) 100).
    vm_compute. reflexivity. }
  apply andb_true_iff in H as [H H3]. apply andb_true_iff in H as [H1 H2].
  split; [apply hm_two; assumption|apply Nat.eqb_eq, H3].
Qed.

Lemma fmt_endpoint m : m < 100 * 60 -> endpoint (fmt m) (m / 60) (m mod 60).
Proof.
  intros Hm.
  assert (Hh : m / 60 < 100) by (apply Nat.Div0.div_lt_upper_bound; lia).
  assert (Hmm : m mod 60 < 100) by (pose proof (Nat.mod_upper_bound m 60); lia).
  unfold fmt. rewrite (fmt_02d_two_digits _ Hh), (fmt_02d_two_digits _ Hmm).
  destruct (two_digits_ok _ Hh) as [Hd1 Hi1], (two_digits_ok _ Hmm) as [Hd2 Hi2].
  rewrite <- Hi1 at 2. rewrite <- Hi2 at 2.
  exact (endpoint_hm _ _ Hd1 Hd2).
Qed.

Lemma first_token_whole s c t :
  s = String c t -> spaceless s = true -> first_token s = Some s.
Proof.
  intros -> Hs. unfold first_token. rewrite (lstrip_spaceless _ Hs).
  assert (E : forall u, spaceless u = true -> take_token u = u).
  { induction u as [|a u IH]; [reflexivity|]. unfold spaceless. simpl.
    intros H. apply andb_true_iff in H as [Ha Hu]. apply negb_true_iff in Ha.
    rewrite Ha, (IH Hu). reflexivity. }
  rewrite (E _ Hs). reflexivity.
Qed.

(** What the parser reads from a printed minute count: a time before
    08:00 comes back as an afternoon time. *)
Definition reread (m : nat) : nat := if (m <? 480)%nat then m + 720 else m.

Lemma to_minutes_fmt m : to_minutes (m / 60) (m mod 60) = reread m.
Proof.
  unfold to_minutes, reread.
  pose proof (Nat.div_mod_eq m 60) as E.
  pose proof (Nat.mod_upper_bound m 60) as B.
  destruct (Nat.ltb_spec (m / 60) 8), (Nat.ltb_spec m 480); lia.
Qed.

Lemma canonical_to_string_parse s e :
  s < 100 * 60 -> e < 100 * 60 ->
  slot_label_to_canonical (canonical_to_string (s, e)) = inr (reread s, reread e).
Proof.
  intros Hs He. rewrite <- !to_minutes_fmt. apply parse_sound.
  exists (fmt s), (fmt e).
  pose proof (fmt_endpoint _ Hs) as H1. pose proof (fmt_endpoint _ He) as H2.
  split; [|split; assumption].
  assert (Hsp : spaceless (fmt s +:+ "-" +:+ fmt e) = true).
  { pose proof (spaceless_of_time_chars _ (endpoint_chars _ _ _ H1)) as S1'.
    pose proof (spaceless_of_time_chars _ (endpoint_chars _ _ _ H2)) as S2'.
    unfold spaceless in *. rewrite !all_chars_app, S1', S2'. reflexivity. }
  unfold canonical_to_string.
  destruct (fmt s +:+ "-" +:+ fmt e) as [|c t] eqn:E.
  - exfalso. unfold fmt in E. destruct (fmt_02d (s / 60)); discriminate.
  - rewrite <- E in *. eapply first_token_whole; [exact E|exact Hsp].
Qed.

End PrintFacts.

(** Printing and parsing back: [canonical_to_string] writes a label that
    [slot_label_to_canonical] accepts, and reads the same pair of minutes
    from it when both times are 08:00 or later and below 100 hours; a time
    before 08:00 is read back twelve hours later. *)
Theorem canonical_to_string_round_trip (s e : nat) :
  s < 100 * 60 -> e < 100 * 60 ->
  slot_label_to_canonical (canonical_to_string (s, e))
  = inr (PrintFacts.reread s, PrintFacts.reread e)
  /\ (480 <= s -> 480 <= e ->
      slot_label_to_canonical (canonical_to_string (s, e)) = inr (s, e)).
Proof.
  intros Hs He. pose proof (PrintFacts.canonical_to_string_parse s e Hs He) as H.
  split; [exact H|]. intros Hs' He'. rewrite H. unfold PrintFacts.reread.
  destruct (Nat.ltb_spec s 480), (Nat.ltb_spec e 480); try lia. reflexivity.
Qed.

Lemma canonical_to_string_round_trip_witness :
  765 < 100 * 60 /\ 825 < 100 * 60
  /\ canonical_to_string (765, 825) = "12:45-13:45"
  /\ slot_label_to_canonical (canonical_to_string (765, 825)) = inr (765, 825).
Proof.
  split; [lia|]. split; [lia|]. split; [reflexivity|].
  apply (canonical_to_string_round_trip 765 825); lia.
Defined.

Module BatchFacts.
Import PyStr PyStrFacts.

Lemma remove_all_blank s : remove_if is_space s = "" -> blank s = true.
Proof.
  unfold blank. induction s as [|c s IH]; simpl; [reflexivity|].
  destruct (is_space c); [exact IH|discriminate].
Qed.

Lemma blank_rev s : blank (rev s) = blank s.
Proof.
  unfold blank, rev. rewrite all_chars_rev_onto. simpl. apply andb_true_r.
Qed.

(** A stripped string is empty or has a character that is not white space. *)
Lemma blank_strip s : blank (strip s) = true -> strip s = "".
Proof.
  unfold strip, rstrip. rewrite blank_rev.
  destruct (lstrip (rev (lstrip s))) as [|c t] eqn:E; [reflexivity|].
  apply lstrip_head in E. unfold blank. simpl. rewrite E. discriminate.
Qed.

Lemma normalize_nonempty x : strip x <> "" -> normalize_token x <> "".
Proof.
  intros Hx H. unfold normalize_token in H.
  apply SubstringFacts.map_chars_empty, remove_all_blank, blank_strip in H. contradiction.
Qed.

Lemma remove_keeps_char (p : ascii -> bool) c s :
  p c = false -> contains (String c "") s = true -> remove_if p s <> "".
Proof.
  intros Hc. induction s as [|a s IH]; [discriminate|].
  cbn [contains String.prefix]. destruct (ascii_dec c a) as [<-|Hne].
  - intros _. simpl. rewrite Hc. discriminate.
  - simpl. intros H. destruct (p a); [apply IH, H|discriminate].
Qed.

End BatchFacts.

Lemma split_parts_ok (l : list string) :
  Forall (fun b => b <> "" /\ normalize_token b = b)
    (map normalize_token
       (List.filter (fun x => negb (String.eqb (PyStr.strip x) "")) l)).
Proof.
  apply Forall_forall. intros b Hb.
  apply list_elem_of_In, in_map_iff in Hb as (x & <- & Hx).
  apply filter_In in Hx as [_ Hx]. apply negb_true_iff in Hx.
  split; [|apply NormalizeFacts.normalize_twice].
  apply BatchFacts.normalize_nonempty. intros E. rewrite E in Hx. discriminate.
Qed.

Lemma parts_or_default_ok (parts : list string) :
  Forall (fun b => b <> "" /\ normalize_token b = b) parts ->
  let r := match parts with [] => (["B1"], false) | _ => (parts, false) end in
  snd r = false
  /\ (exists b rest, fst r = b :: rest)
  /\ Forall (fun b => b <> "" /\ normalize_token b = b) (fst r).
Proof.
  intros H. destruct parts as [|b rest]; simpl.
  - split; [reflexivity|]. split; [eauto|].
    constructor; [|constructor]. split; [discriminate|reflexivity].
  - split; [reflexivity|]. split; [eauto|exact H].
Qed.

Lemma parse_batches_cases (raw : string) :
  (parse_batches_input raw = ([PyStr.remove_blanks (PyStr.strip raw)], true)
   /\ PyStr.remove_blanks (PyStr.strip raw) <> ""
   /\ PyStr.contains "/" (PyStr.strip raw) = true
   /\ PyStr.contains "," (PyStr.strip raw) = false)
  \/ (snd (parse_batches_input raw) = false
      /\ (exists b rest, fst (parse_batches_input raw) = b :: rest)
      /\ Forall (fun b => b <> "" /\ normalize_token b = b) (fst (parse_batches_input raw))).
Proof.
  unfold parse_batches_input. cbv zeta.
  destruct (String.eqb_spec (PyStr.strip raw) "") as [E|E].
  { right. simpl. split; [reflexivity|]. split; [eauto|].
    constructor; [|constructor]. split; [discriminate|reflexivity]. }
  destruct (PyStr.contains "/" (PyStr.strip raw)) eqn:Hslash;
    [destruct (PyStr.contains "," (PyStr.strip raw)) eqn:Hcomma|]; cbn [andb negb].
  - right. apply parts_or_default_ok, split_parts_ok.
  - left. split; [reflexivity|]. split; [|auto].
    apply (BatchFacts.remove_keeps_char _ "/"%char); [reflexivity|exact Hslash].
  - right. apply parts_or_default_ok, split_parts_ok.
Qed.

(** A word of the input: not empty, with no white space and no comma in
    it; and what separates two words: a non-empty run of blanks and
    commas. *)
Definition batch_word (w : string) : Prop :=
  w <> ""
  /\ PyStr.all_chars (fun c => negb (PyStr.is_space c) && negb (Ascii.eqb c ","%char)) w
     = true.

Definition batch_separator (s : string) : Prop :=
  s <> "" /\ PyStr.all_chars blank_or_comma s = true.

(** Words written one after the other, with what separates them. *)
Fixpoint join_words (w : string) (rest : list (string * string)) : string :=
  match rest with
  | [] => w
  | (sep, w') :: rest' => w +:+ sep +:+ join_words w' rest'
  end.

Module SplitFacts.
Import PyStr PyStrFacts.

Lemma word_char_not_sep c :
  negb (is_space c) && negb (Ascii.eqb c ","%char) = true -> blank_or_comma c = false.
Proof.
  destruct c as [[] [] [] [] [] [] [] []]; vm_compute; congruence.
Qed.

Lemma re_split_nonempty sep b s : re_split_runs sep b s <> [].
Proof.
  revert b. induction s as [|c s IH]; intros b; simpl; [discriminate|].
  destruct (sep c); [destruct b; [apply IH|discriminate]|].
  destruct (re_split_runs sep false s); discriminate.
Qed.

(** A run of word characters goes to the head of the first piece. *)
Lemma split_word sep b w s :
  w <> "" -> all_chars (fun c => negb (sep c)) w = true ->
  re_split_runs sep b (w +:+ s)
  = match re_split_runs sep false s with
    | h :: t => (w +:+ h) :: t
    | [] => [w]
    end.
Proof.
  revert b. induction w as [|c w IH]; intros b Hne Hw; [congruence|].
  simpl in Hw. apply andb_true_iff in Hw as [Hc Hw]. apply negb_true_iff in Hc.
  change (String c w +:+ s) with (String c (w +:+ s)). cbn [re_split_runs]. rewrite Hc.
  destruct w as [|c' w'].
  - simpl. destruct (re_split_runs sep false s); reflexivity.
  - rewrite (IH false) by (discriminate || exact Hw).
    destruct (re_split_runs sep false s); reflexivity.
Qed.

(** Inside a run of separators nothing is cut. *)
Lemma split_in_run sep p s :
  all_chars sep p = true -> re_split_runs sep true (p +:+ s) = re_split_runs sep true s.
Proof.
  induction p as [|c p IH]; intros Hp; [reflexivity|].
  simpl in Hp. apply andb_true_iff in Hp as [Hc Hp].
  change (String c p +:+ s) with (String c (p +:+ s)). cbn [re_split_runs]. rewrite Hc.
  apply IH, Hp.
Qed.

(** A run of separators ends the piece before it. *)
Lemma split_separator sep p s :
  p <> "" -> all_chars sep p = true ->
  re_split_runs sep false (p +:+ s) = "" :: re_split_runs sep true s.
Proof.
  destruct p as [|c p]; intros Hne Hp; [congruence|].
  simpl in Hp. apply andb_true_iff in Hp as [Hc Hp].
  change (String c p +:+ s) with (String c (p +:+ s)). cbn [re_split_runs]. rewrite Hc.
  f_equal. apply split_in_run, Hp.
Qed.

(** After a separator, a word starts a new piece. *)
Lemma split_after_run sep c s :
  sep c = false -> re_split_runs sep true (String c s) = re_split_runs sep false (String c s).
Proof. intros Hc. cbn [re_split_runs]. rewrite Hc. reflexivity. Qed.

Lemma word_chars w :
  batch_word w -> w <> "" /\ all_chars (fun c => negb (blank_or_comma c)) w = true.
Proof.
  intros [Hne Hw]. split; [exact Hne|].
  eapply ParseFacts.all_chars_impl; [|exact Hw].
  intros c Hc. rewrite (word_char_not_sep c Hc). reflexivity.
Qed.

Lemma join_head w rest :
  batch_word w -> exists c s, join_words w rest = String c s /\ blank_or_comma c = false.
Proof.
  intros Hw. destruct (word_chars w Hw) as [Hne Hc].
  destruct w as [|c w]; [congruence|]. simpl in Hc.
  apply andb_true_iff in Hc as [Hc _]. apply negb_true_iff in Hc.
  destruct rest as [|[sep w'] rest]; simpl; eauto.
Qed.

Lemma split_join w rest b :
  batch_word w -> Forall (fun p => batch_separator (fst p) /\ batch_word (snd p)) rest ->
  re_split_runs blank_or_comma b (join_words w rest) = w :: map snd rest.
Proof.
  revert w b. induction rest as [|[sep w'] rest IH]; intros w b Hw Hrest.
  - simpl. destruct (word_chars w Hw) as [Hne Hc].
    rewrite <- (append_empty_r w) at 1. rewrite (split_word _ b w "") by assumption.
    simpl. rewrite append_empty_r. reflexivity.
  - apply Forall_cons in Hrest as [[[Hsne Hsep] Hw'] Hrest]. simpl in Hsne, Hsep, Hw'.
    destruct (word_chars w Hw) as [Hne Hc]. cbn [join_words].
    rewrite (split_word _ b w) by assumption.
    rewrite split_separator by assumption.
    destruct (join_head w' rest Hw') as (c & s & Hj & Hcs).
    rewrite Hj, (split_after_run _ c s Hcs), <- Hj, (IH w' false Hw' Hrest).
    rewrite append_empty_r. reflexivity.
Qed.

Lemma word_spaceless w : batch_word w -> spaceless w = true.
Proof.
  intros [_ Hw]. unfold spaceless. eapply ParseFacts.all_chars_impl; [|exact Hw].
  intros c Hc. apply andb_true_iff in Hc as [Hc _]. exact Hc.
Qed.

Lemma word_label w : batch_word w -> normalize_token w = upper w.
Proof.
  intros Hw. pose proof (word_spaceless w Hw) as Hs. unfold normalize_token.
  rewrite (strip_spaceless _ Hs), (NormalizeFacts.remove_spaceless _ Hs). reflexivity.
Qed.

Lemma word_kept w :
  batch_word w -> negb (String.eqb (strip w) "") = true.
Proof.
  intros Hw. rewrite (strip_spaceless _ (word_spaceless w Hw)).
  destruct Hw as [Hne _]. apply negb_true_iff, String.eqb_neq, Hne.
Qed.

Lemma words_kept (ws : list string) :
  Forall batch_word ws ->
  map normalize_token (List.filter (fun x => negb (String.eqb (strip x) "")) ws)
  = map upper ws.
Proof.
  induction 1 as [|w ws Hw _ IH]; [reflexivity|].
  cbn [List.filter]. rewrite (word_kept w Hw). cbn [map].
  rewrite (word_label w Hw), IH. reflexivity.
Qed.

Lemma parse_words raw w rest :
  strip raw = join_words w rest ->
  batch_word w -> Forall (fun p => batch_separator (fst p) /\ batch_word (snd p)) rest ->
  contains "/" (strip raw) = false \/ contains "," (strip raw) = true ->
  parse_batches_input raw = (upper w :: map (fun p => upper (snd p)) rest, false).
Proof.
  intros Hraw Hw Hrest Hplain. unfold parse_batches_input. cbv zeta.
  assert (Hne : strip raw <> "").
  { rewrite Hraw. destruct (join_head w rest Hw) as (c & s & -> & _). discriminate. }
  apply String.eqb_neq in Hne. rewrite Hne.
  assert (Hg : contains "/" (strip raw) && negb (contains "," (strip raw)) = false).
  { destruct Hplain as [-> | ->]; [reflexivity|apply andb_false_r]. }
  rewrite Hg, Hraw, (split_join w rest false Hw Hrest).
  rewrite (words_kept (w :: map snd rest)).
  - simpl. rewrite map_map. reflexivity.
  - constructor; [exact Hw|]. apply Forall_forall. intros x Hx.
    apply list_elem_of_In, in_map_iff in Hx as (p & <- & Hp).
    rewrite Forall_forall in Hrest. apply list_elem_of_In in Hp. apply (Hrest p Hp).
Qed.

End SplitFacts.

(** What [parse_batches_input] returns, on ASCII text.  An input that is
    empty or white space gives the one label [B1], not grouped.  An input
    with a slash and no comma gives one label, the stripped input without
    its blanks, marked as grouped.  An input made of words separated by
    blanks and commas (with a comma somewhere, or no slash at all) gives
    the words in upper case, in their order, not grouped.  In every case
    the list has a first label and no label is empty. *)
Theorem batch_labels_from_input (raw : string) :
  ascii_text raw ->
  (PyStr.strip raw = "" -> parse_batches_input raw = (["B1"], false))
  /\ (PyStr.contains "/" (PyStr.strip raw) = true ->
      PyStr.contains "," (PyStr.strip raw) = false ->
      parse_batches_input raw = ([PyStr.remove_blanks (PyStr.strip raw)], true))
  /\ (forall w rest,
        PyStr.strip raw = join_words w rest ->
        batch_word w ->
        Forall (fun p => batch_separator (fst p) /\ batch_word (snd p)) rest ->
        PyStr.contains "/" (PyStr.strip raw) = false
        \/ PyStr.contains "," (PyStr.strip raw) = true ->
        parse_batches_input raw = (PyStr.upper w :: map (fun p => PyStr.upper (snd p)) rest,
                                   false))
  /\ (exists b rest, fst (parse_batches_input raw) = b :: rest)
  /\ Forall (fun b => b <> "") (fst (parse_batches_input raw)).
Proof.
  intros _. split; [|split; [|split; [|split]]].
  - intros E. unfold parse_batches_input. cbv zeta. rewrite E. reflexivity.
  - intros Hslash Hcomma. unfold parse_batches_input. cbv zeta.
    destruct (String.eqb_spec (PyStr.strip raw) "") as [E|E].
    + rewrite E in Hslash. discriminate.
    + rewrite Hslash, Hcomma. reflexivity.
  - apply SplitFacts.parse_words.
  - destruct (parse_batches_cases raw) as [(-> & _)|(_ & H & _)]; [simpl; eauto|exact H].
  - destruct (parse_batches_cases raw) as [(-> & Hne & _)|(_ & _ & H)].
    + simpl. constructor; [exact Hne|constructor].
    + eapply Forall_impl; [exact H|]. intros b [Hb _]. exact Hb.
Qed.

Lemma batch_labels_from_input_witness :
  parse_batches_input "  b1, b2 ,b3 " = (["B1"; "B2"; "B3"], false)
  /\ parse_batches_input " a1 / a2 " = (["a1/a2"], true)
  /\ parse_batches_input "   " = (["B1"], false).
Proof.
  split; [|split].
  - apply (proj1 (proj2 (proj2 (batch_labels_from_input "  b1, b2 ,b3 " eq_refl)))
             "b1" [(", ", "b2"); (" ,", "b3")]).
    + reflexivity.
    + split; [discriminate|reflexivity].
    + repeat constructor; discriminate.
    + right. reflexivity.
  - apply (proj1 (proj2 (batch_labels_from_input " a1 / a2 " eq_refl))); reflexivity.
  - apply (proj1 (batch_labels_from_input "   " eq_refl)). reflexivity.
Defined.

(** A plan whose lab entries carry the batches [parse_batches_input]
    returned, as the interactive collector builds them, never makes the
    scheduling loop raise. *)
Theorem collected_batches_never_raise
    (g : generator) (fds : free_days) (faculties : list faculty) :
  (forall f e, f ∈ faculties -> e ∈ Subjects f -> Type_ e = Lab ->
     exists raw, (Batches e, Batches_Grouped e) = parse_batches_input raw) ->
  is_Some (main g fds faculties).
Proof.
  intros Hall. destruct (main g fds faculties) as [w|] eqn:E; [eauto|].
  apply main_raises in E as (f & e & Hf & He & Hk & Hg & Hb).
  destruct (Hall f e Hf He Hk) as [raw Hraw]. rewrite Hg, Hb in Hraw.
  destruct (parse_batches_cases raw) as [(H & _)|(_ & (b & rest & H) & _)].
  - rewrite H in Hraw. discriminate.
  - rewrite <- Hraw in H. discriminate.
Qed.

Lemma collected_batches_never_raise_witness :
  parse_batches_input "b1, b2" = (["B1"; "B2"], false)
  /\ is_Some (main demo_generator saturday_free [busy_faculty]).
Proof.
  split; [vm_compute; reflexivity|].
  apply (collected_batches_never_raise demo_generator saturday_free [busy_faculty]).
  intros f e Hf He Hlab. apply list_elem_of_singleton in Hf. subst f.
  apply list_elem_of_In in He. destruct He as [<-|[<-|[]]]; [discriminate Hlab|].
  exists "b1, b2". vm_compute. reflexivity.
Defined.

(** ** The rows of the summary *)

(** The sessions an entry asks for, as the summary counts them. *)
Definition sessions (s : subject_entry) : nat :=
  match Type_ s with
  | Theory => Theory_Classes s
  | Lab => lab_blocks s
  end.

(** The lock calls the scheduling loop makes for an entry. *)
Definition lock_calls (s : subject_entry) : nat :=
  match Type_ s with
  | Theory => Theory_Classes s
  | Lab => Num_Labs s * length (if Batches_Grouped s then take 1 (Batches s) else Batches s)
  end.

Module SummaryFacts.

Definition index_total (idx : subj_index) : nat :=
  sum_list (map (fun item => fst (snd item) + snd (snd item)) idx).

Lemma bump_total key dt dl idx :
  index_total (bump key dt dl idx) = index_total idx + (dt + dl).
Proof.
  unfold index_total. induction idx as [|[k [t l]] rest IH]; simpl; [lia|].
  destruct (decide (k = key)); simpl; [lia|]. rewrite IH. lia.
Qed.

Lemma bump_keys key dt dl idx :
  map fst (bump key dt dl idx)
  = if decide (key ∈ map fst idx) then map fst idx else map fst idx ++ [key].
Proof.
  induction idx as [|[k [t l]] rest IH].
  - destruct (decide (key ∈ map fst [])) as [H|_]; [|reflexivity].
    apply elem_of_nil in H. destruct H.
  - cbn [bump map fst]. destruct (decide (k = key)) as [->|Hne]; cbn [map fst].
    + destruct (decide (key ∈ key :: map fst rest)) as [_|H]; [reflexivity|].
      destruct H. left.
    + rewrite IH. destruct (decide (key ∈ map fst rest)) as [Hin|Hout];
        destruct (decide (key ∈ k :: map fst rest)) as [Hin'|Hout']; try reflexivity.
      * destruct Hout'. right. exact Hin.
      * apply elem_of_cons in Hin' as [->|H]; [congruence|contradiction].
Qed.

Lemma bump_NoDup key dt dl idx : NoDup (map fst idx) -> NoDup (map fst (bump key dt dl idx)).
Proof.
  intros H. rewrite bump_keys. destruct (decide (key ∈ map fst idx)); [exact H|].
  apply NoDup_app. split; [exact H|]. split; [|apply NoDup_singleton].
  intros x Hx Hk. apply list_elem_of_singleton in Hk. subst. contradiction.
Qed.

Lemma count_total idx s : index_total (count_entry idx s) = index_total idx + sessions s.
Proof.
  unfold count_entry, sessions. destruct (Type_ s); rewrite bump_total; lia.
Qed.

Lemma count_NoDup idx s : NoDup (map fst idx) -> NoDup (map fst (count_entry idx s)).
Proof. unfold count_entry. destruct (Type_ s); apply bump_NoDup. Qed.

Lemma index_of_entries l idx :
  index_total (foldl count_entry idx l) = index_total idx + sum_list (map sessions l)
  /\ (NoDup (map fst idx) -> NoDup (map fst (foldl count_entry idx l))).
Proof.
  revert idx; induction l as [|s l IH]; intros idx; simpl; [split; [lia|auto]|].
  destruct (IH (count_entry idx s)) as [H1 H2]. split.
  - rewrite H1, count_total. lia.
  - intros H. apply H2, count_NoDup, H.
Qed.

Lemma rows_total f full :
  sum_list (map row_total (build_faculty_summary_rows f full))
  = sum_list (map sessions (Subjects f)).
Proof.
  unfold build_faculty_summary_rows. rewrite map_map.
  destruct (index_of_entries (Subjects f) []) as [H _]. simpl in H. rewrite <- H.
  unfold index_total. f_equal. apply map_ext. intros [[sem subj] [t l]]. reflexivity.
Qed.

Lemma rows_keys f full :
  map (fun r => (row_sem r, row_subject r)) (build_faculty_summary_rows f full)
  = map fst (foldl count_entry [] (Subjects f)).
Proof.
  unfold build_faculty_summary_rows. rewrite map_map.
  apply map_ext. intros [[sem subj] [t l]]. reflexivity.
Qed.

End SummaryFacts.

(** The key of an entry and of a row. *)
Definition entry_key (e : subject_entry) : string * string := (Semester e, Subject e).

Definition row_key (r : summary_row) : string * string := (row_sem r, row_subject r).

(** The elements of a list in the order they first occur. *)
Fixpoint first_occurrences {A} `{EqDecision A} (l : list A) : list A :=
  match l with
  | [] => []
  | x :: l' => x :: List.filter (fun y => negb (bool_decide (y = x))) (first_occurrences l')
  end.

(** The entries of kind [k] that have the key [key]. *)
Definition entries_of (k : kind) (key : string * string) (l : list subject_entry)
  : list subject_entry :=
  List.filter (fun e => bool_decide (Type_ e = k) && bool_decide (entry_key e = key)) l.

Module RowFacts.

Definition count_of (idx : subj_index) (key : string * string) : nat * nat :=
  match List.find (fun item => bool_decide (fst item = key)) idx with
  | Some item => snd item
  | None => (0, 0)
  end.

Lemma count_of_bump key dt dl idx k :
  count_of (bump key dt dl idx) k
  = if decide (k = key)
    then (fst (count_of idx k) + dt, snd (count_of idx k) + dl)
    else count_of idx k.
Proof.
  unfold count_of. induction idx as [|[k0 [t l]] rest IH]; simpl.
  - destruct (decide (k = key)) as [->|Hne].
    + rewrite bool_decide_eq_true_2 by reflexivity. reflexivity.
    + rewrite bool_decide_eq_false_2 by congruence. reflexivity.
  - destruct (decide (k0 = key)) as [->|Hk0]; simpl.
    + destruct (decide (k = key)) as [->|Hne].
      * rewrite bool_decide_eq_true_2 by reflexivity. reflexivity.
      * rewrite bool_decide_eq_false_2 by congruence. reflexivity.
    + destruct (decide (k0 = k)) as [->|Hk].
      * rewrite bool_decide_eq_true_2 by reflexivity.
        rewrite decide_False by congruence. reflexivity.
      * rewrite bool_decide_eq_false_2 by exact Hk. exact IH.
Qed.

Definition added (key : string * string) (l : list subject_entry) : nat * nat :=
  (sum_list (map Theory_Classes (entries_of Theory key l)),
   sum_list (map lab_blocks (entries_of Lab key l))).

Lemma count_of_entries l idx k :
  count_of (foldl count_entry idx l) k
  = (fst (count_of idx k) + fst (added k l), snd (count_of idx k) + snd (added k l)).
Proof.
  revert idx. induction l as [|e l IH]; intros idx.
  - simpl. destruct (count_of idx k). simpl. f_equal; lia.
  - cbn [foldl]. rewrite IH. unfold count_entry, added, entries_of, entry_key.
    cbn [List.filter].
    destruct (Type_ e) eqn:Ek; rewrite count_of_bump;
      destruct (decide (k = (Semester e, Subject e))) as [->|Hne]; simpl;
      rewrite ?bool_decide_eq_true_2 by reflexivity;
      rewrite ?(bool_decide_eq_false_2 ((Semester e, Subject e) = k)) by congruence;
      rewrite ?andb_false_r; simpl; f_equal; lia.
Qed.

Lemma count_of_item idx k v :
  NoDup (map fst idx) -> (k, v) ∈ idx -> count_of idx k = v.
Proof.
  unfold count_of. induction idx as [|[k0 v0] rest IH]; intros Hnd Hin.
  - apply elem_of_nil in Hin. destruct Hin.
  - simpl in Hnd. apply NoDup_cons in Hnd as [Hk0 Hnd]. simpl.
    apply elem_of_cons in Hin as [[= <- <-]|Hin].
    + rewrite bool_decide_eq_true_2 by reflexivity. reflexivity.
    + destruct (decide (k0 = k)) as [->|Hne].
      * destruct Hk0. apply list_elem_of_fmap. exists (k, v). auto.
      * rewrite bool_decide_eq_false_2 by exact Hne. apply IH; assumption.
Qed.

Definition without {A} `{EqDecision A} (seen : list A) (l : list A) : list A :=
  List.filter (fun y => negb (bool_decide (y ∈ seen))) l.

Lemma filter_twice {A} (p q : A -> bool) l :
  List.filter p (List.filter q l) = List.filter (fun x => q x && p x) l.
Proof.
  induction l as [|x l IH]; simpl; [reflexivity|].
  destruct (q x); simpl; [destruct (p x)|]; rewrite IH; reflexivity.
Qed.

Lemma keys_of_entries l idx :
  map fst (foldl count_entry idx l)
  = map fst idx ++ without (map fst idx) (first_occurrences (map entry_key l)).
Proof.
  revert idx. induction l as [|e l IH]; intros idx.
  - simpl. rewrite app_nil_r. reflexivity.
  - cbn [foldl map first_occurrences]. rewrite IH.
    assert (Hk : map fst (count_entry idx e)
                 = if decide (entry_key e ∈ map fst idx) then map fst idx
                   else map fst idx ++ [entry_key e]).
    { unfold count_entry. destruct (Type_ e); apply SummaryFacts.bump_keys. }
    rewrite Hk. unfold without. cbn [List.filter].
    destruct (decide (entry_key e ∈ map fst idx)) as [Hin|Hout].
    + rewrite bool_decide_eq_true_2 by exact Hin. simpl. f_equal.
      rewrite filter_twice. apply filter_ext. intros y.
      destruct (decide (y = entry_key e)) as [->|Hne].
      * rewrite (bool_decide_eq_true_2 (entry_key e ∈ map fst idx)) by exact Hin.
        rewrite andb_false_r. reflexivity.
      * rewrite (bool_decide_eq_false_2 (y = entry_key e)) by exact Hne. reflexivity.
    + rewrite bool_decide_eq_false_2 by exact Hout. simpl.
      rewrite <- app_assoc. simpl. do 2 f_equal.
      rewrite filter_twice. apply filter_ext. intros y.
      destruct (decide (y = entry_key e)) as [->|Hne].
      * rewrite (bool_decide_eq_true_2 (entry_key e = entry_key e)) by reflexivity.
        rewrite bool_decide_eq_true_2; [reflexivity|]. apply elem_of_app. right. left.
      * rewrite (bool_decide_eq_false_2 (y = entry_key e)) by exact Hne. simpl.
        f_equal. apply bool_decide_ext. rewrite elem_of_app, list_elem_of_singleton. tauto.
Qed.

Lemma without_nil {A} `{EqDecision A} (l : list A) : without [] l = l.
Proof.
  unfold without. induction l as [|x l IH]; [reflexivity|]. cbn [List.filter].
  destruct (bool_decide (x ∈ [])) eqn:E.
  - apply bool_decide_eq_true in E. apply elem_of_nil in E. destruct E.
  - cbn [negb]. f_equal. exact IH.
Qed.

End RowFacts.

(** The summary of a faculty.  It has one row for each (semester, subject)
    pair of the entries, in the order the pairs first occur, and no pair
    twice.  A row carries the short name and the full name of the faculty
    (the short name when there is no full name); its theory count is the
    sum of the theory classes of the theory entries of its pair, its lab
    count the sum of the blocks of the lab entries of its pair (the labs
    per week, once when the batches are grouped and once per batch, at
    least once, when they are not), and its total is the sum of the two.
    The totals add up to the sessions all the entries ask for. *)
Theorem faculty_summary_rows (f : faculty) (full_name : option string) :
  map row_key (build_faculty_summary_rows f full_name)
  = first_occurrences (map entry_key (Subjects f))
  /\ NoDup (map (fun r => (row_sem r, row_subject r))
             (build_faculty_summary_rows f full_name))
  /\ Forall (fun r => row_short r = Name f
                      /\ row_full r = default (Name f) full_name
                      /\ row_theory r
                         = sum_list (map Theory_Classes
                                       (entries_of Theory (row_key r) (Subjects f)))
                      /\ row_labs r
                         = sum_list (map lab_blocks
                                       (entries_of Lab (row_key r) (Subjects f)))
                      /\ row_total r = row_theory r + row_labs r)
       (build_faculty_summary_rows f full_name)
  /\ sum_list (map row_total (build_faculty_summary_rows f full_name))
     = sum_list (map sessions (Subjects f)).
Proof.
  assert (Hnd : NoDup (map fst (foldl count_entry [] (Subjects f)))).
  { apply (proj2 (SummaryFacts.index_of_entries (Subjects f) [])). constructor. }
  split; [|split; [|split]].
  - change (map row_key (build_faculty_summary_rows f full_name))
      with (map (fun r => (row_sem r, row_subject r))
              (build_faculty_summary_rows f full_name)).
    rewrite SummaryFacts.rows_keys, RowFacts.keys_of_entries. simpl.
    apply RowFacts.without_nil.
  - rewrite SummaryFacts.rows_keys. exact Hnd.
  - unfold build_faculty_summary_rows. apply Forall_forall. intros r Hr.
    apply list_elem_of_In, in_map_iff in Hr as ([[sem subj] [t l]] & <- & Hitem).
    apply list_elem_of_In in Hitem.
    pose proof (RowFacts.count_of_item _ _ _ Hnd Hitem) as Hc.
    rewrite RowFacts.count_of_entries in Hc. simpl in Hc.
    injection Hc as Ht Hl. unfold row_key. simpl. auto.
  - apply SummaryFacts.rows_total.
Qed.

Lemma faculty_summary_rows_witness :
  build_faculty_summary_rows busy_faculty None
  = [{| row_short := "RK"; row_full := "RK"; row_sem := "5"; row_subject := "OS";
        row_theory := 2; row_labs := 2; row_total := 4 |}]
  /\ map row_key (build_faculty_summary_rows busy_faculty None) = [("5", "OS")].
Proof.
  split; [reflexivity|].
  rewrite (proj1 (faculty_summary_rows busy_faculty None)). reflexivity.
Defined.

(** ** Lock calls and summary totals *)

Module CallFacts.

Lemma call_spec_is_lock fds who ftbl dtbl o :
  call_spec fds who ftbl dtbl true o -> is_lock (out_event o) = true.
Proof.
  intros [ps c Hps _|].
  - rewrite (proj1 (proj2 (success_fields ps who c ftbl dtbl))).
    destruct Hps as [->| ->]; reflexivity.
  - reflexivity.
Qed.

Lemma call_spec_is_force fds who ftbl dtbl o :
  call_spec fds who ftbl dtbl false o -> is_force (out_event o) = true.
Proof.
  intros [ps c Hps _|].
  - rewrite (proj1 (proj2 (success_fields ps who c ftbl dtbl))).
    destruct Hps as [->| ->]; reflexivity.
  - reflexivity.
Qed.

(** The lock records a piece of the driver adds to the log. *)
Definition adds (n : nat) (st st' : world * list task) : Prop :=
  exists evs, log (fst st') = log (fst st) ++ evs
              /\ length evs = n /\ Forall (fun e => is_lock e = true) evs.

Lemma adds_refl st : adds 0 st st.
Proof. exists []. rewrite app_nil_r. auto. Qed.

Lemma adds_trans n m a b c : adds n a b -> adds m b c -> adds (n + m) a c.
Proof.
  intros (e1 & L1 & N1 & F1) (e2 & L2 & N2 & F2). exists (e1 ++ e2).
  rewrite L2, L1, app_assoc, length_app, N1, N2. auto using Forall_app_2.
Qed.

Lemma lock_step_adds fds who st : adds 1 st (lock_step fds who st).
Proof.
  destruct st as [w pending]. unfold lock_step.
  destruct (t_kind who).
  - pose proof (lock_theory_spec fds (ftbl_of w (t_faculty who))
                  (dtbl_of w (t_sem who, t_div who)) (t_fshift who) (t_dshift who)
                  (t_faculty who) (t_sem who) (t_div who) (t_subject who) true (gen w)) as H.
    destruct (lock_theory _ _ _ _ _ _ _ _ _ _ _) as [o r]. simpl in *.
    exists [out_event o]. split; [reflexivity|]. split; [reflexivity|].
    constructor; [|constructor]. eapply call_spec_is_lock, H.
  - pose proof (lock_lab_spec fds (ftbl_of w (t_faculty who))
                  (dtbl_of w (t_sem who, t_div who)) (t_fshift who) (t_dshift who)
                  (t_faculty who) (t_sem who) (t_div who) (t_subject who) (t_batch who)
                  true (gen w)) as H.
    destruct (lock_lab _ _ _ _ _ _ _ _ _ _ _ _) as [o r]. simpl in *.
    exists [out_event o]. split; [reflexivity|]. split; [reflexivity|].
    constructor; [|constructor]. eapply call_spec_is_lock, H.
Qed.

Lemma lock_iter_adds fds who n st : adds n st (Nat.iter n (lock_step fds who) st).
Proof.
  induction n as [|n IH]; simpl; [apply adds_refl|].
  replace (S n) with (n + 1) by lia.
  eapply adds_trans; [exact IH|apply lock_step_adds].
Qed.

Lemma ensure_adds fds sem div dshift st :
  adds 0 st (ensure fds sem div dshift (fst st), snd st).
Proof. exists []. simpl. rewrite app_nil_r. auto. Qed.

Lemma theory_entry_adds fds f e st :
  adds (Theory_Classes e) st (theory_entry fds f e st).
Proof.
  unfold theory_entry.
  change (Theory_Classes e) with (0 + Theory_Classes e).
  eapply adds_trans; [apply ensure_adds|apply lock_iter_adds].
Qed.

Lemma lab_entry_adds fds f e st st' :
  lab_entry fds f e st = Some st' ->
  adds (Num_Labs e * length (if Batches_Grouped e then take 1 (Batches e) else Batches e))
    st st'.
Proof.
  unfold lab_entry.
  assert (Hb : forall batches,
            (if negb (Batches_Grouped e) then Some (Batches e)
             else match Batches e with b :: _ => Some [b] | [] => None end) = Some batches ->
            batches = if Batches_Grouped e then take 1 (Batches e) else Batches e).
  { intros batches. destruct (Batches_Grouped e); simpl.
    - destruct (Batches e); [discriminate|]. intros [= <-]. reflexivity.
    - intros [= <-]. reflexivity. }
  destruct (if negb (Batches_Grouped e) then _ else _) as [batches|]; [|discriminate].
  rewrite <- (Hb batches eq_refl). clear Hb. intros [= <-].
  assert (Hloop : forall s : world * list task,
            adds (length batches * Num_Labs e) s
              (foldl
                 (fun st batch =>
                    Nat.iter (Num_Labs e)
                      (lock_step fds
                         (lab_task (Shift f) (Div_Shift e) (Name f) (Semester e)
                            (Division e) (Subject e) batch))
                      st)
                 s batches)).
  { induction batches as [|b batches IH]; intros s; simpl; [apply adds_refl|].
    eapply adds_trans; [apply lock_iter_adds|apply IH]. }
  replace (Num_Labs e * length batches) with (0 + length batches * Num_Labs e) by lia.
  eapply adds_trans; [apply (ensure_adds fds (Semester e) (Division e) (Div_Shift e))|].
  apply Hloop.
Qed.

Lemma lock_calls_split (l : list subject_entry) :
  sum_list (map lock_calls (List.filter (is_kind Lab) l))
  + sum_list (map lock_calls (List.filter (is_kind Theory) l))
  = sum_list (map lock_calls l).
Proof.
  induction l as [|e l IH]; [reflexivity|].
  cbn [List.filter].
  change (is_kind Lab e) with (bool_decide (Type_ e = Lab)).
  change (is_kind Theory e) with (bool_decide (Type_ e = Theory)).
  destruct (Type_ e) eqn:E.
  - change (bool_decide (Theory = Lab)) with false.
    change (bool_decide (Theory = Theory)) with true.
    simpl. simpl in IH. lia.
  - change (bool_decide (Lab = Lab)) with true.
    change (bool_decide (Lab = Theory)) with false.
    simpl. simpl in IH. lia.
Qed.

Lemma lock_phase_adds fds f w st :
  lock_phase fds f w = Some st ->
  adds (sum_list (map lock_calls (Subjects f))) (w, []) st.
Proof.
  unfold lock_phase.
  set (w1 := match ftables w !! Name f with Some _ => w | None => _ end).
  assert (H1 : adds 0 (w, @nil task) (w1, [])).
  { exists []. subst w1. destruct (ftables w !! Name f); simpl; rewrite app_nil_r; auto. }
  destruct (for_each _ _ (w1, [])) as [st1|] eqn:E; [|discriminate].
  intros [= <-]. rewrite <- lock_calls_split.
  change (?a + ?b) with (0 + (a + b)).
  eapply adds_trans; [exact H1|]. eapply adds_trans.
  - revert E. generalize (w1, @nil task).
    assert (Hk : Forall (fun e => Type_ e = Lab) (List.filter (is_kind Lab) (Subjects f))).
    { apply Forall_forall. intros e He. apply list_elem_of_In, filter_In in He as [_ He].
      unfold is_kind in He. apply bool_decide_eq_true in He. exact He. }
    induction Hk as [|e l He _ IH]; intros s; simpl.
    + intros [= <-]. apply adds_refl.
    + destruct (lab_entry fds f e s) as [s'|] eqn:Ee; [|discriminate].
      intros H. eapply adds_trans; [|apply IH, H].
      unfold lock_calls. rewrite He. eapply lab_entry_adds, Ee.
  - generalize st1.
    assert (Hk : Forall (fun e => Type_ e = Theory)
                   (List.filter (is_kind Theory) (Subjects f))).
    { apply Forall_forall. intros e He. apply list_elem_of_In, filter_In in He as [_ He].
      unfold is_kind in He. apply bool_decide_eq_true in He. exact He. }
    induction Hk as [|e l He _ IH]; intros s; simpl; [apply adds_refl|].
    eapply adds_trans; [|apply IH].
    unfold lock_calls. rewrite He. apply theory_entry_adds.
Qed.

Lemma force_phase_adds fds pending w :
  exists evs, log (foldl (force_step fds) w pending) = log w ++ evs
              /\ Forall (fun e => is_force e = true) evs.
Proof.
  revert w; induction pending as [|who pending IH]; intros w; simpl.
  - exists []. rewrite app_nil_r. auto.
  - destruct (IH (force_step fds w who)) as (evs & Hl & Hf).
    assert (H1 : exists e, log (force_step fds w who) = log w ++ [e] /\ is_force e = true).
    { unfold force_step. eexists. split; [reflexivity|].
      destruct (t_kind who).
      - exact (call_spec_is_force _ _ _ _ _ (force_place_theory_spec fds _ _ _ _ _ _ _ _)).
      - exact (call_spec_is_force _ _ _ _ _ (force_place_lab_spec fds _ _ _ _ _ _ _ _ _)). }
    destruct H1 as (e & He & Hfe). exists (e :: evs).
    rewrite Hl, He, <- app_assoc. split; [reflexivity|]. constructor; assumption.
Qed.

Lemma filter_lock_all (l : list event) :
  Forall (fun e => is_lock e = true) l -> List.filter is_lock l = l.
Proof.
  induction 1 as [|e l He _ IH]; simpl; [reflexivity|]. rewrite He, IH. reflexivity.
Qed.

Lemma filter_lock_none (l : list event) :
  Forall (fun e => is_force e = true) l -> List.filter is_lock l = [].
Proof.
  induction 1 as [|e l He _ IH]; simpl; [reflexivity|].
  unfold is_lock at 1. rewrite He. simpl. exact IH.
Qed.

Lemma assign_subjects_lock_calls fds f w w' :
  assign_subjects_for_faculty fds f w = Some w' ->
  exists evs, log w' = log w ++ evs
              /\ length (List.filter is_lock evs) = sum_list (map lock_calls (Subjects f)).
Proof.
  unfold assign_subjects_for_faculty.
  destruct (lock_phase fds f w) as [[w1 pending]|] eqn:E; [|discriminate].
  intros [= <-]. apply lock_phase_adds in E as (locks & Hl & Hn & Hlocks). simpl in *.
  destruct (force_phase_adds fds pending w1) as (forces & Hl2 & Hforces).
  exists (locks ++ forces). rewrite Hl2, Hl, app_assoc. split; [reflexivity|].
  rewrite List.filter_app, (filter_lock_all _ Hlocks), (filter_lock_none _ Hforces), app_nil_r.
  exact Hn.
Qed.

Lemma lock_calls_sessions (e : subject_entry) :
  (Type_ e = Lab -> Batches e <> []) -> lock_calls e = sessions e.
Proof.
  unfold lock_calls, sessions, lab_blocks. destruct (Type_ e); [reflexivity|].
  intros H. specialize (H eq_refl).
  destruct (Batches e) as [|b bs]; [contradiction|].
  destruct (Batches_Grouped e); simpl; lia.
Qed.

End CallFacts.

(** The summary and the scheduler agree: when every lab entry of a faculty
    has at least one batch, the [Total Sessions] of the summary rows add up
    to the number of lock calls the scheduling loop makes for the faculty,
    one lock record each in the log. *)
Theorem summary_totals_count_lock_calls
    (fds : free_days) (f : faculty) (full_name : option string) (w w' : world) :
  assign_subjects_for_faculty fds f w = Some w' ->
  (forall e, e ∈ Subjects f -> Type_ e = Lab -> Batches e <> []) ->
  exists evs,
    log w' = log w ++ evs
    /\ length (List.filter is_lock evs)
       = sum_list (map row_total (build_faculty_summary_rows f full_name)).
Proof.
  intros Hrun Hb. destruct (CallFacts.assign_subjects_lock_calls _ _ _ _ Hrun) as (evs & Hl & Hn).
  exists evs. split; [exact Hl|]. rewrite Hn, SummaryFacts.rows_total.
  f_equal. apply map_ext_in. intros e He.
  apply CallFacts.lock_calls_sessions. intros Hk. apply Hb; [apply list_elem_of_In, He|exact Hk].
Qed.

Lemma summary_totals_count_lock_calls_witness :
  sum_list (map row_total (build_faculty_summary_rows busy_faculty None)) = 4
  /\ exists evs,
       log busy_week
       = log (after_premarking demo_generator saturday_free [busy_faculty]) ++ evs
       /\ length (List.filter is_lock evs)
          = sum_list (map row_total (build_faculty_summary_rows busy_faculty None)).
Proof.
  split; [vm_compute; reflexivity|].
  apply (summary_totals_count_lock_calls saturday_free busy_faculty None
           (after_premarking demo_generator saturday_free [busy_faculty]) busy_week).
  - exact busy_week_returns.
  - intros e He Hlab. apply list_elem_of_In in He.
    destruct He as [<-|[<-|[]]]; [discriminate Hlab|discriminate].
Defined.

Module SettingsFacts.

Lemma fds_get_set fds key days key' :
  fds_get (fds_set fds key days) key'
  = if decide (key = key') then days else fds_get fds key'.
Proof.
  unfold fds_get. induction fds as [|[k v] fds IH]; simpl.
  - destruct (decide (key = key')) as [->|Hne].
    + rewrite bool_decide_eq_true_2 by reflexivity. reflexivity.
    + rewrite bool_decide_eq_false_2 by exact Hne. reflexivity.
  - destruct (decide (k = key)) as [->|Hk].
    + rewrite bool_decide_eq_true_2 by reflexivity. simpl.
      destruct (decide (key = key')) as [->|Hne].
      * rewrite bool_decide_eq_true_2 by reflexivity. reflexivity.
      * rewrite !bool_decide_eq_false_2 by exact Hne. reflexivity.
    + rewrite (bool_decide_eq_false_2 (k = key)) by exact Hk. simpl.
      destruct (decide (k = key')) as [->|Hk'].
      * rewrite bool_decide_eq_true_2 by reflexivity. simpl.
        rewrite decide_False by congruence. reflexivity.
      * rewrite bool_decide_eq_false_2 by exact Hk'. exact IH.
Qed.

Lemma read_holiday_count_bound inputs n rest :
  read_holiday_count inputs = Some (n, rest) -> n <= 6.
Proof.
  induction inputs as [|line inputs IH]; simpl; [discriminate|].
  destruct (py_int (PyStr.strip line)) as [z|]; [|exact IH].
  destruct ((0 <=? z)%Z && (z <=? 6)%Z)%bool eqn:E; [|exact IH].
  intros [= <- <-]. apply andb_true_iff in E as [H0 H6].
  apply Z.leb_le in H0, H6. lia.
Qed.

Lemma read_holidays_spec n chosen inputs days rest :
  read_holidays n chosen inputs = Some (days, rest) ->
  NoDup chosen -> NoDup days /\ length days = length chosen + n.
Proof.
  revert n chosen. induction inputs as [|line inputs IH]; intros n chosen.
  - destruct n; simpl; [|discriminate]. intros [= <- <-] H. split; [exact H|lia].
  - destruct n as [|n]; [simpl; intros [= <- <-] H; split; [exact H|lia]|].
    cbn [read_holidays].
    destruct (DAYS_MAP (PyStr.strip line)) as [d|]; [|apply IH].
    destruct (bool_decide (d ∈ chosen)) eqn:E; [apply IH|].
    apply bool_decide_eq_false in E. intros H Hc.
    destruct (IH n (chosen ++ [d]) H) as [H1 H2].
    + apply NoDup_app. split; [exact Hc|]. split; [|apply NoDup_singleton].
      intros x Hx Hd. apply list_elem_of_singleton in Hd. subst. contradiction.
    + split; [exact H1|]. rewrite H2, length_app. simpl. lia.
Qed.

End SettingsFacts.

(** What the prompt records: under the key made of the semester and the
    normalised division name it stores as many days as the number the user
    gave, at most six, all different; the holiday test then answers for
    exactly these days, and the settings of every other key are as
    before. *)
Theorem prompt_records_distinct_days
    (sem div : string) (fds fds' : free_days) (inputs rest : list string) :
  ask_and_record_free_days_for_division sem div fds inputs = Some (fds', rest) ->
  exists (n : nat) (after_count : list string),
    read_holiday_count inputs = Some (n, after_count)
    /\ n <= 6
    /\ length (fds_get fds' (sem, normalize_token div)) = n
    /\ NoDup (fds_get fds' (sem, normalize_token div))
    /\ (forall d, is_division_holiday fds' sem div d = true
                  <-> d ∈ fds_get fds' (sem, normalize_token div))
    /\ (forall key, key <> (sem, normalize_token div) -> fds_get fds' key = fds_get fds key).
Proof.
  unfold ask_and_record_free_days_for_division.
  destruct (read_holiday_count inputs) as [[n after_count]|] eqn:E1; [|discriminate].
  destruct (read_holidays n [] after_count) as [[days rest']|] eqn:E2; [|discriminate].
  intros [= <- <-]. exists n, after_count.
  destruct (SettingsFacts.read_holidays_spec _ _ _ _ _ E2 (NoDup_nil_2)) as [Hnd Hlen].
  rewrite SettingsFacts.fds_get_set, decide_True by reflexivity.
  split; [reflexivity|]. split; [eapply SettingsFacts.read_holiday_count_bound, E1|].
  split; [exact Hlen|]. split; [exact Hnd|]. split.
  - intros d. unfold is_division_holiday.
    rewrite SettingsFacts.fds_get_set, decide_True by reflexivity.
    apply bool_decide_eq_true.
  - intros key Hne. rewrite SettingsFacts.fds_get_set, decide_False by congruence.
    reflexivity.
Qed.

Lemma prompt_records_distinct_days_witness :
  let typed := ["many"; "7"; " 2 "; "6"; "6"; "Mon"; "3"; "left"] in
  let fds' := [(("5", "B"), [Sat; Wed])] in
  ask_and_record_free_days_for_division "5" "b" [] typed = Some (fds', ["left"])
  /\ exists (n : nat) (after_count : list string),
       read_holiday_count typed = Some (n, after_count)
       /\ n <= 6
       /\ length (fds_get fds' ("5", normalize_token "b")) = n
       /\ NoDup (fds_get fds' ("5", normalize_token "b"))
       /\ (forall d, is_division_holiday fds' "5" "b" d = true
                     <-> d ∈ fds_get fds' ("5", normalize_token "b"))
       /\ (forall key, key <> ("5", normalize_token "b") -> fds_get fds' key = fds_get [] key).
Proof.
  intros typed fds'.
  assert (H : ask_and_record_free_days_for_division "5" "b" [] typed = Some (fds', ["left"]))
    by (vm_compute; reflexivity).
  split; [exact H|].
  exact (prompt_records_distinct_days "5" "b" [] fds' typed ["left"] H).
Defined.

(** ** The free days of a request *)

(** An entry of the request that sets free days, and the key it sets. *)
Definition sets_free_days (e : subject_entry) : Prop :=
  Semester e <> "" /\ Division e <> "" /\ Holidays e <> [].

Definition free_day_key (e : subject_entry) : string * string :=
  (Semester e, normalize_token (Division e)).

Module CollectFacts.

Definition collect_step (fds : free_days) (subj : subject_entry) : free_days :=
  if negb (String.eqb (Semester subj) "") && negb (String.eqb (Division subj) "")
     && negb (bool_decide (Holidays subj = []))
  then fds_set fds (Semester subj, normalize_token (Division subj)) (Holidays subj)
  else fds.

Lemma collect_step_sets fds e :
  sets_free_days e -> collect_step fds e = fds_set fds (free_day_key e) (Holidays e).
Proof.
  intros (Hs & Hd & Hh). unfold collect_step.
  apply String.eqb_neq in Hs, Hd. rewrite Hs, Hd.
  rewrite bool_decide_eq_false_2 by exact Hh. reflexivity.
Qed.

Lemma collect_step_other fds e key :
  (sets_free_days e -> free_day_key e <> key) ->
  fds_get (collect_step fds e) key = fds_get fds key.
Proof.
  intros H. unfold collect_step.
  destruct (String.eqb_spec (Semester e) ""); [reflexivity|].
  destruct (String.eqb_spec (Division e) ""); [reflexivity|].
  destruct (bool_decide (Holidays e = [])) eqn:E; [reflexivity|].
  apply bool_decide_eq_false in E. simpl.
  rewrite SettingsFacts.fds_get_set, decide_False; [reflexivity|].
  apply H. split; [|split]; assumption.
Qed.

Lemma collect_others l fds key :
  (forall e, e ∈ l -> sets_free_days e -> free_day_key e <> key) ->
  fds_get (foldl collect_step fds l) key = fds_get fds key.
Proof.
  revert fds; induction l as [|e l IH]; intros fds H; simpl; [reflexivity|].
  rewrite IH by (intros e' He'; apply H; right; exact He').
  apply collect_step_other, H. left.
Qed.

End CollectFacts.

(** How the request handler fills [FREE_DAY_SETTINGS]: for a key, the
    holidays of the last entry of the request that sets it (an entry with a
    semester, a division and a non-empty holiday list) are what the
    settings hold; a key that no entry sets has no free day. *)
Theorem request_free_days_last_wins
    (faculties : list faculty) (before after : list subject_entry) (e : subject_entry) :
  concat (map Subjects faculties) = before ++ e :: after ->
  sets_free_days e ->
  (forall e', e' ∈ after -> sets_free_days e' -> free_day_key e' <> free_day_key e) ->
  fds_get (collect_free_days faculties) (free_day_key e) = Holidays e
  /\ (forall key,
        (forall e', e' ∈ before ++ e :: after -> sets_free_days e' -> free_day_key e' <> key) ->
        fds_get (collect_free_days faculties) key = []).
Proof.
  intros Hl He Hafter. unfold collect_free_days.
  change (foldl _ [] (concat (map Subjects faculties)))
    with (foldl CollectFacts.collect_step [] (concat (map Subjects faculties))).
  rewrite Hl. split.
  - rewrite foldl_app. simpl.
    rewrite CollectFacts.collect_others by exact Hafter.
    rewrite (CollectFacts.collect_step_sets _ _ He), SettingsFacts.fds_get_set.
    rewrite decide_True by reflexivity. reflexivity.
  - intros key Hnone. rewrite CollectFacts.collect_others by exact Hnone. reflexivity.
Qed.

Lemma request_free_days_last_wins_witness :
  fds_get (collect_free_days [twice_faculty]) ("5", "B") = [Sat]
  /\ fds_get (collect_free_days [twice_faculty]) ("5", "b") = [].
Proof.
  destruct (request_free_days_last_wins [twice_faculty] [first_entry] [] second_entry)
    as [Hlast Hnone].
  - reflexivity.
  - split; [|split]; discriminate.
  - intros e' He'. apply elem_of_nil in He'. destruct He'.
  - split; [exact Hlast|]. apply Hnone.
    intros e' He' _. apply list_elem_of_In in He'.
    destruct He' as [<-|[<-|[]]]; vm_compute; discriminate.
Defined.

(** ** The request handler *)

Lemma generate_runs g faculties st st' l :
  generate g faculties st = Some (st', l) ->
  faculties = [] /\ l = []
  \/ exists w,
       assign_all (collect_free_days faculties) faculties (after_setup g faculties) = Some w
       /\ app_ftables st' = ftables w /\ app_dtables st' = dtables w /\ l = log w.
Proof.
  unfold generate. destruct faculties as [|f faculties]; [intros [= <- <-]; left; auto|].
  set (fs := f :: faculties). intros H. right.
  unfold after_setup. destruct (init_tables (collect_free_days fs) fs) as [ft dt]. simpl.
  destruct (assign_all _ fs _) as [w|]; [|discriminate].
  injection H as <- <-. exists w. auto.
Qed.

(** The placements of a request: no two of them share a cell of a faculty
    grid or of a division grid, and each one is in the grids the handler
    leaves for the export. *)
Theorem request_placements_are_sound
    (g : generator) (faculties : list faculty) (st st' : app_state) (l : list event) :
  generate g faculties st = Some (st', l) ->
  (forall i j ps1 who1 c1 ps2 who2 c2,
     i < j ->
     l !! i = Some (Success ps1 who1 c1) -> l !! j = Some (Success ps2 who2 c2) ->
     (t_faculty who1 = t_faculty who2 ->
      forall cell, cell ∈ faculty_cells c1 -> cell ∉ faculty_cells c2)
     /\ (t_sem who1 = t_sem who2 -> t_div who1 = t_div who2 ->
         forall cell, cell ∈ division_cells c1 -> cell ∉ division_cells c2))
  /\ (forall ps who c,
        Success ps who c ∈ l ->
        exists (ftbl : table) (sh : shift) (dtbl : table),
          app_ftables st' !! t_faculty who = Some ftbl
          /\ app_dtables st' !! (t_sem who, t_div who) = Some (sh, dtbl)
          /\ holds_placement who c ftbl dtbl).
Proof.
  intros Hgen. apply generate_runs in Hgen as [[_ ->]|(w & Hrun & -> & -> & ->)].
  { split.
    - intros i j ps1 who1 c1 ps2 who2 c2 _ H. rewrite lookup_nil in H. discriminate.
    - intros ps who c H. apply elem_of_nil in H. destruct H. }
  apply (assign_all_sched _ any_shift) in Hrun; [|apply any_shift_planned].
  destruct (sched_run_pairwise _ any_shift disjoint_cells _ _
              (calls_keep_cells_disjoint _) Hrun (tidy_after_setup g faculties))
    as [Hrec Hp].
  { intros ps who c Hin. simpl in Hin. apply elem_of_nil in Hin. destruct Hin. }
  { apply pairwise_nil. }
  split.
  - intros i j ps1 who1 c1 ps2 who2 c2 Hij H1 H2. exact (Hp i j _ _ Hij H1 H2).
  - intros ps who c Hin. apply recorded_in_stores. exact (Hrec _ _ _ Hin).
Qed.

Lemma request_placements_are_sound_witness :
  length (snd busy_request) = 4
  /\ (forall i j ps1 who1 c1 ps2 who2 c2,
        i < j ->
        snd busy_request !! i = Some (Success ps1 who1 c1) ->
        snd busy_request !! j = Some (Success ps2 who2 c2) ->
        (t_faculty who1 = t_faculty who2 ->
         forall cell, cell ∈ faculty_cells c1 -> cell ∉ faculty_cells c2)
        /\ (t_sem who1 = t_sem who2 -> t_div who1 = t_div who2 ->
            forall cell, cell ∈ division_cells c1 -> cell ∉ division_cells c2))
  /\ (forall ps who c,
        Success ps who c ∈ snd busy_request ->
        exists (ftbl : table) (sh : shift) (dtbl : table),
          app_ftables (fst busy_request) !! t_faculty who = Some ftbl
          /\ app_dtables (fst busy_request) !! (t_sem who, t_div who) = Some (sh, dtbl)
          /\ holds_placement who c ftbl dtbl).
Proof.
  split; [vm_compute; reflexivity|].
  exact (request_placements_are_sound demo_generator [busy_faculty] stale_state
           (fst busy_request) (snd busy_request) busy_request_returns).
Defined.

(** ** When a placement call fails *)

Module FailFacts.

Lemma find_first_none {A B} (body : A -> option B) l :
  find_first body l = None -> forall a, In a l -> body a = None.
Proof.
  induction l as [|a l IH]; simpl; [intros _ a []|].
  destruct (body a) eqn:E; [discriminate|].
  intros H a' [<-|Ha]; [exact E|exact (IH H a' Ha)].
Qed.

Lemma find_first_st_none {A B S} (body : A -> S -> option B * S) l s s' :
  find_first_st body l s = (None, s') ->
  forall a, In a l -> exists s1 s2, body a s1 = (None, s2).
Proof.
  revert s; induction l as [|a l IH]; simpl; intros s; [intros _ a []|].
  destruct (body a s) as [[b|] s0] eqn:E; [discriminate|].
  intros H a' [<-|Ha]; [eauto|exact (IH _ H a' Ha)].
Qed.

Lemma all_days (d : day) : In d DAYS.
Proof. destruct d; simpl; tauto. Qed.

Lemma sampled_days r (d : day) : In d (fst (random_sample_days r)).
Proof.
  apply list_elem_of_In. rewrite random_sample_days_perm.
  apply list_elem_of_In, all_days.
Qed.

Lemma teaching_slot sh s : In s (teaching_slots sh) <-> In s (SHIFT_SLOTS sh) /\ is_inert s = false.
Proof.
  unfold teaching_slots, is_inert. rewrite filter_In, <- negb_orb, negb_true_iff. reflexivity.
Qed.

Lemma pair_equivalent_allowed fshift fs1 fs2 dshift ds1 ds2 :
  pair_slots_equivalent fshift fs1 fs2 dshift ds1 ds2 = true ->
  division_pair_allowed_for_faculty fshift dshift (ds1, ds2) = true.
Proof.
  intros H. unfold pair_slots_equivalent in H.
  apply andb_true_iff in H as [H1 H2].
  apply slots_equivalent_allowed in H1, H2.
  unfold division_slot_allowed_for_faculty in H1, H2.
  unfold division_pair_allowed_for_faculty. simpl.
  destruct (bool_decide (fshift = Shift_10_5) && bool_decide (dshift = Shift_8_3));
    [|reflexivity].
  rewrite H1, H2. reflexivity.
Qed.

Lemma theory_slots_none ftbl dtbl fshift dshift d :
  lock_theory_slots ftbl dtbl fshift dshift d = None ->
  forall fs ds,
    In fs (SHIFT_SLOTS fshift) -> is_inert fs = false ->
    In ds (SHIFT_SLOTS dshift) -> is_inert ds = false ->
    free_slot ftbl d fs = true -> free_slot dtbl d ds = true ->
    slots_equivalent fshift fs dshift ds = false.
Proof.
  unfold lock_theory_slots. intros H fs ds Hfs Hfi Hds Hdi Hff Hdf.
  apply (find_first_none _ _ H) in Hfs. rewrite Hfi, Hff in Hfs. simpl in Hfs.
  apply (find_first_none _ _ Hfs) in Hds. rewrite Hdi, Hdf in Hds. simpl in Hds.
  destruct (slots_equivalent fshift fs dshift ds) eqn:E; [|reflexivity].
  rewrite (slots_equivalent_allowed _ _ _ _ E) in Hds. discriminate.
Qed.

Lemma lab_dpairs_none dtbl fshift dshift fday fs1 fs2 dday :
  lab_dpairs dtbl fshift dshift fday fs1 fs2 dday = None ->
  forall ds1 ds2,
    In (ds1, ds2) (consecutive_pairs_for_shift dshift) ->
    free_pair dtbl dday ds1 ds2 = true ->
    pair_slots_equivalent fshift fs1 fs2 dshift ds1 ds2 = false.
Proof.
  unfold lab_dpairs. intros H ds1 ds2 Hds Hdf.
  apply (find_first_none _ _ H) in Hds. rewrite Hdf in Hds. simpl in Hds.
  destruct (pair_slots_equivalent fshift fs1 fs2 dshift ds1 ds2) eqn:E; [|reflexivity].
  rewrite (pair_equivalent_allowed _ _ _ _ _ _ E) in Hds. discriminate.
Qed.

Lemma force_theory_full fds ftbl dtbl fshift dshift fname sem div subject :
  placed (force_place_theory fds ftbl dtbl fshift dshift fname sem div subject) = false ->
  forall fday dday fs ds,
    In fs (teaching_slots fshift) -> In ds (teaching_slots dshift) ->
    free_slot ftbl fday fs = true -> free_slot dtbl dday ds = true ->
    slots_equivalent fshift fs dshift ds = false.
Proof.
  unfold force_place_theory. set (who := theory_task _ _ _ _ _ _).
  destruct (find_first _ DAYS) as [c|] eqn:H1.
  { rewrite (proj1 (success_fields Force who c ftbl dtbl)). discriminate. }
  destruct (find_first _ DAYS) as [c|] eqn:H2 in |- *.
  { rewrite (proj1 (success_fields ForceRelax who c ftbl dtbl)). discriminate. }
  intros _ fday dday fs ds Hfs Hds Hff Hdf.
  pose proof (find_first_none _ _ H2 dday (all_days dday)) as H. cbv beta in H.
  apply (find_first_none _ _ H) in Hds. cbv beta in Hds. rewrite Hdf in Hds. change (negb true) with false in Hds. cbv beta iota in Hds.
  pose proof (find_first_none _ _ Hds fday (all_days fday)) as H'. cbv beta in H'.
  apply (find_first_none _ _ H') in Hfs. cbv beta in Hfs. rewrite Hff in Hfs. change (negb true) with false in Hfs. cbv beta iota in Hfs.
  destruct (slots_equivalent fshift fs dshift ds) eqn:E; [|reflexivity].
  rewrite (slots_equivalent_allowed _ _ _ _ E) in Hfs. discriminate.
Qed.

Lemma force_lab_full fds ftbl dtbl fshift dshift fname sem div subject batch :
  placed (force_place_lab fds ftbl dtbl fshift dshift fname sem div subject batch) = false ->
  forall fday dday fs1 fs2 ds1 ds2,
    In (fs1, fs2) (consecutive_pairs_for_shift fshift) ->
    In (ds1, ds2) (consecutive_pairs_for_shift dshift) ->
    free_pair ftbl fday fs1 fs2 = true -> free_pair dtbl dday ds1 ds2 = true ->
    pair_slots_equivalent fshift fs1 fs2 dshift ds1 ds2 = false.
Proof.
  unfold force_place_lab. set (who := lab_task _ _ _ _ _ _ _).
  destruct (find_first _ DAYS) as [c|] eqn:H1.
  { rewrite (proj1 (success_fields Force who c ftbl dtbl)). discriminate. }
  destruct (find_first _ DAYS) as [c|] eqn:H2 in |- *.
  { rewrite (proj1 (success_fields ForceRelax who c ftbl dtbl)). discriminate. }
  intros _ fday dday fs1 fs2 ds1 ds2 Hfs Hds Hff Hdf.
  pose proof (find_first_none _ _ H2 dday (all_days dday)) as H. cbv beta in H.
  apply (find_first_none _ _ H) in Hds. cbv beta iota in Hds. rewrite Hdf in Hds. change (negb true) with false in Hds. cbv beta iota in Hds.
  pose proof (find_first_none _ _ Hds fday (all_days fday)) as H'. cbv beta in H'.
  apply (find_first_none _ _ H') in Hfs. cbv beta iota in Hfs. rewrite Hff in Hfs. change (negb true) with false in Hfs. cbv beta iota in Hfs.
  destruct (pair_slots_equivalent fshift fs1 fs2 dshift ds1 ds2); [discriminate|reflexivity].
Qed.

Lemma lock_theory_full fds ftbl dtbl fshift dshift fname sem div subject avoid_dup r :
  placed (fst (lock_theory fds ftbl dtbl fshift dshift fname sem div subject avoid_dup r))
  = false ->
  forall d fs ds,
    In fs (SHIFT_SLOTS fshift) -> is_inert fs = false ->
    In ds (SHIFT_SLOTS dshift) -> is_inert ds = false ->
    free_slot ftbl d fs = true -> free_slot dtbl d ds = true ->
    slots_equivalent fshift fs dshift ds = false.
Proof.
  unfold lock_theory. set (who := theory_task _ _ _ _ _ _).
  destruct (random_sample_days r) as [days r1].
  destruct (find_first _ days) as [c|] eqn:H1.
  { simpl. rewrite (proj1 (success_fields Lock who c ftbl dtbl)). discriminate. }
  pose proof (sampled_days r1) as Hall.
  destruct (random_sample_days r1) as [days2 r2].
  destruct (find_first _ days2) as [c|] eqn:H2; simpl.
  { rewrite (proj1 (success_fields LockFallback who c ftbl dtbl)). discriminate. }
  intros _ d. apply theory_slots_none. exact (find_first_none _ _ H2 d (Hall d)).
Qed.

Lemma lock_lab_full fds ftbl dtbl fshift dshift fname sem div subject batch r :
  placed (fst (lock_lab fds ftbl dtbl fshift dshift fname sem div subject batch true r))
  = false ->
  forall fday dday fs1 fs2 ds1 ds2,
    In (fs1, fs2) (consecutive_pairs_for_shift fshift) ->
    In (ds1, ds2) (consecutive_pairs_for_shift dshift) ->
    free_pair ftbl fday fs1 fs2 = true -> free_pair dtbl dday ds1 ds2 = true ->
    day_has_division dtbl dday sem div = false ->
    pair_slots_equivalent fshift fs1 fs2 dshift ds1 ds2 = false.
Proof.
  unfold lock_lab. set (who := lab_task _ _ _ _ _ _ _).
  destruct (random_sample_days r) as [days r1].
  destruct (find_first _ days) as [c|] eqn:H1.
  { simpl. rewrite (proj1 (success_fields Lock who c ftbl dtbl)). discriminate. }
  pose proof (sampled_days r1) as Hall.
  destruct (random_sample_days r1) as [days2 r2].
  destruct (find_first_st _ days2 r2) as [[c|] r3] eqn:H2; simpl.
  { rewrite (proj1 (success_fields LockFallback who c ftbl dtbl)). discriminate. }
  intros _ fday dday fs1 fs2 ds1 ds2 Hfs Hds Hff Hdf Hdiv.
  destruct (find_first_st_none _ _ _ _ H2 fday (Hall fday)) as (s1 & s2 & H).
  destruct (find_first_st_none _ _ _ _ H _ Hfs) as (s3 & s4 & H').
  simpl in H'. rewrite Hff in H'. simpl in H'.
  pose proof (sampled_days s3) as Hall'.
  destruct (random_sample_days s3) as [ddays s5]. injection H' as H' _.
  pose proof (find_first_none _ _ H' dday (Hall' dday)) as Hd. simpl in Hd.
  rewrite Hdiv in Hd. simpl in Hd.
  exact (lab_dpairs_none _ _ _ _ _ _ _ Hd _ _ Hds Hdf).
Qed.

End FailFacts.

(** A force call fails only when there is no room left: [FAILED FORCE]
    means that no teaching slot is free in the faculty's grid on some day
    and, under an equivalent label, in the division's grid on some day
    (theory), and that no lab block is free in both grids (lab).  The
    shift-window test plays no part: it is implied by the equivalence. *)
Theorem force_fails_only_when_full
    (fds : free_days) (ftbl dtbl : table) (fshift dshift : shift)
    (fname sem div subject batch : string) :
  (placed (force_place_theory fds ftbl dtbl fshift dshift fname sem div subject) = false ->
   forall fday dday fs ds,
     In fs (teaching_slots fshift) -> In ds (teaching_slots dshift) ->
     free_slot ftbl fday fs = true -> free_slot dtbl dday ds = true ->
     slots_equivalent fshift fs dshift ds = false)
  /\ (placed (force_place_lab fds ftbl dtbl fshift dshift fname sem div subject batch)
      = false ->
      forall fday dday fs1 fs2 ds1 ds2,
        In (fs1, fs2) (consecutive_pairs_for_shift fshift) ->
        In (ds1, ds2) (consecutive_pairs_for_shift dshift) ->
        free_pair ftbl fday fs1 fs2 = true -> free_pair dtbl dday ds1 ds2 = true ->
        pair_slots_equivalent fshift fs1 fs2 dshift ds1 ds2 = false).
Proof.
  split; [apply FailFacts.force_theory_full|apply FailFacts.force_lab_full].
Qed.

Lemma force_fails_only_when_full_witness :
  placed (force_place_theory all_week_free (empty_table_for_shift Shift_8_3)
            full_division_table Shift_8_3 Shift_8_3 "MSK" "3" "A" "Maths") = false
  /\ forall fday dday fs ds,
       In fs (teaching_slots Shift_8_3) -> In ds (teaching_slots Shift_8_3) ->
       free_slot (empty_table_for_shift Shift_8_3) fday fs = true ->
       free_slot full_division_table dday ds = true ->
       slots_equivalent Shift_8_3 fs Shift_8_3 ds = false.
Proof.
  assert (H : placed (force_place_theory all_week_free (empty_table_for_shift Shift_8_3)
                        full_division_table Shift_8_3 Shift_8_3 "MSK" "3" "A" "Maths")
              = false) by (vm_compute; reflexivity).
  split; [exact H|].
  exact (proj1 (force_fails_only_when_full all_week_free (empty_table_for_shift Shift_8_3)
                  full_division_table Shift_8_3 Shift_8_3 "MSK" "3" "A" "Maths" "B1") H).
Defined.

(** A lock call fails only when no day fits: [TRY-FAIL] of [lock_theory]
    means that on no day a teaching slot is free in both grids under
    equivalent labels; [TRY-FAIL] of [lock_lab], as the driver calls it,
    means that no lab block free in the faculty's grid has an equivalent
    block free in the division's grid on a day whose row does not name the
    division. *)
Theorem lock_fails_only_when_no_day_fits
    (fds : free_days) (ftbl dtbl : table) (fshift dshift : shift)
    (fname sem div subject batch : string) (avoid_dup : bool) (r : rng) :
  (placed (fst (lock_theory fds ftbl dtbl fshift dshift fname sem div subject avoid_dup r))
   = false ->
   forall d fs ds,
     In fs (SHIFT_SLOTS fshift) -> is_inert fs = false ->
     In ds (SHIFT_SLOTS dshift) -> is_inert ds = false ->
     free_slot ftbl d fs = true -> free_slot dtbl d ds = true ->
     slots_equivalent fshift fs dshift ds = false)
  /\ (placed (fst (lock_lab fds ftbl dtbl fshift dshift fname sem div subject batch true r))
      = false ->
      forall fday dday fs1 fs2 ds1 ds2,
        In (fs1, fs2) (consecutive_pairs_for_shift fshift) ->
        In (ds1, ds2) (consecutive_pairs_for_shift dshift) ->
        free_pair ftbl fday fs1 fs2 = true -> free_pair dtbl dday ds1 ds2 = true ->
        day_has_division dtbl dday sem div = false ->
        pair_slots_equivalent fshift fs1 fs2 dshift ds1 ds2 = false).
Proof.
  split; [apply FailFacts.lock_theory_full|apply FailFacts.lock_lab_full].
Qed.

Lemma lock_fails_only_when_no_day_fits_witness :
  placed (fst (lock_theory all_week_free (empty_table_for_shift Shift_8_3)
                 full_division_table Shift_8_3 Shift_8_3 "MSK" "3" "A" "Maths" true
                 demo_rng)) = false
  /\ forall d fs ds,
       In fs (SHIFT_SLOTS Shift_8_3) -> is_inert fs = false ->
       In ds (SHIFT_SLOTS Shift_8_3) -> is_inert ds = false ->
       free_slot (empty_table_for_shift Shift_8_3) d fs = true ->
       free_slot full_division_table d ds = true ->
       slots_equivalent Shift_8_3 fs Shift_8_3 ds = false.
Proof.
  assert (H : placed (fst (lock_theory all_week_free (empty_table_for_shift Shift_8_3)
                             full_division_table Shift_8_3 Shift_8_3 "MSK" "3" "A" "Maths"
                             true demo_rng)) = false) by (vm_compute; reflexivity).
  split; [exact H|].
  exact (proj1 (lock_fails_only_when_no_day_fits all_week_free
                  (empty_table_for_shift Shift_8_3) full_division_table
                  Shift_8_3 Shift_8_3 "MSK" "3" "A" "Maths" "B1" true demo_rng) H).
Defined.

(** ** The grids a run leaves *)

Module GridFacts.

Lemma engine_step_has_faculty fds w w' fname :
  engine_step fds w w' -> is_Some (ftables w !! fname) -> is_Some (ftables w' !! fname).
Proof.
  intros [w0 n sh _|w0 sem div dshift|w0 who o r locking _] H; simpl.
  - rewrite lookup_insert. destruct (decide (n = fname)); [eauto|exact H].
  - exact H.
  - rewrite lookup_insert. destruct (decide (t_faculty who = fname)); [eauto|exact H].
Qed.

Lemma engine_run_has_faculty fds w w' fname :
  rtc (engine_step fds) w w' -> is_Some (ftables w !! fname) -> is_Some (ftables w' !! fname).
Proof. induction 1; eauto using engine_step_has_faculty. Qed.

Lemma engine_run_has_division fds w w' key :
  rtc (engine_step fds) w w' -> is_Some (dtables w !! key) -> is_Some (dtables w' !! key).
Proof. induction 1; eauto using engine_step_present. Qed.

Lemma theory_entry_has fds f e st :
  is_Some (dtables (fst (theory_entry fds f e st)) !! (Semester e, Division e)).
Proof.
  unfold theory_entry.
  eapply (engine_run_has_division fds
            (ensure fds (Semester e) (Division e) (Div_Shift e) (fst st))).
  - refine (iter_rtc (engine_step fds) fst _ _ (_, _) _).
    intros s. apply rtc_once, lock_step_engine.
  - exact (ensure_present fds (dtables (fst st)) _ _ _).
Qed.

Lemma lab_entry_has fds f e st st' :
  lab_entry fds f e st = Some st' ->
  is_Some (dtables (fst st') !! (Semester e, Division e)).
Proof.
  unfold lab_entry.
  destruct (if negb (Batches_Grouped e) then _ else _) as [batches|]; [|discriminate].
  intros [= <-].
  eapply (engine_run_has_division fds
            (ensure fds (Semester e) (Division e) (Div_Shift e) (fst st))).
  - refine (foldl_rtc (engine_step fds) fst _ _ (_, _) _). intros s batch.
    apply (iter_rtc (engine_step fds) fst). intros s0. apply rtc_once, lock_step_engine.
  - exact (ensure_present fds (dtables (fst st)) _ _ _).
Qed.

Lemma for_each_has (has : subject_entry -> world -> Prop) fds f l st st' :
  (forall e w w', has e w -> rtc (engine_step fds) w w' -> has e w') ->
  (forall e s s', lab_entry fds f e s = Some s' -> has e (fst s')) ->
  for_each (lab_entry fds f) l st = Some st' ->
  forall e, e ∈ l -> has e (fst st').
Proof.
  intros Hkeep Hset. revert st; induction l as [|a l IH]; intros st; simpl.
  - intros _ e He. apply elem_of_nil in He. destruct He.
  - destruct (lab_entry fds f a st) as [s1|] eqn:E; [|discriminate].
    intros H e He. apply elem_of_cons in He as [->|He]; [|exact (IH _ H e He)].
    eapply Hkeep; [exact (Hset _ _ _ E)|].
    exact (for_each_rtc (engine_step fds) fst _ _ _ _ (lab_entry_rtc fds f) H).
Qed.

Lemma foldl_has (has : subject_entry -> world -> Prop) fds f l st :
  (forall e w w', has e w -> rtc (engine_step fds) w w' -> has e w') ->
  (forall e s, has e (fst (theory_entry fds f e s))) ->
  forall e, e ∈ l -> has e (fst (foldl (fun st entry => theory_entry fds f entry st) st l)).
Proof.
  intros Hkeep Hset. revert st; induction l as [|a l IH]; intros st e He; simpl.
  - apply elem_of_nil in He. destruct He.
  - apply elem_of_cons in He as [->|He]; [|exact (IH _ e He)].
    eapply Hkeep; [apply Hset|].
    apply (foldl_rtc (engine_step fds) fst). intros s entry. apply theory_entry_rtc.
Qed.

Definition has_division (e : subject_entry) (w : world) : Prop :=
  is_Some (dtables w !! (Semester e, Division e)).

Lemma has_division_keeps fds e w w' :
  has_division e w -> rtc (engine_step fds) w w' -> has_division e w'.
Proof. intros H Hrun. eapply engine_run_has_division; eassumption. Qed.

Lemma lock_phase_has fds f w st :
  lock_phase fds f w = Some st ->
  is_Some (ftables (fst st) !! Name f)
  /\ forall e, e ∈ Subjects f -> has_division e (fst st).
Proof.
  intros Hrun. pose proof Hrun as Hsteps. revert Hrun. unfold lock_phase.
  set (w1 := match ftables w !! Name f with Some _ => w | None => _ end).
  assert (Hf : is_Some (ftables w1 !! Name f)).
  { subst w1. destruct (ftables w !! Name f) eqn:E; [rewrite E; eauto|].
    simpl. rewrite lookup_insert_eq. eauto. }
  destruct (for_each _ _ (w1, [])) as [st1|] eqn:E; [|discriminate].
  intros [= <-].
  pose proof (for_each_rtc (engine_step fds) fst _ _ _ _ (lab_entry_rtc fds f) E) as R1.
  assert (R2 : rtc (engine_step fds) (fst st1)
                 (fst (foldl (fun st entry => theory_entry fds f entry st) st1
                         (List.filter (is_kind Theory) (Subjects f))))).
  { apply (foldl_rtc (engine_step fds) fst). intros s entry. apply theory_entry_rtc. }
  split.
  - eapply engine_run_has_faculty; [exact R2|].
    eapply engine_run_has_faculty; [exact R1|exact Hf].
  - intros e He. destruct (Type_ e) eqn:Hk.
    + apply (foldl_has has_division); [apply has_division_keeps|apply theory_entry_has|].
      apply list_elem_of_In, filter_In. split; [apply list_elem_of_In, He|].
      unfold is_kind. apply bool_decide_eq_true. exact Hk.
    + eapply has_division_keeps; [|exact R2].
      eapply (for_each_has has_division); [apply has_division_keeps|apply lab_entry_has|exact E|].
      apply list_elem_of_In, filter_In. split; [apply list_elem_of_In, He|].
      unfold is_kind. apply bool_decide_eq_true. exact Hk.
Qed.

Lemma assign_subjects_has fds f w w' :
  assign_subjects_for_faculty fds f w = Some w' ->
  is_Some (ftables w' !! Name f) /\ forall e, e ∈ Subjects f -> has_division e w'.
Proof.
  unfold assign_subjects_for_faculty.
  destruct (lock_phase fds f w) as [[w1 pending]|] eqn:E; [|discriminate].
  intros [= <-]. destruct (lock_phase_has _ _ _ _ E) as [Hf Hd]. simpl in Hf, Hd.
  assert (R : rtc (engine_step fds) w1 (foldl (force_step fds) w1 pending)).
  { apply (foldl_rtc (engine_step fds) id). intros s who. apply force_step_engine. }
  split; [eapply engine_run_has_faculty; eassumption|].
  intros e He. eapply has_division_keeps; [exact (Hd e He)|exact R].
Qed.

Lemma assign_all_has fds faculties w w' :
  assign_all fds faculties w = Some w' ->
  forall f, f ∈ faculties ->
    is_Some (ftables w' !! Name f) /\ forall e, e ∈ Subjects f -> has_division e w'.
Proof.
  unfold assign_all. revert w; induction faculties as [|a l IH]; intros w; simpl.
  - intros _ f Hf. apply elem_of_nil in Hf. destruct Hf.
  - destruct (assign_subjects_for_faculty fds a w) as [w1|] eqn:E; [|discriminate].
    intros H f Hf. apply elem_of_cons in Hf as [->|Hf]; [|exact (IH _ H f Hf)].
    destruct (assign_subjects_has _ _ _ _ E) as [H1 H2].
    pose proof (assign_all_rtc fds l w1 w' H) as R. split.
    + eapply engine_run_has_faculty; eassumption.
    + intros e He. eapply has_division_keeps; [exact (H2 e He)|exact R].
Qed.

Lemma mark_keeps_key fds faculties dt item key :
  is_Some (dt !! key) -> is_Some (mark_free_days fds faculties dt item !! key).
Proof.
  intros H. destruct item as [[sem div] days]. unfold mark_free_days.
  pose proof (ensure_div_table_lookup fds dt sem div (div_shift_map faculties (sem, div)) key)
    as Hl.
  destruct (ensure_div_table fds dt sem div _) as [dt1 [dtbl sh]]. simpl in *.
  rewrite lookup_insert. destruct (decide ((sem, div) = key)); [eauto|].
  rewrite Hl. destruct (dt !! (sem, div)); [exact H|].
  rewrite decide_False by congruence. exact H.
Qed.

Lemma mark_sets_key fds faculties dt key days :
  is_Some (mark_free_days fds faculties dt (key, days) !! key).
Proof.
  destruct key as [sem div]. unfold mark_free_days.
  destruct (ensure_div_table fds dt sem div _) as [dt1 [dtbl sh]].
  rewrite lookup_insert_eq. eauto.
Qed.

Lemma premarking_has_keys fds0 faculties l dt key :
  key ∈ map fst l -> is_Some (foldl (mark_free_days fds0 faculties) dt l !! key).
Proof.
  revert dt; induction l as [|[k days] l IH]; intros dt Hin; simpl in *.
  - apply elem_of_nil in Hin. destruct Hin.
  - apply elem_of_cons in Hin as [->|Hin]; [|apply IH, Hin].
    apply (foldl_invariant (fun dt : div_tables => is_Some (dt !! k))).
    + intros. apply mark_keeps_key. assumption.
    + apply mark_sets_key.
Qed.

Lemma main_has_grids g fds faculties w :
  main g fds faculties = Some w ->
  (forall f, f ∈ faculties -> is_Some (ftables w !! Name f))
  /\ (forall f e, f ∈ faculties -> e ∈ Subjects f ->
        is_Some (dtables w !! (Semester e, Division e)))
  /\ (forall key, key ∈ map fst fds -> is_Some (dtables w !! key)).
Proof.
  intros Hrun. pose proof (main_rtc _ _ _ _ Hrun) as R.
  unfold main in Hrun. pose proof (assign_all_has _ _ _ _ Hrun) as H.
  split; [|split].
  - intros f Hf. apply (H f Hf).
  - intros f e Hf He. apply (proj2 (H f Hf) e He).
  - intros key Hk. eapply engine_run_has_division; [exact R|]. simpl.
    apply premarking_has_keys, Hk.
Qed.

End GridFacts.

(** When the scheduling loop of [main] ends, the stores hold a grid for
    every faculty of the plan, for every division an entry names, and for
    every key of the free-day settings: the export finds a table for each
    of them. *)
Theorem every_planned_grid_exists
    (g : generator) (fds : free_days) (faculties : list faculty) (w : world) :
  main g fds faculties = Some w ->
  (forall f, f ∈ faculties -> is_Some (ftables w !! Name f))
  /\ (forall f e, f ∈ faculties -> e ∈ Subjects f ->
        is_Some (dtables w !! (Semester e, Division e)))
  /\ (forall key, key ∈ map fst fds -> is_Some (dtables w !! key)).
Proof. apply GridFacts.main_has_grids. Qed.
Lemma every_planned_grid_exists_witness :
  (forall f, f ∈ [busy_faculty] -> is_Some (ftables busy_run !! Name f))
  /\ (forall f e, f ∈ [busy_faculty] -> e ∈ Subjects f ->
        is_Some (dtables busy_run !! (Semester e, Division e)))
  /\ (forall key, key ∈ map fst saturday_free -> is_Some (dtables busy_run !! key)).
Proof.
  exact (every_planned_grid_exists demo_generator saturday_free [busy_faculty] busy_run
           busy_run_returns).
Defined.

(** ** Labs and free days *)

(** The name has no blank in it. *)
Definition no_blank (s : string) : Prop :=
  PyStr.all_chars (fun c => negb (Ascii.eqb c " "%char)) s = true.

(** On a free day of its key, a table has a cell with the holiday sentinel
    of the key. *)
Definition marked_store (fds : free_days) (dt : div_tables) : Prop :=
  forall key sh (t : table), dt !! key = Some (sh, t) ->
    forall d, is_division_holiday fds (fst key) (snd key) d = true ->
      exists slot, get_cell t d slot = holiday_text (fst key) (snd key).

Module LabFacts.
Import PyStr PyStrFacts SubstringFacts.

Lemma lower_char_blank c :
  Ascii.eqb (lower_char c) " "%char = Ascii.eqb c " "%char.
Proof. destruct c as [[] [] [] [] [] [] [] []]; reflexivity. Qed.

Lemma no_blank_lower s : no_blank s -> remove_blanks (lower s) = lower s.
Proof.
  unfold no_blank, remove_blanks, lower. induction s as [|c s IH]; simpl; [reflexivity|].
  intros H. apply andb_true_iff in H as [Hc Hs]. apply negb_true_iff in Hc.
  rewrite lower_char_blank, Hc, (IH Hs). reflexivity.
Qed.

Lemma remove_if_app p a b : remove_if p (a +:+ b) = remove_if p a +:+ remove_if p b.
Proof.
  induction a as [|c a IH]; simpl; [reflexivity|].
  destruct (p c); simpl; rewrite IH; reflexivity.
Qed.

Lemma low_app a b :
  remove_blanks (lower (a +:+ b)) = remove_blanks (lower a) +:+ remove_blanks (lower b).
Proof. unfold lower. rewrite map_chars_app. apply remove_if_app. Qed.

Lemma lower_app a b : lower (a +:+ b) = lower a +:+ lower b.
Proof. apply map_chars_app. Qed.

(** The sentinel of a division, lowered and without blanks. *)
Lemma sentinel_low sem div :
  no_blank sem -> no_blank div ->
  remove_blanks (lower (holiday_text sem div))
  = "competitiveexam/sunclubs/sport(" +:+ (lower ("sem" +:+ sem)
      +:+ (lower ("div" +:+ div) +:+ ")")).
Proof.
  intros Hs Hd. unfold holiday_text.
  rewrite (low_app FREE_DAY_LABEL), (low_app " (Sem"), (low_app sem), (low_app " Div"),
    (low_app div).
  rewrite (no_blank_lower _ Hs), (no_blank_lower _ Hd).
  rewrite (lower_app "sem"), (lower_app "div").
  replace (remove_blanks (lower FREE_DAY_LABEL)) with "competitiveexam/sunclubs/sport"
    by (vm_compute; reflexivity).
  replace (remove_blanks (lower " (Sem")) with ("(" +:+ lower "sem") by (vm_compute; reflexivity).
  replace (remove_blanks (lower " Div")) with (lower "div") by (vm_compute; reflexivity).
  replace (remove_blanks (lower ")")) with ")" by (vm_compute; reflexivity).
  generalize (lower "sem") (lower "div") (lower sem) (lower div). intros a b c d.
  rewrite !append_assoc.
  reflexivity.
Qed.

Lemma day_has_division_sentinel (t : table) d slot sem div :
  no_blank sem -> no_blank div ->
  get_cell t d slot = holiday_text sem div ->
  day_has_division t d sem div = true.
Proof.
  intros Hs Hd Hcell. unfold day_has_division.
  apply existsb_exists. exists (holiday_text sem div). split.
  - apply list_elem_of_In. rewrite <- Hcell. apply row_values_cell.
    rewrite Hcell. apply cell_text_nonempty, text_holiday.
  - cbv zeta. rewrite (sentinel_low _ _ Hs Hd). apply andb_true_iff. split.
    + apply contains_app.
    + rewrite <- append_assoc. apply contains_app.
Qed.

Definition probe : string := "10:00-11:00".

Lemma probe_teaching sh : probe ∈ SHIFT_SLOTS sh /\ is_inert probe = false.
Proof. split; [|reflexivity]. destruct sh; simpl; set_solver. Qed.

Lemma marked_new_div_table fds dt sem div div_shift d :
  dt !! (sem, div) = None ->
  is_division_holiday fds sem div d = true ->
  get_cell (fst (snd (ensure_div_table fds dt sem div div_shift))) d probe
  = holiday_text sem div.
Proof.
  intros Hnone Hday. unfold is_division_holiday in Hday. apply bool_decide_eq_true in Hday.
  unfold ensure_div_table. rewrite Hnone. simpl.
  set (P := fun t : table => get_cell t d probe = holiday_text sem div).
  assert (Hstep : forall (t : table) hday s, P t ->
            P (if is_inert s then t else set_cell t hday s (holiday_text sem div))).
  { intros t hday s Ht. destruct (is_inert s); [exact Ht|].
    unfold P. rewrite get_set_cell. destruct (decide _); [reflexivity|exact Ht]. }
  destruct (probe_teaching div_shift) as [Hin Hi].
  apply (foldl_establish P) with (b0 := d); [| |exact Hday].
  - intros t hday Ht. apply foldl_invariant; [|exact Ht]. intros; apply Hstep; assumption.
  - intros t. apply (foldl_establish P) with (b0 := probe); [| |exact Hin].
    + intros; apply Hstep; assumption.
    + intros t'. rewrite Hi. unfold P. rewrite get_set_cell, decide_True by auto. reflexivity.
Qed.

Lemma marked_store_ensure fds dt sem div div_shift :
  marked_store fds dt -> marked_store fds (fst (ensure_div_table fds dt sem div div_shift)).
Proof.
  intros Hdt key sh t. rewrite ensure_div_table_lookup.
  destruct (dt !! (sem, div)) eqn:E; [apply Hdt|].
  destruct (decide (key = (sem, div))) as [->|]; [|apply Hdt].
  intros [= <- <-] d Hday. exists probe. apply marked_new_div_table; assumption.
Qed.

Lemma fill_day_keeps_sentinel (t : table) d0 v d slot :
  get_cell t d slot = v -> v <> "" -> get_cell (fill_day t d0 v) d slot = v.
Proof.
  unfold get_cell. rewrite fill_day_lookup. intros H Hv.
  destruct (decide (d = d0)) as [->|]; [|exact H].
  destruct (t d0 !! slot); simpl in *; [reflexivity|congruence].
Qed.

Lemma marked_store_mark fds faculties dt item :
  marked_store fds dt -> marked_store fds (mark_free_days fds faculties dt item).
Proof.
  intros Hdt. destruct item as [[sem div] days]. unfold mark_free_days.
  pose proof (marked_store_ensure fds dt sem div (div_shift_map faculties (sem, div)) Hdt)
    as H1.
  pose proof (ensure_div_table_result fds dt sem div (div_shift_map faculties (sem, div))) as H2.
  destruct (ensure_div_table fds dt sem div _) as [dt1 [dtbl sh]]. simpl in *.
  intros key sh' t. rewrite lookup_insert.
  destruct (decide ((sem, div) = key)) as [<-|]; [|apply H1].
  intros [= <- <-] d Hday. destruct (H1 _ _ _ H2 d Hday) as [slot Hslot]. exists slot.
  simpl in *.
  apply (foldl_invariant (fun t : table => get_cell t d slot = holiday_text sem div));
    [|exact Hslot].
  intros t0 d0 Ht0. apply fill_day_keeps_sentinel; [exact Ht0|].
  apply cell_text_nonempty, text_holiday.
Qed.

Lemma marked_after_premarking g fds faculties :
  marked_store fds (dtables (after_premarking g fds faculties)).
Proof.
  simpl. unfold apply_free_day_markings_from_inputs. apply foldl_invariant.
  - intros. apply marked_store_mark. assumption.
  - intros key sh t H. rewrite lookup_empty in H. discriminate.
Qed.

(** A lab placed by the lock pass is off the free days of its division. *)
Definition lab_lock_ok (fds : free_days) (e : event) : Prop :=
  match e with
  | Success ps who c =>
      t_kind who = Lab -> ps = Lock \/ ps = LockFallback ->
      no_blank (t_sem who) -> no_blank (t_div who) ->
      is_division_holiday fds (t_sem who) (t_div who) (division_day c) = false
  | _ => True
  end.

Lemma sched_step_labs fds ok w w' :
  sched_step fds ok w w' ->
  tidy_world w -> marked_store fds (dtables w) -> Forall (lab_lock_ok fds) (log w) ->
  marked_store fds (dtables w') /\ Forall (lab_lock_ok fds) (log w').
Proof.
  intros Hstep Ht Hm Hl.
  destruct Hstep as [w fname sh Hnew|w sem div dshift Hok
                    |w who o r locking Hplan Hpresent Hcall Hguard].
  - split; assumption.
  - split; [|exact Hl]. apply marked_store_ensure, Hm.
  - destruct Hpresent as [[sh t] Hk].
    assert (Ed : dtbl_of w (t_sem who, t_div who) = t) by (unfold dtbl_of; rewrite Hk; reflexivity).
    destruct Ht as [Htf Htd].
    destruct (call_spec_tables _ _ _ _ _ _ (Htf _) (Htd _) Hcall) as [_ [Hkd _]].
    rewrite Ed in Hkd, Hguard. split.
    + intros key sh' t'. simpl. rewrite lookup_alter.
      destruct (decide ((t_sem who, t_div who) = key)) as [<-|Hne]; [|apply Hm].
      rewrite Hk. simpl. intros [= <- <-] d Hday.
      destruct (Hm _ _ _ Hk d Hday) as [slot Hslot]. exists slot.
      rewrite Hkd; [exact Hslot|]. rewrite Hslot. apply cell_text_nonempty, text_holiday.
    + simpl. apply Forall_app. split; [exact Hl|]. constructor; [|constructor].
      destruct (out_event o) as [ps who' c| |] eqn:Ho; try exact I.
      assert (who' = who) as ->.
      { destruct Hcall as [ps0 c0 _ _|].
        - rewrite (proj1 (proj2 (success_fields ps0 who c0 _ _))) in Ho. congruence.
        - destruct locking; discriminate. }
      intros Hlab Hps Hs Hd.
      destruct (is_division_holiday fds (t_sem who) (t_div who) (division_day c)) eqn:Hday;
        [|reflexivity].
      destruct (Hm _ _ _ Hk _ Hday) as [slot Hslot]. simpl in Hslot.
      pose proof (day_has_division_sentinel _ _ _ _ _ Hs Hd Hslot) as Hyes.
      destruct Hguard as [G1 G2]. destruct Hps as [-> | ->].
      * destruct (G1 c Ho) as [Hno _]. congruence.
      * pose proof (G2 c Ho Hlab) as Hno. congruence.
Qed.

Lemma sched_run_labs fds ok w w' :
  rtc (sched_step fds ok) w w' ->
  tidy_world w -> marked_store fds (dtables w) -> Forall (lab_lock_ok fds) (log w) ->
  marked_store fds (dtables w') /\ Forall (lab_lock_ok fds) (log w').
Proof.
  induction 1 as [w|w1 w2 w3 Hstep _ IH]; intros Ht Hm Hl; [auto|].
  destruct (sched_step_labs _ _ _ _ Hstep Ht Hm Hl) as [Hm2 Hl2].
  apply IH; [|assumption|assumption].
  exact (proj1 (engine_step_invariant _ _ _ (sched_step_engine _ _ _ _ Hstep) Ht)).
Qed.

End LabFacts.

(** The division's grid keeps its free days from the labs of the lock
    pass, whatever shifts the plan names: the cells a lab placed by
    [lock_lab] -- by its first loop or by its fallback loop -- gets in the
    division's grid are never on a free day of the division.  The fallback
    loop has no holiday test, but it skips every division day whose row
    names the division, and the row of a free day holds the sentinel, which
    names it.  (The semester and the division are written without blanks,
    as the collector stores them.)  Nothing is said of the faculty's grid:
    the fallback loop takes the day of the faculty and the day of the
    division apart, and the faculty's day may be a free day of the
    division. *)
Theorem lab_locks_keep_free_days
    (g : generator) (fds : free_days) (faculties : list faculty) (w : world)
    (ps : pass) (who : task) (c : cells) :
  main g fds faculties = Some w ->
  Success ps who c ∈ log w ->
  t_kind who = Lab -> ps = Lock \/ ps = LockFallback ->
  no_blank (t_sem who) -> no_blank (t_div who) ->
  is_division_holiday fds (t_sem who) (t_div who) (division_day c) = false.
Proof.
  intros Hrun Hin. apply main_sched in Hrun.
  destruct (LabFacts.sched_run_labs _ _ _ _ Hrun (tidy_after_premarking g fds faculties)
              (LabFacts.marked_after_premarking g fds faculties) (Forall_nil_2 _))
    as [_ Hl].
  rewrite Forall_forall in Hl. exact (Hl _ Hin).
Qed.

Lemma lab_locks_keep_free_days_witness :
  is_division_holiday saturday_free "5" "B" (division_day (first_block Fri)) = false.
Proof.
  apply (lab_locks_keep_free_days demo_generator saturday_free [busy_faculty] busy_run
           Lock (busy_lab "B1") (first_block Fri)).
  - exact busy_run_returns.
  - rewrite busy_run_log. left.
  - reflexivity.
  - left. reflexivity.
  - reflexivity.
  - reflexivity.
Defined.

